(** * Duplicate resolution and merge engine: shallow embedding

    The development embeds the duplicate-detection controllers
    (controllers/dataCleanUp.controller) and the merge-application
    controllers (controllers/applyEntitiesDuplicateMerge.controller) as
    pure functions over an explicit database state.

    Conventions of the embedding:
    - a Prisma table is a finite map from primary key to row ([gmap Z _]);
      a fetched record is the pair of its key and its row;
    - a JS [Map] is an association list in insertion order;
    - JS strings are modelled over the ASCII alphabet;
    - JS numbers that carry identifiers and timestamps are integers ([Z]);
      the [page] and [limit] query numbers are exact rationals ([Q]),
      because the validation schema admits fractional values;
    - a thrown [RouteError.BadRequest msg] is the value [BadRequest msg];
      the merge handlers also throw errors of other classes, which reach
      the error handler without a status ([merge_error]);
    - a transaction that fails is rolled back: its row changes are undone,
      the sequence values it drew and a file it wrote are not. *)

From Stdlib Require Import Ascii QArith.
From stdpp Require Import base decidable option list sorting strings pretty gmap fin_maps.

Open Scope string_scope.
Open Scope list_scope.
Open Scope Z_scope.

(** ** JS string helpers *)

(** White space removed by [String.prototype.trim], restricted to ASCII:
    TAB, LF, VT, FF, CR and SPACE. *)
Definition is_space (c : ascii) : bool :=
  let n := nat_of_ascii c in
  ((9 <=? n)%nat && (n <=? 13)%nat) || (n =? 32)%nat.

Fixpoint trimStart (s : string) : string :=
  match s with
  | EmptyString => EmptyString
  | String c s' => if is_space c then trimStart s' else s
  end.

Fixpoint trimEnd (s : string) : string :=
  match s with
  | EmptyString => EmptyString
  | String c s' =>
      match trimEnd s' with
      | EmptyString => if is_space c then EmptyString else String c EmptyString
      | t => String c t
      end
  end.

(** [s.trim()] *)
Definition trim (s : string) : string := trimEnd (trimStart s).

Definition lower_char (c : ascii) : ascii :=
  let n := nat_of_ascii c in
  if ((65 <=? n)%nat && (n <=? 90)%nat)%bool then ascii_of_nat (n + 32) else c.

(** [s.toLowerCase()] *)
Fixpoint toLowerCase (s : string) : string :=
  match s with
  | EmptyString => EmptyString
  | String c s' => String (lower_char c) (toLowerCase s')
  end.

(** JS truthiness of a string: only the empty string is falsy. *)
Definition truthy (s : string) : bool :=
  match s with EmptyString => false | _ => true end.

(** [x || ""] for a nullable string. *)
Definition or_empty (x : option string) : string := default "" x.

(** [x?.trim().toLowerCase() || ""] *)
Definition normalized (x : option string) : string :=
  or_empty (toLowerCase <$> (trim <$> x)).

(** [parts.filter(Boolean).join(" ")] *)
Definition join_nonempty (parts : list string) : string :=
  String.concat " " (List.filter truthy parts).

(** ** Rows of the entities database

    Each record type lists the columns the controllers read or write; the
    primary key is the key of the table and is not repeated in the row. *)

Record entity := mk_entity {
  entity_name : option string;
  entity_trade_name : option string;
  entity_type : Z;
  entity_is_deleted : bool;
  entity_deleted_at : option Z;
  entity_updated_at : option Z
}.

Record people := mk_people {
  people_entity_id : Z;
  people_first_name : option string;
  people_last_name : option string;
  people_date_of_birth : option Z;
  people_created_at : option Z;
  people_updated_at : option Z;
  people_deleted_at : option Z
}.

Record address := mk_address {
  address_entity_id : Z;
  address_line : string;
  address_is_primary : string;
  address_created_at : option Z;
  address_updated_at : option Z;
  address_deleted_at : option Z
}.

Record entity_property := mk_entity_property {
  property_entity_id : Z;
  property_id : Z;
  property_value : option string;
  is_primary : option string;
  property_created_at : option Z;
  property_updated_at : option Z
}.

(** The database: four tables and, for the tables the merge inserts into,
    the next value of the auto-increment sequence. *)
Record database := mk_database {
  db_entity : gmap Z entity;
  db_people : gmap Z people;
  db_address : gmap Z address;
  db_entity_property : gmap Z entity_property;
  seq_people : Z;
  seq_address : Z;
  seq_entity_property : Z
}.

(** The rows of a table with their keys. A query without [orderBy] is
    taken to return them in primary-key order; no statement below depends
    on the order. *)
Definition key_le {R} (a b : Z * R) : Prop := a.1 ≤ b.1.

Global Instance key_le_dec {R} : RelDecision (@key_le R) :=
  λ a b, decide (a.1 ≤ b.1).

Definition table_rows {R} (t : gmap Z R) : list (Z * R) :=
  merge_sort key_le (map_to_list t).

(** [table.findMany({ where })]: the rows that satisfy the predicate. *)
Definition findMany {R} (where_ : Z → R → bool) (t : gmap Z R) : list (Z * R) :=
  List.filter (λ kr, where_ kr.1 kr.2) (table_rows t).

(** The error the controllers throw themselves: [RouteError.BadRequest]. *)
Inductive RouteError := BadRequest (message : string).

(** ** Candidate grouper (dataCleanUp.controller) *)

(** The [nameGroups] map: [if (!m.has(k)) m.set(k, []); m.get(k).push(x)]. *)
Fixpoint push_group {A} (k : string) (x : A) (m : list (string * list A))
  : list (string * list A) :=
  match m with
  | [] => [(k, [x])]
  | (k', g) :: m' =>
      if String.eqb k' k then (k', g ++ [x]) :: m'
      else (k', g) :: push_group k x m'
  end.

(** One turn of the grouping loop: [if (!key) continue; push]. *)
Definition group_step {A} (key : A → string) (m : list (string * list A)) (r : A)
  : list (string * list A) :=
  if truthy (key r) then push_group (key r) r m else m.

Definition build_groups {A} (key : A → string) (rows : list A)
  : list (string * list A) :=
  foldl (group_step key) [] rows.

(** [for (const [name, group] of nameGroups) if (group.length >= 2) ...] *)
Definition duplicate_entries {A} (m : list (string * list A))
  : list (string * list A) :=
  List.filter (λ kg, (2 <=? length kg.2)%nat) m.

(** Key of a person (lines 674-676): normalised first and last name joined
    by one space, empty parts dropped. *)
Definition fullName (person : Z * people) : string :=
  let firstName := normalized (people_first_name person.2) in
  let lastName := normalized (people_last_name person.2) in
  join_nonempty [firstName; lastName].

(** Key of an entity (lines 731 and 818): [entity.name || ""]. *)
Definition entityName (e : Z * entity) : string := or_empty (entity_name e.2).

(** getDuplicatePeopleByFullNameController, lines 649-703. *)
Definition peopleNameGroups (db : database) : list (string * list (Z * people)) :=
  let people := findMany (λ _ p, bool_decide (is_Some (people_first_name p)))
                         (db_people db) in
  build_groups fullName people.

Definition getDuplicatePeopleByFullNameController (db : database) : list string :=
  (duplicate_entries (peopleNameGroups db)).*1.

(** getDuplicateEntitiesByFullNameController, lines 705-758. *)
Definition entityNameGroups (db : database) : list (string * list (Z * entity)) :=
  let entities := findMany (λ _ e, bool_decide (entity_type e = 2)
                                   && negb (entity_is_deleted e))
                           (db_entity db) in
  build_groups entityName entities.

Definition getDuplicateEntitiesByFullNameController (db : database) : list string :=
  (duplicate_entries (entityNameGroups db)).*1.

(** *** Paginated duplicate groups by entity type (lines 760-847) *)

(** A query-string number after [z.coerce.number()]: the parameter is
    absent, coerces to NaN, or coerces to a number. *)
Inductive query_number :=
  | QueryAbsent
  | QueryNaN
  | QueryNum (q : Q).

(** [z.coerce.number().min(1).default(d)] *)
Definition coerce_min1 (d : Q) (x : query_number) : option Q :=
  match x with
  | QueryAbsent => Some d
  | QueryNaN => None
  | QueryNum q => if Qle_bool 1 q then Some q else None
  end.

(** [paginationSchema.safeParse(req.query)]: the pair [(page, limit)]. *)
Definition paginationSchema (page limit : query_number) : option (Q * Q) :=
  match coerce_min1 1 page, coerce_min1 (20 # 1) limit with
  | Some p, Some l => Some (p, l)
  | _, _ => None
  end.

(** [ToIntegerOrInfinity] on a finite number: truncation towards zero. *)
Definition ToIntegerOrInfinity (q : Q) : Z := Z.quot (Qnum q) (Zpos (Qden q)).

(** [Array.prototype.slice(start, end)] (ECMA-262, 23.1.3.28). *)
Definition slice {A} (start end_ : Q) (l : list A) : list A :=
  let len := Z.of_nat (length l) in
  let relativeStart := ToIntegerOrInfinity start in
  let k := if relativeStart <? 0 then Z.max (len + relativeStart) 0
           else Z.min relativeStart len in
  let relativeEnd := ToIntegerOrInfinity end_ in
  let final := if relativeEnd <? 0 then Z.max (len + relativeEnd) 0
               else Z.min relativeEnd len in
  let count := Z.max (final - k) 0 in
  take (Z.to_nat count) (drop (Z.to_nat k) l).

Record pagination_info := mk_pagination {
  pg_limit : Q;
  pg_page : Q;
  pg_offset : Q;
  pg_total : nat
}.

Record by_type_response := mk_by_type_response {
  duplicateGroups : list (string * nat);
  pagination : pagination_info
}.

Record by_type_request := mk_by_type_request {
  param_type : string;
  query_page : query_number;
  query_limit : query_number
}.

(** Entities of one type that are neither flagged deleted nor carry a
    deletion timestamp (lines 791-806). *)
Definition typedNameGroups (parsedType : Z) (db : database)
  : list (string * list (Z * entity)) :=
  let entities :=
    findMany (λ _ e, bool_decide (entity_type e = parsedType)
                     && negb (entity_is_deleted e)
                     && bool_decide (entity_deleted_at e = None))
             (db_entity db) in
  build_groups entityName entities.

(** The full list [duplicateGroups] before slicing (lines 830-835). *)
Definition typedDuplicateGroups (parsedType : Z) (db : database)
  : list (string * nat) :=
  (λ kg, (kg.1, length kg.2)) <$> duplicate_entries (typedNameGroups parsedType db).

Section by_type.
(** [parseInt] is the JS built-in ([None] is NaN); [zodErrorFmt] is the
    repository's formatter of schema errors, of which only the first
    message is used. *)
Variable parseInt : string → option Z.
Variable zodErrorFmt : query_number → query_number → string.

Definition getDuplicateEntitiesByNameWithTypeController
    (req : by_type_request) (db : database) : RouteError + by_type_response :=
  match paginationSchema (query_page req) (query_limit req) with
  | None => inl (BadRequest (zodErrorFmt (query_page req) (query_limit req)))
  | Some (page, limit) =>
      if negb (truthy (param_type req)) then
        inl (BadRequest "Entity type not provided")
      else
        let parsedType := parseInt (param_type req) in
        match parsedType with
        | Some t =>
            if bool_decide (t ∈ [1; 2]) then
              let offset := Qmult (Qminus page 1) limit in
              let duplicateGroups := typedDuplicateGroups t db in
              let paginatedResult :=
                slice offset (Qplus offset limit) duplicateGroups in
              inr {| duplicateGroups := paginatedResult;
                     pagination := {| pg_limit := limit; pg_page := page;
                                      pg_offset := offset;
                                      pg_total := length duplicateGroups |} |}
            else
              inl (BadRequest ("Invalid entity type provided. ("
                               +:+ pretty t +:+ ")"))
        | None => inl (BadRequest "Invalid entity type provided. (NaN)")
        end
  end.
End by_type.

(** ** Merge planner: getPotentialDuplicatePeopleGroupsController
    (lines 312-516) *)

(** A person fetched with [include: { entity: { address, properties } }]. *)
Record PeopleRecord := mk_PeopleRecord {
  pr_people_id : Z;
  pr_person : people;
  pr_entity_id : Z;
  pr_entity : entity;
  pr_address : list (Z * address);
  pr_properties : list (Z * entity_property)
}.

(** The answer of the oracle after [parseInt(keep)] ([None] is NaN) and
    [remove.map(Number)]. *)
Record aiDecision := mk_aiDecision {
  ai_keep : option Z;
  ai_remove : list Z
}.

Record deletionPlan := mk_deletionPlan {
  retained_entity_id : Z;
  retained_people_id : Z;
  deleted_people_ids : list Z;
  deleted_entity_ids : list Z;
  tables_to_cleanup : list (string * list Z)
}.

Record proposal := mk_proposal {
  prop_aiDecision : aiDecision;
  mergedPerson : PeopleRecord;
  prop_deletionPlan : deletionPlan
}.

Definition with_entity_id (eid : Z) (p : entity_property) : entity_property :=
  {| property_entity_id := eid;
     property_id := property_id p;
     property_value := property_value p;
     is_primary := is_primary p;
     property_created_at := property_created_at p;
     property_updated_at := property_updated_at p |}.

Definition with_is_primary (v : option string) (p : entity_property)
  : entity_property :=
  {| property_entity_id := property_entity_id p;
     property_id := property_id p;
     property_value := property_value p;
     is_primary := v;
     property_created_at := property_created_at p;
     property_updated_at := property_updated_at p |}.

(** The key template [`${prop.property_id}_${value.trim().toLowerCase()}`]. *)
Definition propKey (pid : Z) (value : string) : string :=
  pretty pid +:+ "_" +:+ toLowerCase (trim value).

(** [propMap.has(key)] *)
Definition propMap_has (key : string) (m : list (string * (Z * entity_property)))
  : bool :=
  existsb (String.eqb key) m.*1.

(** [existing = propMap.get(key); existing.is_primary = "Yes"] *)
Fixpoint propMap_set_primary (key : string)
    (m : list (string * (Z * entity_property)))
  : list (string * (Z * entity_property)) :=
  match m with
  | [] => []
  | (k, e) :: m' =>
      if String.eqb k key then (k, (e.1, with_is_primary (Some "Yes") e.2)) :: m'
      else (k, e) :: propMap_set_primary key m'
  end.

(** Body of [for (const prop of allProps)] (lines 435-451). *)
Definition propMap_step (kept_entity_id : Z)
    (m : list (string * (Z * entity_property))) (prop : Z * entity_property)
  : list (string * (Z * entity_property)) :=
  match property_value prop.2 with
  | None => m
  | Some value =>
      if truthy value then
        let key := propKey (property_id prop.2) value in
        if negb (propMap_has key m) then
          m ++ [(key, (prop.1, with_entity_id kept_entity_id prop.2))]
        else if bool_decide (is_primary prop.2 = Some "Yes") then
          propMap_set_primary key m
        else m
      else m
  end.

(** [allProps] (lines 422-428). *)
Definition allProps (keptRecord : PeopleRecord) (removedRecords : list PeopleRecord)
  : list (Z * entity_property) :=
  pr_properties keptRecord ++ concat (pr_properties <$> removedRecords).

(** [Array.from(propMap.values())] after the loop. *)
Definition mergedProperties (keptRecord : PeopleRecord)
    (removedRecords : list PeopleRecord) : list (Z * entity_property) :=
  (foldl (propMap_step (pr_entity_id keptRecord)) []
         (allProps keptRecord removedRecords)).*2.

Section analyze.
(** The resolution oracle ([None]: the call throws) and the address
    utility [mergeSimilarAddresses] are external. *)
Variable aiService_call : PeopleRecord → list PeopleRecord → option aiDecision.
Variable mergeSimilarAddresses :
  list (Z * address) → list (Z * address) → list (Z * address).

Definition personFullName (p : PeopleRecord) : string :=
  join_nonempty [normalized (people_first_name (pr_person p));
                 normalized (people_last_name (pr_person p))].

(** Lines 464-497: the proposal for a kept record and its removed
    siblings. *)
Definition buildProposal (decision : aiDecision) (keptRecord : PeopleRecord)
    (removedRecords : list PeopleRecord) : proposal :=
  let mergedAddresses :=
    mergeSimilarAddresses (pr_address keptRecord)
                          (concat (pr_address <$> removedRecords)) in
  let deleted_people_ids := pr_people_id <$> removedRecords in
  let deleted_entity_ids := pr_entity_id <$> removedRecords in
  let tables :=
    [("people", deleted_people_ids);
     ("entity", deleted_entity_ids);
     ("entity_property",
      concat ((λ r, (pr_properties r).*1) <$> removedRecords));
     ("address", deleted_entity_ids)] in
  {| prop_aiDecision := decision;
     mergedPerson :=
       {| pr_people_id := pr_people_id keptRecord;
          pr_person := pr_person keptRecord;
          pr_entity_id := pr_entity_id keptRecord;
          pr_entity := pr_entity keptRecord;
          pr_address := mergedAddresses;
          pr_properties := mergedProperties keptRecord removedRecords |};
     prop_deletionPlan :=
       {| retained_entity_id := pr_entity_id keptRecord;
          retained_people_id := pr_people_id keptRecord;
          deleted_people_ids := deleted_people_ids;
          deleted_entity_ids := deleted_entity_ids;
          tables_to_cleanup :=
            List.filter (λ kv, negb (length kv.2 =? 0)%nat) tables |} |}.

(** State of one pass: the [seen] set and the proposals pushed so far. *)
Definition pass_state : Type := gset Z * list proposal.

(** Body of [for (const item of group)] (lines 392-501); [None] when the
    oracle call throws. *)
Definition item_step (group : list PeopleRecord) (st : pass_state)
    (person : PeopleRecord) : option pass_state :=
  let '(seen, grouped) := st in
  if bool_decide (pr_people_id person ∈ seen) then Some st
  else
    let duplicates :=
      List.filter (λ p, bool_decide (pr_people_id p ≠ pr_people_id person)
                        && bool_decide (pr_people_id p ∉ seen)) group in
    if (length duplicates =? 0)%nat then Some st
    else
      decision ← aiService_call person duplicates;
      let keptRecord :=
        List.find (λ p, bool_decide (Some (pr_people_id p) = ai_keep decision))
                  (person :: duplicates) in
      let removedRecords :=
        List.filter (λ p, bool_decide (pr_people_id p ∈ ai_remove decision))
                    duplicates in
      match keptRecord with
      | None => Some st
      | Some keptRecord =>
          Some (list_to_set (pr_people_id <$> (removedRecords ++ [keptRecord]))
                  ∪ seen,
                grouped ++ [buildProposal decision keptRecord removedRecords])
      end.

Fixpoint foldM {A S} (f : S → A → option S) (st : S) (l : list A) : option S :=
  match l with
  | [] => Some st
  | x :: l' => st' ← f st x; foldM f st' l'
  end.

(** Body of [for (const [fullName, group] of nameGroups)]. *)
Definition group_pass (st : pass_state) (kg : string * list PeopleRecord)
  : option pass_state :=
  if (length kg.2 <? 2)%nat then Some st else foldM (item_step kg.2) st kg.2.

(** The list [grouped] of the response, from the fetched [people]. *)
Definition getPotentialDuplicatePeopleGroupsController (people : list PeopleRecord)
  : option (list proposal) :=
  let nameGroups := build_groups personFullName people in
  st ← foldM group_pass (∅, []) nameGroups;
  Some st.2.
End analyze.

(** ** Merge validator and executor
    (applyEntitiesDuplicateMerge.controller) *)

(** A date field of the JSON payload. *)
Inductive date_input :=
  | DateNull
  | DateEmptyObject
  | DateText (s : string).

Record person_payload := mk_person_payload {
  pp_people_id : Z;
  pp_first_name : option string;
  pp_last_name : option string;
  pp_date_of_birth : date_input;
  pp_created_at : date_input;
  pp_deleted_at : option Z
}.

Record address_payload := mk_address_payload {
  ap_address_id : Z;
  ap_line : string;
  ap_is_primary : string;
  ap_created_at : date_input;
  ap_deleted_at : option Z
}.

Record property_payload := mk_property_payload {
  ep_entity_property_id : Z;
  ep_property_id : Z;
  ep_property_value : option string;
  ep_is_primary : option string;
  ep_created_at : date_input
}.

(** [merged_entity] of the payload. A field that is not an array is
    [None]; [trade_name] distinguishes an absent field from [null]. *)
Record merged_entity_payload := mk_merged_entity {
  me_name : option string;
  me_trade_name : option (option string);
  me_people : option (list person_payload);
  me_address : option (list address_payload);
  me_properties : option (list property_payload)
}.

(** [req.body], typed [ApplyMergePayload] but not checked against the
    type: an absent [keep_entity_id] is [None], and so are a
    [remove_entity_ids] that is not an array and a [merged_entity] that is
    absent or [null]. *)
Record ApplyMergePayload := mk_payload {
  keep_entity_id : option Z;
  remove_entity_ids : option (list Z);
  merged_entity : option merged_entity_payload
}.

(** The names bound by the destructuring of lines 42-52 and 344-354. *)
Definition merged_name (payload : ApplyMergePayload) : option string :=
  match merged_entity payload with Some me => me_name me | None => None end.

Definition merged_trade_name (payload : ApplyMergePayload)
  : option (option string) :=
  match merged_entity payload with Some me => me_trade_name me | None => None end.

Definition merged_people (payload : ApplyMergePayload)
  : option (list person_payload) :=
  match merged_entity payload with Some me => me_people me | None => None end.

Definition merged_address (payload : ApplyMergePayload)
  : option (list address_payload) :=
  match merged_entity payload with Some me => me_address me | None => None end.

Definition merged_properties (payload : ApplyMergePayload)
  : option (list property_payload) :=
  match merged_entity payload with Some me => me_properties me | None => None end.

(** One audit file written by [writeFile] (lines 302-315). *)
Record audit_record := mk_audit {
  audit_action : string;
  audit_entity_type : string;
  audit_entity_id : Z;
  audit_old_value : string;
  audit_new_value : string;
  audit_note : string;
  audit_created_at : Z
}.

(** What a request can change: the database and the audit sink. *)
Record world := mk_world {
  w_db : database;
  w_logs : list audit_record
}.

(** What a request reads from outside: the clock, whether the audit file
    can be written, and whether the commit that ends the transaction goes
    through. *)
Record environment := mk_env {
  now : Z;
  log_ok : bool;
  commit_ok : bool
}.

(** An entity fetched with its people, addresses and properties
    (lines 90-100). *)
Record fetched_entity := mk_fetched {
  fe_entity_id : Z;
  fe_entity : entity;
  fe_people : list (Z * people);
  fe_address : list (Z * address);
  fe_properties : list (Z * entity_property)
}.

Record merge_success := mk_success {
  merged_entity_id : Z;
  deleted_entity_ids_out : list Z;
  applied : bool
}.

(** Failures inside the transaction: Prisma's P2025 on [update], a primary
    key clash on [create], a failed [writeFile], a failed commit. *)
Inductive tx_error :=
  | RecordNotFound (table : string) (id : Z)
  | UniqueViolation (table : string) (id : Z)
  | LogWriteFailed
  | CommitFailed.

(** What a merge handler throws. A [RouteError] carries its status (400
    for [BadRequest]); a [TypeError] and a Prisma request error carry none,
    and the error handler answers them with status 500. *)
Inductive merge_error :=
  | Refused (e : RouteError)
  | TypeError
  | PrismaError (code : string).

(** JS truthiness of a number. *)
Definition truthy_id (id : Z) : bool := negb (id =? 0).

Section sanitize.
(** [new Date(text).getTime()], [None] for NaN. *)
Variable parse_date : string → option Z.

(** sanitizeDate, lines 26-36. *)
Definition sanitizeDate (date : date_input) : option Z :=
  match date with
  | DateNull => None
  | DateEmptyObject => None
  | DateText s => if truthy s then parse_date s else None
  end.
End sanitize.

(** *** Table operations of the Prisma client *)

Definition table_update {R} (name : string) (id : Z) (f : R → R) (t : gmap Z R)
  : tx_error + gmap Z R :=
  match t !! id with
  | Some r => inr (<[id := f r]> t)
  | None => inl (RecordNotFound name id)
  end.

Definition table_create {R} (name : string) (id : Z) (r : R) (t : gmap Z R)
  : tx_error + gmap Z R :=
  match t !! id with
  | Some _ => inl (UniqueViolation name id)
  | None => inr (<[id := r]> t)
  end.

(** [updateMany({ where: { id: { in: ids } }, data })] *)
Definition table_updateMany {R} (ids : list Z) (f : R → R) (t : gmap Z R)
  : gmap Z R :=
  map_imap (λ k r, Some (if bool_decide (k ∈ ids) then f r else r)) t.

(** [deleteMany({ where: { id: { in: ids } } })] *)
Definition table_deleteMany_in {R} (ids : list Z) (t : gmap Z R) : gmap Z R :=
  filter (λ kr, kr.1 ∉ ids) t.

Definition set_entity (t : gmap Z entity) (db : database) : database :=
  {| db_entity := t; db_people := db_people db; db_address := db_address db;
     db_entity_property := db_entity_property db; seq_people := seq_people db;
     seq_address := seq_address db;
     seq_entity_property := seq_entity_property db |}.

Definition set_people (t : gmap Z people) (next : Z) (db : database) : database :=
  {| db_entity := db_entity db; db_people := t; db_address := db_address db;
     db_entity_property := db_entity_property db; seq_people := next;
     seq_address := seq_address db;
     seq_entity_property := seq_entity_property db |}.

Definition set_address (t : gmap Z address) (next : Z) (db : database) : database :=
  {| db_entity := db_entity db; db_people := db_people db; db_address := t;
     db_entity_property := db_entity_property db; seq_people := seq_people db;
     seq_address := next;
     seq_entity_property := seq_entity_property db |}.

Definition set_entity_property (t : gmap Z entity_property) (next : Z)
    (db : database) : database :=
  {| db_entity := db_entity db; db_people := db_people db;
     db_address := db_address db; db_entity_property := t;
     seq_people := seq_people db; seq_address := seq_address db;
     seq_entity_property := next |}.

(** Sequencing of transaction steps: the first failure aborts. *)
Definition tx_bind {E A B} (m : E + A) (k : A → E + B) : E + B :=
  match m with
  | inl e => inl e
  | inr a => k a
  end.

(** A statement of the transaction run in the state [db]: when it fails,
    the transaction aborts with the error and that state. *)
Definition tx_stmt {A} (db : database) (m : tx_error + A)
  : tx_error * database + A :=
  match m with
  | inl e => inl (e, db)
  | inr a => inr a
  end.

Notation "x ←tx m ; k" := (tx_bind m (λ x, k))
  (at level 20, m at level 100, k at level 200, right associativity,
   only parsing).

Fixpoint tx_for {E A S} (f : S → A → E + S) (st : S) (l : list A)
  : E + S :=
  match l with
  | [] => inr st
  | x :: l' => st' ←tx f st x; tx_for f st' l'
  end.

(** *** Validation (lines 54-119 and 356-421) *)

Definition include_people (eid : Z) (db : database) : list (Z * people) :=
  findMany (λ _ p, people_entity_id p =? eid) (db_people db).

Definition include_address (eid : Z) (db : database) : list (Z * address) :=
  findMany (λ _ a, address_entity_id a =? eid) (db_address db).

Definition include_properties (eid : Z) (db : database)
  : list (Z * entity_property) :=
  findMany (λ _ p, property_entity_id p =? eid) (db_entity_property db).

(** The rows matched by [entity.findMany({ where: { entity_id: { in: ids },
    is_deleted: false }, include: ... })]. *)
Definition fetch_entities (allEntityIds : list Z) (db : database)
  : list fetched_entity :=
  (λ ke, {| fe_entity_id := ke.1; fe_entity := ke.2;
            fe_people := include_people ke.1 db;
            fe_address := include_address ke.1 db;
            fe_properties := include_properties ke.1 db |})
  <$> findMany (λ id e, bool_decide (id ∈ allEntityIds)
                        && negb (entity_is_deleted e)) (db_entity db).

(** The id columns are 32-bit integers. *)
Definition in_int4 (id : Z) : bool :=
  (-2147483648 <=? id) && (id <=? 2147483647).

(** The query of line 90 (and 392), which is outside the [try]: Prisma
    refuses a query that names an id outside the range of the column
    (P2020); otherwise it returns the matching rows. *)
Definition entity_findMany (allEntityIds : list Z) (db : database)
  : merge_error + list fetched_entity :=
  if forallb in_int4 allEntityIds then inr (fetch_entities allEntityIds db)
  else inl (PrismaError "P2020").

(** [allEntityIds.filter((id) => !foundIds.includes(id))] *)
Definition missing_ids (allEntityIds : list Z) (entities : list fetched_entity)
  : list Z :=
  let foundIds := fe_entity_id <$> entities in
  List.filter (λ id, negb (bool_decide (id ∈ foundIds))) allEntityIds.

Definition invalid_ids_message (missing : list Z) : string :=
  "Invalid entity IDs: " +:+ String.concat ", " (pretty <$> missing)
  +:+ " not found or already deleted".

(** A request that passed every check, with the records fetched for it. *)
Record validated := mk_validated {
  v_keep : Z;
  v_remove : list Z;
  v_name : option string;
  v_trade_name : option (option string);
  v_people : list person_payload;
  v_address : list address_payload;
  v_properties : list property_payload;
  keptEntity : fetched_entity;
  removedEntities : list fetched_entity
}.

(** The checks of lines 54-119, on the names bound by the
    destructuring. *)
Definition validation (payload : ApplyMergePayload) (db : database)
  : merge_error + validated :=
  match keep_entity_id payload with
  | None => inl (Refused (BadRequest "Field 'keep_entity_id' is required"))
  | Some keep =>
  if negb (truthy_id keep) then
    inl (Refused (BadRequest "Field 'keep_entity_id' is required"))
  else
  match remove_entity_ids payload with
  | None =>
      inl (Refused (BadRequest "At least one entity must be in 'remove_entity_ids'"))
  | Some remove =>
  if (length remove =? 0)%nat then
    inl (Refused (BadRequest "At least one entity must be in 'remove_entity_ids'"))
  else if bool_decide (keep ∈ remove) then
    inl (Refused (BadRequest "'keep_entity_id' cannot be in 'remove_entity_ids'"))
  else
  match merged_people payload with
  | None =>
      inl (Refused (BadRequest
             "At least one person is required in 'merged_entity.people'"))
  | Some mergedPeople =>
  match merged_address payload with
  | None => inl (Refused (BadRequest "'merged_entity.address' must be an array"))
  | Some mergedAddresses =>
  match merged_properties payload with
  | None =>
      inl (Refused (BadRequest "'merged_entity.properties' must be an array"))
  | Some mergedProperties =>
  let allEntityIds := keep :: remove in
  match entity_findMany allEntityIds db with
  | inl e => inl e
  | inr entities =>
  if negb (length entities =? length allEntityIds)%nat then
    inl (Refused (BadRequest
           (invalid_ids_message (missing_ids allEntityIds entities))))
  else
  match List.find (λ e, fe_entity_id e =? keep) entities with
  | None => inl (Refused (BadRequest "Keep entity not found"))
  | Some kept =>
      inr {| v_keep := keep; v_remove := remove;
             v_name := merged_name payload;
             v_trade_name := merged_trade_name payload;
             v_people := mergedPeople; v_address := mergedAddresses;
             v_properties := mergedProperties;
             keptEntity := kept;
             removedEntities :=
               List.filter (λ e, bool_decide (fe_entity_id e ∈ remove)) entities |}
  end end end end end end end.

(** *** The transaction (lines 124-316 and 426-618) *)

Section transaction.
Variable parse_date : string → option Z.

(** Step 1: fields of the kept entity. *)
Definition update_kept (v : validated) (now : Z) (e : entity) : entity :=
  {| entity_name := match v_name v with
                    | Some n => Some n
                    | None => entity_name (fe_entity (keptEntity v))
                    end;
     entity_trade_name := default (entity_trade_name e) (v_trade_name v);
     entity_type := entity_type e;
     entity_is_deleted := entity_is_deleted e;
     entity_deleted_at := entity_deleted_at e;
     entity_updated_at := Some now |}.

(** Step 2, one person: update in place when the kept entity owns the id,
    create otherwise. A [create] draws its key from the sequence before it
    inserts, so the sequence has advanced also when the insert fails. *)
Definition upsert_person (v : validated) (now : Z) (db : database)
    (person : person_payload) : tx_error * database + database :=
  if truthy_id (pp_people_id person)
     && existsb (λ p, p.1 =? pp_people_id person) (fe_people (keptEntity v))
  then
    t ←tx tx_stmt db (table_update "people" (pp_people_id person)
            (λ _, {| people_entity_id := v_keep v;
                     people_first_name := pp_first_name person;
                     people_last_name := pp_last_name person;
                     people_date_of_birth :=
                       sanitizeDate parse_date (pp_date_of_birth person);
                     people_created_at :=
                       sanitizeDate parse_date (pp_created_at person);
                     people_updated_at := Some now;
                     people_deleted_at := pp_deleted_at person |})
            (db_people db));
    inr (set_people t (seq_people db) db)
  else
    t ←tx tx_stmt (set_people (db_people db) (seq_people db + 1) db)
          (table_create "people" (seq_people db)
            {| people_entity_id := v_keep v;
               people_first_name := pp_first_name person;
               people_last_name := pp_last_name person;
               people_date_of_birth :=
                 sanitizeDate parse_date (pp_date_of_birth person);
               people_created_at := Some now;
               people_updated_at := Some now;
               people_deleted_at := pp_deleted_at person |}
            (db_people db));
    inr (set_people t (seq_people db + 1) db).

Definition soft_delete_person (now : Z) (p : people) : people :=
  {| people_entity_id := people_entity_id p;
     people_first_name := people_first_name p;
     people_last_name := people_last_name p;
     people_date_of_birth := people_date_of_birth p;
     people_created_at := people_created_at p;
     people_updated_at := people_updated_at p;
     people_deleted_at := Some now |}.

(** Lines 167-177. *)
Definition delete_old_people (v : validated) (now : Z) (db : database)
  : database :=
  let peopleToDelete := (concat (fe_people <$> removedEntities v)).*1 in
  if (0 <? length peopleToDelete)%nat then
    set_people (table_updateMany peopleToDelete (soft_delete_person now)
                                 (db_people db))
               (seq_people db) db
  else db.

(** Step 3, one address. The update leaves [is_primary] as stored. *)
Definition upsert_address (v : validated) (now : Z) (db : database)
    (addr : address_payload) : tx_error * database + database :=
  let create :=
    t ←tx tx_stmt (set_address (db_address db) (seq_address db + 1) db)
          (table_create "address" (seq_address db)
            {| address_entity_id := v_keep v;
               address_line := ap_line addr;
               address_is_primary := ap_is_primary addr;
               address_created_at := Some now;
               address_updated_at := Some now;
               address_deleted_at := ap_deleted_at addr |}
            (db_address db));
    inr (set_address t (seq_address db + 1) db) in
  if truthy_id (ap_address_id addr) then
    match List.find (λ a, a.1 =? ap_address_id addr)
                    (fe_address (keptEntity v)) with
    | Some existing =>
        t ←tx tx_stmt db (table_update "address" (ap_address_id addr)
                (λ a, {| address_entity_id := v_keep v;
                         address_line := ap_line addr;
                         address_is_primary := address_is_primary a;
                         address_created_at :=
                           sanitizeDate parse_date (ap_created_at addr);
                         address_updated_at := Some now;
                         address_deleted_at := ap_deleted_at addr |})
                (db_address db));
        inr (set_address t (seq_address db) db)
    | None => create
    end
  else create.

Definition soft_delete_address (now : Z) (a : address) : address :=
  {| address_entity_id := address_entity_id a;
     address_line := address_line a;
     address_is_primary := address_is_primary a;
     address_created_at := address_created_at a;
     address_updated_at := address_updated_at a;
     address_deleted_at := Some now |}.

(** Lines 222-232. *)
Definition delete_old_addresses (v : validated) (now : Z) (db : database)
  : database :=
  let addressesToDelete := (concat (fe_address <$> removedEntities v)).*1 in
  if (0 <? length addressesToDelete)%nat then
    set_address (table_updateMany addressesToDelete (soft_delete_address now)
                                  (db_address db))
                (seq_address db) db
  else db.

(** Lines 234-239: [entity_property.deleteMany({ where: { entity_id } })]. *)
Definition delete_kept_properties (v : validated) (db : database) : database :=
  set_entity_property
    (filter (λ kr, property_entity_id kr.2 ≠ v_keep v) (db_entity_property db))
    (seq_entity_property db) db.

(** The row written by [entity_property.create] for a payload entry. *)
Definition created_property (keep now : Z) (prop : property_payload)
  : entity_property :=
  {| property_entity_id := keep;
     property_id := ep_property_id prop;
     property_value := ep_property_value prop;
     is_primary := ep_is_primary prop;
     property_created_at := Some now;
     property_updated_at := Some now |}.

(** The rows inserted for a list of payload entries, keyed by successive
    values of the sequence. *)
Fixpoint created_rows (keep now next : Z) (props : list property_payload)
  : list (Z * entity_property) :=
  match props with
  | [] => []
  | prop :: props' =>
      (next, created_property keep now prop)
      :: created_rows keep now (next + 1) props'
  end.

(** Step 4, one property (lines 242-280). *)
Definition upsert_property (v : validated) (now : Z) (db : database)
    (prop : property_payload) : tx_error * database + database :=
  let create :=
    t ←tx tx_stmt (set_entity_property (db_entity_property db)
                                       (seq_entity_property db + 1) db)
          (table_create "entity_property" (seq_entity_property db)
            (created_property (v_keep v) now prop) (db_entity_property db));
    inr (set_entity_property t (seq_entity_property db + 1) db) in
  if truthy_id (ep_entity_property_id prop) then
    match List.find (λ p, p.1 =? ep_entity_property_id prop)
                    (fe_properties (keptEntity v)) with
    | Some existing =>
        t ←tx tx_stmt db
              (table_update "entity_property" (ep_entity_property_id prop)
                (λ _, {| property_entity_id := v_keep v;
                         property_id := ep_property_id prop;
                         property_value := ep_property_value prop;
                         is_primary := ep_is_primary prop;
                         property_created_at :=
                           sanitizeDate parse_date (ep_created_at prop);
                         property_updated_at := Some now |})
                (db_entity_property db));
        inr (set_entity_property t (seq_entity_property db) db)
    | None => create
    end
  else create.

(** Lines 282-291. *)
Definition delete_old_properties (v : validated) (db : database) : database :=
  let propertiesToDelete := (concat (fe_properties <$> removedEntities v)).*1 in
  if (0 <? length propertiesToDelete)%nat then
    set_entity_property
      (table_deleteMany_in propertiesToDelete (db_entity_property db))
      (seq_entity_property db) db
  else db.

Definition soft_delete_entity (now : Z) (e : entity) : entity :=
  {| entity_name := entity_name e;
     entity_trade_name := entity_trade_name e;
     entity_type := entity_type e;
     entity_is_deleted := true;
     entity_deleted_at := Some now;
     entity_updated_at := entity_updated_at e |}.

(** Step 5 (lines 293-300). *)
Definition soft_delete_removed (v : validated) (now : Z) (db : database)
  : database :=
  set_entity (table_updateMany (v_remove v) (soft_delete_entity now)
                               (db_entity db)) db.

Definition merge_audit (v : validated) (now : Z) : audit_record :=
  {| audit_action := "ENTITY_MERGE";
     audit_entity_type := "entity";
     audit_entity_id := v_keep v;
     audit_old_value :=
       "Merged from " +:+ pretty (length (v_remove v)) +:+ " duplicates";
     audit_new_value :=
       "Merged entity updated with " +:+ pretty (length (v_people v))
       +:+ " people, " +:+ pretty (length (v_address v)) +:+ " addresses";
     audit_note := "Applied client-submitted merge plan";
     audit_created_at := now |}.

(** The database statements of the callback passed to [$transaction]
    (lines 125-300), in source order. A failure aborts with the state
    reached. *)
Definition statements (v : validated) (now : Z) (db : database)
  : tx_error * database + database :=
  t ←tx tx_stmt db (table_update "entity" (v_keep v) (update_kept v now)
                                 (db_entity db));
  let db := set_entity t db in
  db ←tx tx_for (upsert_person v now) db (v_people v);
  let db := delete_old_people v now db in
  db ←tx tx_for (upsert_address v now) db (v_address v);
  let db := delete_old_addresses v now db in
  let db := delete_kept_properties v db in
  db ←tx tx_for (upsert_property v now) db (v_properties v);
  let db := delete_old_properties v db in
  inr (soft_delete_removed v now db).

(** [$transaction(callback)]: the statements, then the audit file written
    by the callback's last statement (lines 302-315), then the commit.
    A success yields the new world; a failure yields the error and the
    state reached when it was raised, which [rollback] undoes. *)
Definition transaction (v : validated) (env : environment) (w : world)
  : tx_error * world + world :=
  match statements v (now env) (w_db w) with
  | inl (e, db) => inl (e, {| w_db := db; w_logs := w_logs w |})
  | inr db =>
      if log_ok env then
        let w' := {| w_db := db;
                     w_logs := w_logs w ++ [merge_audit v (now env)] |} in
        if commit_ok env then inr w' else inl (CommitFailed, w')
      else inl (LogWriteFailed, {| w_db := db; w_logs := w_logs w |})
  end.
End transaction.

(** What a rolled-back transaction leaves of the state [aborted] it had
    reached: the rows are those of [w] again; the sequences keep the
    values they were advanced to, and a file that was written stays
    written. *)
Definition rollback (w aborted : world) : world :=
  {| w_db := {| db_entity := db_entity (w_db w);
                db_people := db_people (w_db w);
                db_address := db_address (w_db w);
                db_entity_property := db_entity_property (w_db w);
                seq_people := seq_people (w_db aborted);
                seq_address := seq_address (w_db aborted);
                seq_entity_property := seq_entity_property (w_db aborted) |};
     w_logs := w_logs aborted |}.

(** *** The two controllers *)

Section controllers.
Variable parse_date : string → option Z.
(** [error.message] of a failure raised inside the transaction. *)
Variable error_message : tx_error → string.

(** POST /entities/resolve-duplicates (lines 38-338): the destructuring
    of lines 42-52 throws a [TypeError] when the body has no
    [merged_entity]; then the checks, then the transaction inside the
    [try]. *)
Definition applyEntitiesDuplicateMergeController
    (payload : ApplyMergePayload) (env : environment) (w : world)
  : (merge_error + merge_success) * world :=
  match merged_entity payload with
  | None => (inl TypeError, w)
  | Some _ =>
      match validation payload (w_db w) with
      | inl e => (inl e, w)
      | inr v =>
          match transaction parse_date v env w with
          | inr w' =>
              (inr {| merged_entity_id := v_keep v;
                      deleted_entity_ids_out := v_remove v;
                      applied := true |}, w')
          | inl (e, aborted) =>
              (inl (Refused (BadRequest
                      ("Failed to apply merge: " +:+ error_message e))),
               rollback w aborted)
          end
      end
  end.

(** POST /entities/resolve-duplicates/manual (lines 340-640). *)
Definition applyEntitiesDuplicateMergeManuallyController
    (payload : ApplyMergePayload) (env : environment) (w : world)
  : (merge_error + merge_success) * world :=
  match merged_entity payload with
  | None => (inl TypeError, w)
  | Some _ =>
      match validation payload (w_db w) with
      | inl e => (inl e, w)
      | inr v =>
          match transaction parse_date v env w with
          | inr w' =>
              (inr {| merged_entity_id := v_keep v;
                      deleted_entity_ids_out := v_remove v;
                      applied := true |}, w')
          | inl (e, aborted) =>
              (inl (Refused (BadRequest
                      ("Failed to apply merge: " +:+ error_message e))),
               rollback w aborted)
          end
      end
  end.
End controllers.

(** *** Vocabulary of the statements *)

(** An entity id is stored when it names a row that is not flagged
    deleted, and live when it also fits the id column, as every id the
    database hands out does. *)
Definition stored (db : database) (id : Z) : Prop :=
  ∃ e, db_entity db !! id = Some e ∧ entity_is_deleted e = false.

Definition live (db : database) (id : Z) : Prop :=
  in_int4 id = true ∧ stored db id.

(** The two databases hold the same rows in every table; their sequences
    may differ. *)
Definition same_rows (db db' : database) : Prop :=
  db_entity db' = db_entity db ∧ db_people db' = db_people db ∧
  db_address db' = db_address db ∧
  db_entity_property db' = db_entity_property db.

(** The error taxonomy is read off the throw site: the structural checks
    of lines 55-85 raise validation errors, the count check of lines
    102-109 raises the not-found error. *)
Definition validation_messages : list string :=
  ["Field 'keep_entity_id' is required";
   "At least one entity must be in 'remove_entity_ids'";
   "'keep_entity_id' cannot be in 'remove_entity_ids'";
   "At least one person is required in 'merged_entity.people'";
   "'merged_entity.address' must be an array";
   "'merged_entity.properties' must be an array"].

Definition ValidationError (e : RouteError) : Prop :=
  match e with BadRequest msg => msg ∈ validation_messages end.

Definition NotFoundError (e : RouteError) : Prop :=
  ∃ missing, e = BadRequest (invalid_ids_message missing).

(** The structural checks of lines 55-85 all pass. *)
Definition well_formed (payload : ApplyMergePayload) (keep : Z) (remove : list Z)
  : Prop :=
  keep_entity_id payload = Some keep ∧ keep ≠ 0 ∧
  remove_entity_ids payload = Some remove ∧ remove ≠ [] ∧ (keep ∉ remove) ∧
  is_Some (merged_people payload) ∧ is_Some (merged_address payload) ∧
  is_Some (merged_properties payload).

(** Keys of the property table lie below its sequence, as they do in a
    database whose keys all came from the sequence. *)
Definition sequence_ok (db : database) : Prop :=
  ∀ k, is_Some (db_entity_property db !! k) → k < seq_entity_property db.

(** The claim's key of a property: its type and its normalised value. *)
Definition property_key (p : entity_property) : Z * string :=
  (property_id p, toLowerCase (trim (or_empty (property_value p)))).

(** A property takes part in the merge when its value is truthy
    (line 436 skips the others). *)
Definition contributes (p : entity_property) : Prop :=
  ∃ v, property_value p = Some v ∧ v ≠ "".

(** ** Further vocabulary *)

(** [nameGroups.get(k)], the empty list when the key is absent. *)
Definition group_of {A} (k : string) (m : list (string * list A)) : list A :=
  match List.find (λ kg, String.eqb kg.1 k) m with
  | Some kg => kg.2
  | None => []
  end.

(** The records of a collection that compute the key [k]. *)
Definition with_key {A} (key : A → string) (k : string) (rows : list A) : list A :=
  List.filter (λ r, String.eqb (key r) k) rows.

(** The groups returned for page [p] with limit [l], the empty list when
    the request is refused. *)
Definition page_groups (parseInt : string → option Z)
    (zodErrorFmt : query_number → query_number → string)
    (type : string) (l : Z) (db : database) (p : Z) : list (string * nat) :=
  match getDuplicateEntitiesByNameWithTypeController parseInt zodErrorFmt
          {| param_type := type; query_page := QueryNum (inject_Z p);
             query_limit := QueryNum (inject_Z l) |} db with
  | inr resp => duplicateGroups resp
  | inl _ => []
  end.

(** The people a proposal names: the retained person and the people to
    delete. *)
Definition proposal_ids (pr : proposal) : list Z :=
  retained_people_id (prop_deletionPlan pr)
  :: deleted_people_ids (prop_deletionPlan pr).

(** No person id is named by two proposals of a list. *)
Definition proposals_disjoint (l : list proposal) : Prop :=
  ∀ i j pr1 pr2 id, (i < j)%nat → l !! i = Some pr1 → l !! j = Some pr2 →
    id ∈ proposal_ids pr1 → id ∉ proposal_ids pr2.

(** A proposal whose kept and removed records are input records with one
    and the same non-empty full name. *)
Definition proposal_same_name
    (mergeSimilarAddresses :
       list (Z * address) → list (Z * address) → list (Z * address))
    (people : list PeopleRecord) (pr : proposal) : Prop :=
  ∃ decision keptRecord removedRecords,
    keptRecord ∈ people ∧ (∀ r, r ∈ removedRecords → r ∈ people) ∧
    pr = buildProposal mergeSimilarAddresses decision keptRecord removedRecords ∧
    personFullName keptRecord ≠ "" ∧
    ∀ r, r ∈ removedRecords → personFullName r = personFullName keptRecord.

(** Invariant of one analyze pass. *)
Definition pass_ok
    (mergeSimilarAddresses :
       list (Z * address) → list (Z * address) → list (Z * address))
    (people : list PeopleRecord) (st : pass_state) : Prop :=
  Forall (proposal_same_name mergeSimilarAddresses people) st.2 ∧
  (∀ pr id, pr ∈ st.2 → id ∈ proposal_ids pr → id ∈ st.1) ∧
  proposals_disjoint st.2.

(** Every entry of the property map copies a contributing property seen
    before which no contributing property had the same key, is owned by
    the kept entity, and is primary only if a contributing property of
    its key is. *)
Definition entry_sound (kept_entity_id : Z) (seen : list (Z * entity_property))
    (e : Z * entity_property) : Prop :=
  property_entity_id e.2 = kept_entity_id ∧
  (∃ before p after,
     seen = before ++ p :: after ∧ contributes p.2 ∧
     e.1 = p.1 ∧ property_id e.2 = property_id p.2 ∧
     property_value e.2 = property_value p.2 ∧
     (is_primary p.2 = Some "Yes" → is_primary e.2 = Some "Yes") ∧
     ∀ q, q ∈ before → contributes q.2 → property_key q.2 ≠ property_key p.2) ∧
  (is_primary e.2 = Some "Yes" →
   ∃ q, q ∈ seen ∧ contributes q.2 ∧ property_key q.2 = property_key e.2 ∧
        is_primary q.2 = Some "Yes").

(** In each table the merge inserts into, the keys in use lie below the
    next value of the sequence. *)
Definition sequences_ok (db : database) : Prop :=
  (∀ k, is_Some (db_people db !! k) → k < seq_people db) ∧
  (∀ k, is_Some (db_address db !! k) → k < seq_address db) ∧
  (∀ k, is_Some (db_entity_property db !! k) → k < seq_entity_property db).

(** The audit record of a merge that keeps [keep], removes [remove] and
    supplies the given numbers of people and addresses. *)
Definition expected_audit (keep : Z) (removed people addresses : nat) (now : Z)
  : audit_record :=
  {| audit_action := "ENTITY_MERGE";
     audit_entity_type := "entity";
     audit_entity_id := keep;
     audit_old_value := "Merged from " +:+ pretty removed +:+ " duplicates";
     audit_new_value :=
       "Merged entity updated with " +:+ pretty people +:+ " people, "
       +:+ pretty addresses +:+ " addresses";
     audit_note := "Applied client-submitted merge plan";
     audit_created_at := now |}.

(** ** Query results and the big-integer middleware (config/db) *)

#[local] Set Warnings "-register-all".

(** A value returned by a query: the JS values the middleware tells
    apart. An object lists its own enumerable properties in enumeration
    order; a [Date] has none. *)
Inductive js_value :=
  | JsUndefined
  | JsNull
  | JsBool (b : bool)
  | JsNumber (n : Q)
  | JsString (s : string)
  | JsBigInt (z : Z)
  | JsDate (time : Z)
  | JsArray (items : list js_value)
  | JsObject (fields : list (string * js_value)).

(** convertBigIntToString, lines 7-23: a bigint becomes its decimal
    string, arrays and objects are rebuilt member by member, and any other
    object, such as a [Date], is rebuilt from its (no) own properties. *)
Fixpoint convertBigIntToString (obj : js_value) : js_value :=
  match obj with
  | JsBigInt z => JsString (pretty z)
  | JsArray items => JsArray (List.map convertBigIntToString items)
  | JsObject fields =>
      JsObject (List.map (λ kv, (fst kv, convertBigIntToString (snd kv))) fields)
  | JsDate _ => JsObject []
  | _ => obj
  end.

(** The [$use] hook, lines 25-30 and 32-37. *)
Definition bigint_middleware (result : js_value) : js_value :=
  match result with
  | JsNull => result
  | JsUndefined => result
  | _ => convertBigIntToString result
  end.

(** The value holds no bigint, at any depth. *)
Fixpoint bigint_free (obj : js_value) : Prop :=
  match obj with
  | JsBigInt _ => False
  | JsArray items => List.fold_right (λ x acc, bigint_free x ∧ acc) True items
  | JsObject fields =>
      List.fold_right (λ kv acc, bigint_free (snd kv) ∧ acc) True fields
  | _ => True
  end.

(** The value holds no [Date], at any depth. *)
Fixpoint date_free (obj : js_value) : Prop :=
  match obj with
  | JsDate _ => False
  | JsArray items => List.fold_right (λ x acc, date_free x ∧ acc) True items
  | JsObject fields =>
      List.fold_right (λ kv acc, date_free (snd kv) ∧ acc) True fields
  | _ => True
  end.

(** The shape of a value: kinds, array lengths and object keys, with every
    leaf forgotten. *)
Inductive js_shape :=
  | ShapeLeaf
  | ShapeArray (items : list js_shape)
  | ShapeObject (fields : list (string * js_shape)).

Fixpoint shape_of (obj : js_value) : js_shape :=
  match obj with
  | JsArray items => ShapeArray (List.map shape_of items)
  | JsObject fields =>
      ShapeObject (List.map (λ kv, (fst kv, shape_of (snd kv))) fields)
  | JsDate _ => ShapeObject []
  | _ => ShapeLeaf
  end.

(** ** Natural-language queries (naturalLanguageQuery.controller) *)

(** What a failed call throws: the two fields [extractDatabaseError]
    reads, each absent or a string. *)
Record js_error := {
  meta_message : option string;
  error_message : option string
}.

(** [s.split("\n")[0]] *)
Fixpoint first_line (s : string) : string :=
  match s with
  | EmptyString => EmptyString
  | String c rest =>
      if Ascii.eqb c "010"%char then EmptyString else String c (first_line rest)
  end.

(** extractDatabaseError, lines 16-20. *)
Definition extractDatabaseError (error : js_error) : string :=
  if truthy (or_empty (meta_message error)) then or_empty (meta_message error)
  else if truthy (or_empty (error_message error))
       then first_line (or_empty (error_message error))
       else "Unknown database error".

(** The answer of the routing service. *)
Record routing_decision := {
  target : string;
  markdownResponse : option string;
  reason : option string
}.

(** The answer of a planning service. *)
Record query_plan := {
  sql : string;
  allowsLimit : bool;
  successStatus : bool
}.

(** One entry of [errorFeedbackLog]. *)
Record feedback := {
  fb_sql : string;
  fb_error : string
}.

(** [Number(req.body.limit)] for a truthy [req.body.limit]. *)
Inductive js_number :=
  | NumNaN
  | NumNegInfinity
  | NumPosInfinity
  | NumFinite (q : Q).

(** [Math.min(x, 100)] *)
Definition min_100 (x : js_number) : js_number :=
  match x with
  | NumNaN => NumNaN
  | NumNegInfinity => NumNegInfinity
  | NumPosInfinity => NumFinite 100
  | NumFinite q => if Qle_bool q 100 then NumFinite q else NumFinite 100
  end.

(** The request body: [question] is [None] when absent or not a string,
    [limit] is [None] when [req.body.limit] is falsy. *)
Record nlq_request := {
  body_question : option string;
  body_limit : option js_number
}.

(** The argument of [generateSummary]. *)
Record summary_request {row : Type} := {
  sr_question : string;
  sr_sql : string;
  sr_results : list row;
  sr_errorFeedback : list feedback;
  sr_dataSource : string
}.
Arguments summary_request : clear implicits.

(** The body written by [APIResponseWriter]. *)
Record nlq_response := {
  statusCode : Z;
  success : bool;
  message : string;
  markdown : string
}.

(** What the handler throws: a [RouteError] of its own, or the error of a
    service call it does not catch. *)
Inductive thrown :=
  | Route (e : RouteError)
  | External (e : js_error).

(** The calls a request makes, in order. [Executed] carries the value of
    [attempts] at the call. *)
Inductive call {row : Type} :=
  | Routed (question : string)
  | Planned (entities : bool) (question : string)
            (errorFeedback : option (list feedback))
  | Executed (entities : bool) (attempts : nat) (sqlToRun : string)
  | Summarised (request : summary_request row).
Arguments call : clear implicits.

Definition is_executed {row} (c : call row) : bool :=
  match c with Executed _ _ _ => true | _ => false end.
Definition is_planned {row} (c : call row) : bool :=
  match c with Planned _ _ _ => true | _ => false end.
Definition is_summarised {row} (c : call row) : bool :=
  match c with Summarised _ => true | _ => false end.
Definition calls {row} (p : call row → bool) (trace : list (call row)) : nat :=
  length (List.filter p trace).

Definition MAX_CORRECTION_ATTEMPTS : nat := 2.

(** How the [while] loop of lines 92-161 ends. *)
Inductive loop_result :=
  | LoopReturn (response : nlq_response)
  | LoopThrow (e : js_error)
  | LoopBreak (finalSql : string) (errorFeedbackLog : list feedback).

Section natural_language_query.
Context {row : Type}.

(** The services and the database. [entities] tells the entities service
    and client from the DMS ones; the database is read at a moment, here
    the value of [attempts], and may answer the same SQL differently at
    another. [replace_limit sql n] is
    [sql.replace(/\bLIMIT \?/i, `LIMIT ${n}`)]. *)
Variable routeQuestion : string → js_error + routing_decision.
Variable generateQueryPlan :
  bool → string → option (list feedback) → js_error + query_plan.
Variable queryRawUnsafe : bool → nat → string → js_error + option (list row).
Variable generateSummary : summary_request row → js_error + string.
Variable replace_limit : string → js_number → string.

(** Lines 95-99. *)
Definition sql_to_run (req : nlq_request) (queryPlan : query_plan)
    (finalSql : string) : string :=
  if allowsLimit queryPlan then
    match body_limit req with
    | Some n => replace_limit finalSql (min_100 n)
    | None => finalSql
    end
  else finalSql.

(** The [try] block, lines 93-130: the summary, or what was thrown, with
    the calls made. *)
Definition try_block (entities : bool) (cleanedQuestion dataSource : string)
    (req : nlq_request) (queryPlan : query_plan) (finalSql : string)
    (attempts : nat) (errorFeedbackLog : list feedback)
    : (js_error + string) * list (call row) :=
  let sqlToRun := sql_to_run req queryPlan finalSql in
  match queryRawUnsafe entities attempts sqlToRun with
  | inl error => (inl error, [Executed entities attempts sqlToRun])
  | inr rawResults =>
      let results := default [] rawResults in
      let request := {| sr_question := cleanedQuestion; sr_sql := sqlToRun;
                        sr_results := results;
                        sr_errorFeedback := errorFeedbackLog;
                        sr_dataSource := dataSource |} in
      (generateSummary request,
       [Executed entities attempts sqlToRun; Summarised request])
  end.

(** The loop, lines 92-161. [None]: out of fuel. *)
Fixpoint query_loop (fuel : nat) (entities : bool)
    (cleanedQuestion dataSource : string) (req : nlq_request)
    (queryPlan : query_plan) (finalSql : string) (attempts : nat)
    (errorFeedbackLog : list feedback)
    : option (loop_result * list (call row)) :=
  if negb (attempts <=? MAX_CORRECTION_ATTEMPTS)%nat
  then Some (LoopBreak finalSql errorFeedbackLog, [])
  else
    match fuel with
    | O => None
    | S fuel =>
        match try_block entities cleanedQuestion dataSource req queryPlan
                finalSql attempts errorFeedbackLog with
        | (inr markdownSummary, made) =>
            Some (LoopReturn {| statusCode := 200; success := true;
                                message := "Query executed successfully";
                                markdown := markdownSummary |}, made)
        | (inl error, made) =>
            let dbError := extractDatabaseError error in
            let errorFeedbackLog :=
              errorFeedbackLog ++ [{| fb_sql := finalSql; fb_error := dbError |}] in
            if (attempts =? MAX_CORRECTION_ATTEMPTS)%nat
            then Some (LoopBreak finalSql errorFeedbackLog, made)
            else
              let made :=
                made ++ [Planned entities cleanedQuestion (Some errorFeedbackLog)] in
              match generateQueryPlan entities cleanedQuestion
                      (Some errorFeedbackLog) with
              | inl e => Some (LoopThrow e, made)
              | inr correctedPlan =>
                  if negb (successStatus correctedPlan)
                  then Some (LoopBreak (sql correctedPlan) errorFeedbackLog, made)
                  else
                    match query_loop fuel entities cleanedQuestion dataSource
                            req correctedPlan (sql correctedPlan) (S attempts)
                            errorFeedbackLog with
                    | Some (r, later) => Some (r, made ++ later)
                    | None => None
                    end
              end
        end
    end.

(** Lines 36-40: the trimmed question, if there is one. *)
Definition cleaned_question (req : nlq_request) : option string :=
  match body_question req with
  | Some question =>
      if truthy question && truthy (trim question) then Some (trim question)
      else None
  | None => None
  end.

(** After the loop, lines 163-181. *)
Definition fallback (cleanedQuestion dataSource finalSql : string)
    (errorFeedbackLog : list feedback)
    : (thrown + nlq_response) * list (call row) :=
  let request := {| sr_question := cleanedQuestion; sr_sql := finalSql;
                    sr_results := [];
                    sr_errorFeedback := errorFeedbackLog;
                    sr_dataSource := dataSource |} in
  (match generateSummary request with
   | inl e => inl (External e)
   | inr fallbackMarkdown =>
       inr {| statusCode := 400; success := false;
              message := "Failed to execute query after multiple attempts.";
              markdown := fallbackMarkdown |}
   end, [Summarised request]).

(** naturalLanguageQueryController, lines 31-183: what the handler throws
    or answers, with the calls it made. [None]: out of fuel. *)
Definition naturalLanguageQueryController (fuel : nat) (req : nlq_request)
    : option ((thrown + nlq_response) * list (call row)) :=
  match cleaned_question req with
  | None =>
      Some (inl (Route (BadRequest "A valid 'question' string is required")), [])
  | Some cleanedQuestion =>
      match routeQuestion cleanedQuestion with
      | inl e => Some (inl (External e), [Routed cleanedQuestion])
      | inr routingDecision =>
          if String.eqb (target routingDecision) "general"
             && truthy (or_empty (markdownResponse routingDecision))
          then Some (inr {| statusCode := 200; success := true;
                            message := "General question answered";
                            markdown := or_empty (markdownResponse routingDecision) |},
                     [Routed cleanedQuestion])
          else if String.eqb (target routingDecision) "general"
          then Some (inl (Route (BadRequest
                 "General question detected but no response generated.")),
                     [Routed cleanedQuestion])
          else if String.eqb (target routingDecision) "unknown"
          then Some (inl (Route (BadRequest
                 (if truthy (or_empty (reason routingDecision))
                  then or_empty (reason routingDecision)
                  else "Cannot determine which system contains this data. Please clarify your question."))),
                     [Routed cleanedQuestion])
          else
            let entities := String.eqb (target routingDecision) "entities" in
            let made := [Routed cleanedQuestion;
                         Planned entities cleanedQuestion None] in
            match generateQueryPlan entities cleanedQuestion None with
            | inl e => Some (inl (External e), made)
            | inr queryPlan =>
                match query_loop fuel entities cleanedQuestion
                        (target routingDecision) req queryPlan (sql queryPlan)
                        0 [] with
                | None => None
                | Some (LoopReturn response, later) =>
                    Some (inr response, made ++ later)
                | Some (LoopThrow e, later) =>
                    Some (inl (External e), made ++ later)
                | Some (LoopBreak finalSql errorFeedbackLog, later) =>
                    let '(r, last) :=
                      fallback cleanedQuestion (target routingDecision)
                        finalSql errorFeedbackLog in
                    Some (r, made ++ later ++ last)
                end
            end
      end
  end.

End natural_language_query.

(** A limit after [Math.min(_, 100)]: never above 100. *)
Definition capped (n : js_number) : Prop :=
  match n with
  | NumFinite q => Qle q 100
  | NumPosInfinity => False
  | _ => True
  end.

(** The string has no line feed. *)
Fixpoint single_line (s : string) : Prop :=
  match s with
  | EmptyString => True
  | String c rest => c ≠ "010"%char ∧ single_line rest
  end.

(** ** Invariants used in the proofs *)

(** Every group is filed under a non-empty key that all its members
    compute, and no group is empty. *)
Definition groups_ok {A} (key : A → string) (m : list (string * list A)) : Prop :=
  ∀ k g, (k, g) ∈ m → k ≠ "" ∧ g ≠ [] ∧ ∀ x, x ∈ g → key x = k.

(** The key template separates the property type from the value by the
    first underscore: decimal numerals contain none. *)
Fixpoint char_free (c : ascii) (s : string) : Prop :=
  match s with
  | EmptyString => True
  | String a s' => a ≠ c ∧ char_free c s'
  end.

(** An entry sits under the key computed from its own type and value. *)
Definition entry_key_ok (k : string) (e : Z * entity_property) : Prop :=
  ∃ v, property_value e.2 = Some v ∧ v ≠ "" ∧ k = propKey (property_id e.2) v.

Definition propMap_ok (m : list (string * (Z * entity_property))) : Prop :=
  NoDup m.*1 ∧ ∀ k e, (k, e) ∈ m → entry_key_ok k e.

(** The map accounts for the property [p]: when [p] has a truthy value its
    key is present, and the entry is primary when [p] is. *)
Definition covers (m : list (string * (Z * entity_property)))
    (p : Z * entity_property) : Prop :=
  ∀ v, property_value p.2 = Some v → v ≠ "" →
    ∃ e, (propKey (property_id p.2) v, e) ∈ m ∧
         (is_primary p.2 = Some "Yes" → is_primary e.2 = Some "Yes").

(** A proposal built from a kept record and removed records of the input. *)
Definition proposal_from_input
    (mergeSimilarAddresses :
       list (Z * address) → list (Z * address) → list (Z * address))
    (people : list PeopleRecord) (pr : proposal) : Prop :=
  ∃ decision keptRecord removedRecords,
    keptRecord ∈ people ∧ (∀ r, r ∈ removedRecords → r ∈ people) ∧
    pr = buildProposal mergeSimilarAddresses decision keptRecord removedRecords.

(** The ids of the properties fetched with the kept entity. *)
Definition kept_property_ids (v : validated) : list Z :=
  (fe_properties (keptEntity v)).*1.

(** Before each turn of the property loop: keys are below the sequence and
    no row carries an id of the kept entity's fetched properties. *)
Definition replace_ready (v : validated) (s : database) : Prop :=
  (∀ k, is_Some (db_entity_property s !! k) → k < seq_entity_property s) ∧
  (∀ k, k ∈ kept_property_ids v →
        db_entity_property s !! k = None ∧ k < seq_entity_property s).

(** ** Sample data for the worked examples *)

(** Three pairs of same-named entities of type 2. *)
Definition three_pairs_db : database :=
  {| db_entity :=
       list_to_map [(1, mk_entity (Some "Acme") None 2 false None None);
                    (2, mk_entity (Some "Acme") None 2 false None None);
                    (3, mk_entity (Some "Bolt") None 2 false None None);
                    (4, mk_entity (Some "Bolt") None 2 false None None);
                    (5, mk_entity (Some "Core") None 2 false None None);
                    (6, mk_entity (Some "Core") None 2 false None None)];
     db_people := ∅; db_address := ∅; db_entity_property := ∅;
     seq_people := 1; seq_address := 1; seq_entity_property := 1 |}.

Definition no_dates : string → option Z := λ _, None.

(** An oracle that keeps the primary record and removes every duplicate. *)
Definition keep_primary (primary : PeopleRecord) (duplicates : list PeopleRecord)
  : option aiDecision :=
  Some {| ai_keep := Some (pr_people_id primary);
          ai_remove := pr_people_id <$> duplicates |}.

Definition append_addresses (kept removed : list (Z * address))
  : list (Z * address) := kept ++ removed.

Definition plain_entity (name : string) : entity :=
  {| entity_name := Some name; entity_trade_name := None; entity_type := 2;
     entity_is_deleted := false; entity_deleted_at := None;
     entity_updated_at := None |}.

Definition plain_person (eid : Z) (first last : string) : people :=
  {| people_entity_id := eid; people_first_name := Some first;
     people_last_name := Some last; people_date_of_birth := None;
     people_created_at := None; people_updated_at := None;
     people_deleted_at := None |}.

Definition plain_property (eid pid : Z) (value primary : string)
  : entity_property :=
  {| property_entity_id := eid; property_id := pid;
     property_value := Some value; is_primary := Some primary;
     property_created_at := None; property_updated_at := None |}.

(** Two people named John Doe, whose entities carry the same e-mail
    property up to case and spacing; only the second copy is primary. *)
Definition two_johns : list PeopleRecord :=
  [ {| pr_people_id := 1; pr_person := plain_person 10 "John" "Doe";
       pr_entity_id := 10; pr_entity := plain_entity "John Doe";
       pr_address := [];
       pr_properties := [(100, plain_property 10 7 "J@X.org" "No")] |};
    {| pr_people_id := 2; pr_person := plain_person 20 " john" "DOE ";
       pr_entity_id := 20; pr_entity := plain_entity "John Doe";
       pr_address := [];
       pr_properties := [(200, plain_property 20 7 " j@x.org" "Yes");
                         (201, plain_property 20 8 "555" "No")] |} ].

Definition sample_env : environment :=
  {| now := 1000; log_ok := true; commit_ok := true |}.

(** The environment in which the commit fails after the audit file was
    written. *)
Definition failing_commit_env : environment :=
  {| now := 1000; log_ok := true; commit_ok := false |}.

Definition empty_database : database :=
  {| db_entity := ∅; db_people := ∅; db_address := ∅; db_entity_property := ∅;
     seq_people := 1; seq_address := 1; seq_entity_property := 1 |}.

Definition self_merge_payload : ApplyMergePayload :=
  {| keep_entity_id := Some 7; remove_entity_ids := Some [7];
     merged_entity :=
       Some {| me_name := None; me_trade_name := None;
               me_people := Some []; me_address := Some [];
               me_properties := Some [] |} |}.


Definition one_entity_db : database :=
  {| db_entity := {[ 1 := plain_entity "Acme" ]};
     db_people := ∅; db_address := ∅; db_entity_property := ∅;
     seq_people := 1; seq_address := 1; seq_entity_property := 1 |}.

Definition missing_remove_payload : ApplyMergePayload :=
  {| keep_entity_id := Some 1; remove_entity_ids := Some [99];
     merged_entity :=
       Some {| me_name := None; me_trade_name := None;
               me_people := Some []; me_address := Some [];
               me_properties := Some [] |} |}.

(** A removed id one above the largest value of the id column. *)
Definition out_of_range_payload : ApplyMergePayload :=
  {| keep_entity_id := Some 1; remove_entity_ids := Some [2147483648];
     merged_entity :=
       Some {| me_name := None; me_trade_name := None;
               me_people := Some []; me_address := Some [];
               me_properties := Some [] |} |}.

Definition repeated_remove_payload : ApplyMergePayload :=
  {| keep_entity_id := Some 1; remove_entity_ids := Some [2; 2];
     merged_entity :=
       Some {| me_name := None; me_trade_name := None;
               me_people := Some []; me_address := Some [];
               me_properties := Some [] |} |}.

Definition plain_address (eid : Z) (line : string) : address :=
  {| address_entity_id := eid; address_line := line; address_is_primary := "Yes";
     address_created_at := None; address_updated_at := None;
     address_deleted_at := None |}.

(** Entities 1 and 2 with one person, one address and one property each. *)
Definition merge_db : database :=
  {| db_entity := list_to_map [(1, plain_entity "Acme"); (2, plain_entity "Acme")];
     db_people := list_to_map [(10, plain_person 1 "Ann" "Lee");
                               (20, plain_person 2 "Ann" "Lee")];
     db_address := list_to_map [(30, plain_address 1 "1 Main St");
                                (40, plain_address 2 "1 Main Street")];
     db_entity_property :=
       list_to_map [(5, plain_property 1 7 "a@x.org" "No");
                    (6, plain_property 2 7 "b@x.org" "Yes")];
     seq_people := 21; seq_address := 41; seq_entity_property := 7 |}.

Definition merge_world : world := {| w_db := merge_db; w_logs := [] |}.

(** Keep entity 1, remove entity 2: person 10 is updated in place, one
    address is new, and the property list names the removed entity's
    property 6 and a new one. *)
Definition merge_payload : ApplyMergePayload :=
  {| keep_entity_id := Some 1; remove_entity_ids := Some [2];
     merged_entity :=
       Some {| me_name := Some "Acme Ltd"; me_trade_name := None;
               me_people :=
                 Some [ {| pp_people_id := 10; pp_first_name := Some "Ann";
                           pp_last_name := Some "Lee"; pp_date_of_birth := DateNull;
                           pp_created_at := DateNull; pp_deleted_at := None |} ];
               me_address :=
                 Some [ {| ap_address_id := 0; ap_line := "2 Side St";
                           ap_is_primary := "No"; ap_created_at := DateNull;
                           ap_deleted_at := None |} ];
               me_properties :=
                 Some [ {| ep_entity_property_id := 6; ep_property_id := 7;
                           ep_property_value := Some "b@x.org";
                           ep_is_primary := Some "Yes"; ep_created_at := DateNull |};
                        {| ep_entity_property_id := 0; ep_property_id := 8;
                           ep_property_value := Some "555";
                           ep_is_primary := Some "No"; ep_created_at := DateNull |} ]
            |} |}.

(** The same merge, but the property list names property 5, which the
    kept entity already owns. *)
Definition merge_payload_own_property : ApplyMergePayload :=
  {| keep_entity_id := Some 1; remove_entity_ids := Some [2];
     merged_entity :=
       Some {| me_name := None; me_trade_name := None;
               me_people := Some []; me_address := Some [];
               me_properties :=
                 Some [ {| ep_entity_property_id := 5; ep_property_id := 7;
                           ep_property_value := Some "a@x.org";
                           ep_is_primary := Some "Yes"; ep_created_at := DateNull |} ]
            |} |}.

(** Two entities of type 2 whose name is a single space. *)
Definition blank_names_db : database :=
  {| db_entity := list_to_map [(1, plain_entity " "); (2, plain_entity " ")];
     db_people := ∅; db_address := ∅; db_entity_property := ∅;
     seq_people := 1; seq_address := 1; seq_entity_property := 1 |}.

(** Two people whose names differ only in case and spacing. *)
Definition johns_db : database :=
  {| db_entity := list_to_map [(10, plain_entity "John Doe");
                               (20, plain_entity "John Doe")];
     db_people := list_to_map [(1, plain_person 10 "John" "Doe");
                               (2, plain_person 20 " john" "DOE ")];
     db_address := ∅; db_entity_property := ∅;
     seq_people := 3; seq_address := 1; seq_entity_property := 1 |}.

Definition person_record (pid eid : Z) (first last : string) : PeopleRecord :=
  {| pr_people_id := pid; pr_person := plain_person eid first last;
     pr_entity_id := eid; pr_entity := plain_entity (first +:+ " " +:+ last);
     pr_address := []; pr_properties := [] |}.

(** Two name groups of two people each. *)
Definition four_people : list PeopleRecord :=
  [person_record 1 10 "John" "Doe"; person_record 3 30 "Mary" "Roe";
   person_record 2 20 "john" "doe"; person_record 4 40 "MARY" "ROE"].

(** [merge_db] with a third entity that takes no part in the merge, and a
    person, an address and a property of that entity. *)
Definition busy_db : database :=
  {| db_entity := <[3 := plain_entity "Zeta"]> (db_entity merge_db);
     db_people := <[25 := plain_person 3 "Zoe" "Zed"]> (db_people merge_db);
     db_address := <[45 := plain_address 3 "9 Far Rd"]> (db_address merge_db);
     db_entity_property :=
       <[8 := plain_property 3 7 "z@x.org" "Yes"]> (db_entity_property merge_db);
     seq_people := 26; seq_address := 46; seq_entity_property := 9 |}.

Definition busy_world : world := {| w_db := busy_db; w_logs := [] |}.

(** The world after the sample merge is applied to [busy_world]. *)
Definition busy_world_after : world :=
  (applyEntitiesDuplicateMergeController no_dates (λ _, "")
     merge_payload sample_env busy_world).2.

Definition sample_success : merge_success :=
  {| merged_entity_id := 1; deleted_entity_ids_out := [2]; applied := true |}.

(** Services for a sample run: every question is routed to the entities
    database, every plan allows a limit, and the database rejects the SQL
    while [attempts] is below [failures]. *)
Definition route_to_entities (question : string) : js_error + routing_decision :=
  inr {| target := "entities"; markdownResponse := None; reason := None |}.

Definition plan_with_limit (entities : bool) (question : string)
    (errorFeedback : option (list feedback)) : js_error + query_plan :=
  inr {| sql := "SELECT id FROM entity LIMIT ?"; allowsLimit := true;
         successStatus := true |}.

Definition syntax_error : js_error :=
  {| meta_message := None;
     error_message := Some (String.append "syntax error at or near FROM"
                                         (String "010" "at line 1")) |}.

Definition failing_database (failures : nat) (entities : bool) (attempts : nat)
    (sqlToRun : string) : js_error + option (list Z) :=
  if (attempts <? failures)%nat then inl syntax_error else inr (Some [7; 8]).

Definition summary_of_count (request : summary_request Z) : js_error + string :=
  inr (pretty (Z.of_nat (length (sr_results request)))).

Definition limit_100 (sqlToRun : string) (n : js_number) : string :=
  match n with NumFinite 100 => "SELECT id FROM entity LIMIT 100" | _ => sqlToRun end.

Definition sample_question : nlq_request :=
  {| body_question := Some "  how many entities?  ";
     body_limit := Some (NumFinite 500) |}.

(** The sample request against a database that rejects the first
    execution, and against one that rejects every execution. *)
Definition sample_run : option ((thrown + nlq_response) * list (call Z)) :=
  Eval vm_compute in
    naturalLanguageQueryController route_to_entities plan_with_limit
      (failing_database 1) summary_of_count limit_100 3 sample_question.

Definition sample_answer : nlq_response :=
  Eval vm_compute in
    match sample_run with
    | Some (inr r, _) => r
    | _ => {| statusCode := 0; success := false; message := ""; markdown := "" |}
    end.

Definition sample_trace : list (call Z) :=
  Eval vm_compute in match sample_run with Some (_, t) => t | None => [] end.

Definition failed_run : option ((thrown + nlq_response) * list (call Z)) :=
  Eval vm_compute in
    naturalLanguageQueryController route_to_entities plan_with_limit
      (failing_database 3) summary_of_count limit_100 3 sample_question.

Definition failed_answer : nlq_response :=
  Eval vm_compute in
    match failed_run with
    | Some (inr r, _) => r
    | _ => {| statusCode := 0; success := false; message := ""; markdown := "" |}
    end.

Definition failed_trace : list (call Z) :=
  Eval vm_compute in match failed_run with Some (_, t) => t | None => [] end.

(** * Properties *)

(** ** Strings *)

Lemma truthy_true (s : string) : truthy s = true ↔ s ≠ "".
Proof. destruct s; simpl; split; intros; congruence. Qed.

Lemma truthy_false (s : string) : truthy s = false ↔ s = "".
Proof. destruct s; simpl; split; intros; congruence. Qed.

Lemma string_eqb_true (a b : string) : String.eqb a b = true ↔ a = b.
Proof. apply String.eqb_eq. Qed.

Lemma string_eqb_false (a b : string) : String.eqb a b = false ↔ a ≠ b.
Proof. apply String.eqb_neq. Qed.

(** ** The grouping loop *)

Section grouping.
Context {A : Type} (key : A → string).

Lemma push_group_elem k x m k' g' :
  (k', g') ∈ push_group k x m →
  (k' = k ∧ g' = [x]) ∨
  (∃ g : list A, (k', g) ∈ m ∧ (g' = g ∨ (k' = k ∧ g' = g ++ [x]))).
Proof.
  induction m as [|[k0 g0] m IH]; simpl.
  - intros H%list_elem_of_singleton. injection H as -> ->. by left.
  - destruct (String.eqb k0 k) eqn:E.
    + apply string_eqb_true in E as ->.
      intros [Heq|Hin]%elem_of_cons.
      * injection Heq as -> ->. right. exists g0. split; [left|]; auto.
      * right. exists g'. split; [by right|by left].
    + intros [Heq|Hin]%elem_of_cons.
      * injection Heq as -> ->. right. exists g0. split; [left|]; auto.
      * destruct (IH Hin) as [?|(g & Hg & Hc)]; [by left|].
        right. exists g. split; [by right|done].
Qed.

Lemma push_group_ok k x m :
  k ≠ "" → key x = k → groups_ok key m → groups_ok key (push_group k x m).
Proof.
  intros Hk Hx Hm k' g' [[-> ->]|(g & Hg & Hc)]%push_group_elem.
  - split_and!; [done..|]. by intros y ->%list_elem_of_singleton.
  - destruct (Hm _ _ Hg) as (Hk' & Hne & Hall).
    destruct Hc as [->|[-> ->]]; [done|].
    split_and!; [done|by destruct g|].
    intros y [Hy| ->%list_elem_of_singleton]%elem_of_app; auto.
Qed.

Lemma group_step_ok m r : groups_ok key m → groups_ok key (group_step key m r).
Proof.
  intros Hm. unfold group_step. destruct (truthy (key r)) eqn:E; [|done].
  apply push_group_ok; [by apply truthy_true|done..].
Qed.

Lemma foldl_group_step_ok rows m :
  groups_ok key m → groups_ok key (foldl (group_step key) m rows).
Proof.
  revert m. induction rows as [|r rows IH]; intros m Hm; simpl; [done|].
  by apply IH, group_step_ok.
Qed.

Lemma build_groups_ok rows : groups_ok key (build_groups key rows).
Proof. apply foldl_group_step_ok. intros k g Hin. by apply elem_of_nil in Hin. Qed.

Lemma duplicate_entries_elem (m : list (string * list A)) k g :
  (k, g) ∈ duplicate_entries m ↔ (k, g) ∈ m ∧ (2 ≤ length g)%nat.
Proof.
  unfold duplicate_entries. rewrite !list_elem_of_In, filter_In.
  cbn [snd]. by rewrite Nat.leb_le.
Qed.

(** What the loop that keeps the groups of two or more emits. *)
Lemma duplicate_entries_sound rows k g :
  (k, g) ∈ duplicate_entries (build_groups key rows) →
  (2 ≤ length g)%nat ∧ k ≠ "" ∧ ∀ x, x ∈ g → key x = k.
Proof.
  intros [Hin Hlen]%duplicate_entries_elem.
  destruct (build_groups_ok rows _ _ Hin) as (? & _ & ?). done.
Qed.
(** Groups only hold records of the input. *)
Lemma foldl_group_step_members rows m (seen : list A) :
  (∀ k g x, (k, g) ∈ m → x ∈ g → x ∈ seen) →
  ∀ k g x, (k, g) ∈ foldl (group_step key) m rows → x ∈ g → x ∈ seen ++ rows.
Proof.
  revert m seen. induction rows as [|r rows IH]; intros m seen Hm; simpl.
  - intros k g x Hin Hx. rewrite app_nil_r. eauto.
  - intros k g x Hin Hx. rewrite (assoc_L _ seen [r] rows : seen ++ r :: rows = (seen ++ [r]) ++ rows).
    eapply (IH (group_step key m r) (seen ++ [r])); [|done..].
    clear k g x Hin Hx. intros k g x Hin Hx. unfold group_step in Hin.
    destruct (truthy (key r)); [|apply elem_of_app; left; eauto].
    apply push_group_elem in Hin as [[-> ->]|(g0 & Hg0 & [->|[-> ->]])].
    + apply elem_of_app. by right.
    + apply elem_of_app. left. eauto.
    + apply elem_of_app in Hx as [Hx|Hx]; apply elem_of_app; [left; eauto|by right].
Qed.

Lemma build_groups_members rows k g x :
  (k, g) ∈ build_groups key rows → x ∈ g → x ∈ rows.
Proof.
  intros Hin Hx.
  apply (foldl_group_step_members rows [] [] (λ k g x H, False_ind _ (proj1 (elem_of_nil _) H)) k g x Hin Hx).
Qed.
End grouping.

(** ** Candidate grouper *)

Lemma join_nonempty_pair (f l : string) :
  join_nonempty [f; l] =
  if truthy f then (if truthy l then f +:+ " " +:+ l else f) else l.
Proof. by destruct f, l. Qed.

Example trim_and_lower_case :
  trim "  Ann  Lee " = "Ann  Lee" ∧ toLowerCase "AnN-Lee 9" = "ann-lee 9" ∧
  normalized None = "" ∧ normalized (Some "   ") = "".
Proof. vm_compute. done. Qed.

(** Two type-2 entities named "Acme" are reported as the duplicate name
    "Acme", as stored. *)
Example duplicate_name_scenario :
  getDuplicateEntitiesByFullNameController
    {| db_entity := list_to_map [(1, plain_entity "Acme"); (2, plain_entity "Acme")];
       db_people := ∅; db_address := ∅; db_entity_property := ∅;
       seq_people := 1; seq_address := 1; seq_entity_property := 1 |}
  = ["Acme"].
Proof. vm_compute. reflexivity. Qed.

(** The entity groupers file "Acme" and "acme" under different keys. *)
Example entity_names_are_not_folded :
  getDuplicateEntitiesByFullNameController
    {| db_entity := list_to_map [(1, plain_entity "Acme"); (2, plain_entity "acme")];
       db_people := ∅; db_address := ∅; db_entity_property := ∅;
       seq_people := 1; seq_address := 1; seq_entity_property := 1 |} = [].
Proof. vm_compute. reflexivity. Qed.

(** C6, as stated, fails for entities: the grouping key of the entity
    named " Acme" is " Acme" itself, not its trimmed lower-case form
    "acme". *)
Lemma entity_key_is_not_normalized :
  let e := (1, plain_entity " Acme") in
  entityName e = " Acme" ∧ toLowerCase (trim " Acme") = "acme" ∧
  entityName e ≠ toLowerCase (trim " Acme").
Proof. vm_compute. split_and!; [done..|]. intros H. discriminate H. Qed.

(** C6 (amended): a person is grouped under the trimmed, lower-cased first
    and last name joined by one space with empty parts left out; an entity
    is grouped under its name as stored (the empty string when it has
    none), without trimming or case folding; and every record of a group
    is filed under the key computed that way. *)
Theorem grouping_keys :
  (∀ person : Z * people,
     let f := or_empty (toLowerCase <$> (trim <$> people_first_name person.2)) in
     let l := or_empty (toLowerCase <$> (trim <$> people_last_name person.2)) in
     fullName person =
       if truthy f then (if truthy l then f +:+ " " +:+ l else f) else l) ∧
  (∀ e : Z * entity,
     entityName e = match entity_name e.2 with Some n => n | None => "" end) ∧
  (∀ db k g m, (k, g) ∈ peopleNameGroups db → m ∈ g → k = fullName m) ∧
  (∀ db k g m, (k, g) ∈ entityNameGroups db → m ∈ g → k = entityName m) ∧
  (∀ t db k g m, (k, g) ∈ typedNameGroups t db → m ∈ g → k = entityName m).
Proof.
  split_and!.
  - intros person. apply join_nonempty_pair.
  - intros [id e]. by destruct e as [[n|] ? ? ? ? ?].
  - intros db k g m Hin Hm.
    destruct (build_groups_ok fullName _ _ _ Hin) as (_ & _ & H). by rewrite (H m).
  - intros db k g m Hin Hm.
    destruct (build_groups_ok entityName _ _ _ Hin) as (_ & _ & H). by rewrite (H m).
  - intros t db k g m Hin Hm.
    destruct (build_groups_ok entityName _ _ _ Hin) as (_ & _ & H). by rewrite (H m).
Qed.

Lemma normalized_or_empty (x : option string) :
  normalized x = toLowerCase (trim (or_empty x)).
Proof. by destruct x. Qed.

(** C7, as stated, fails for entities: two entities of type 2 whose name
    is a single space are emitted as a group by both entity groupers,
    under the key " " as stored, and the normalized key of that group,
    the trimmed lower-cased name of its members, is the empty string. *)
Lemma blank_entity_names_are_grouped :
  typedDuplicateGroups 2 blank_names_db = [(" ", 2%nat)] ∧
  getDuplicateEntitiesByFullNameController blank_names_db = [" "] ∧
  duplicate_entries (typedNameGroups 2 blank_names_db)
  = [(" ", [(1, plain_entity " "); (2, plain_entity " ")])] ∧
  (∀ m, m ∈ [(1, plain_entity " "); (2, plain_entity " ")] →
     normalized (entity_name m.2) = "").
Proof.
  split_and!; [vm_compute; reflexivity..|].
  intros m Hm. repeat (apply elem_of_cons in Hm as [->|Hm]; [done|]).
  by apply elem_of_nil in Hm.
Qed.

(** C7 (amended): every group kept by the grouper (people by full name,
    entities by name, entities by name and type) has at least two
    members, members that all compute the key of the group, and hence one
    normalized key, and a non-empty key, where the key is the one the
    grouper files under: the normalized full name for people, the name as
    stored for entities. The names and counts the controllers return are
    those of such groups. *)
Theorem emitted_groups_sound (db : database) :
  (∀ k g, (k, g) ∈ duplicate_entries (peopleNameGroups db) →
     (2 ≤ length g)%nat ∧ k ≠ "" ∧ ∀ m, m ∈ g → fullName m = k) ∧
  (∀ k g, (k, g) ∈ duplicate_entries (entityNameGroups db) →
     (2 ≤ length g)%nat ∧ k ≠ "" ∧
     ∀ m, m ∈ g → entityName m = k ∧
                  normalized (entity_name m.2) = toLowerCase (trim k)) ∧
  (∀ t k g, (k, g) ∈ duplicate_entries (typedNameGroups t db) →
     (2 ≤ length g)%nat ∧ k ≠ "" ∧
     ∀ m, m ∈ g → entityName m = k ∧
                  normalized (entity_name m.2) = toLowerCase (trim k)) ∧
  (∀ name, name ∈ getDuplicatePeopleByFullNameController db →
     ∃ g, (name, g) ∈ duplicate_entries (peopleNameGroups db)) ∧
  (∀ name, name ∈ getDuplicateEntitiesByFullNameController db →
     ∃ g, (name, g) ∈ duplicate_entries (entityNameGroups db)) ∧
  (∀ t name count, (name, count) ∈ typedDuplicateGroups t db →
     (2 ≤ count)%nat ∧
     ∃ g, (name, g) ∈ duplicate_entries (typedNameGroups t db) ∧ count = length g).
Proof.
  assert (Hentity : ∀ (l : list (string * list (Z * entity))) k g,
            ((2 ≤ length g)%nat ∧ k ≠ "" ∧ ∀ m, m ∈ g → entityName m = k) →
            (2 ≤ length g)%nat ∧ k ≠ "" ∧
            ∀ m, m ∈ g → entityName m = k ∧
                         normalized (entity_name m.2) = toLowerCase (trim k)).
  { intros _ k g (Hlen & Hk & Hkey). split_and!; [done..|].
    intros m Hm. split; [by apply Hkey|].
    rewrite normalized_or_empty. f_equal. f_equal. by apply Hkey. }
  split_and!.
  - intros k g. apply duplicate_entries_sound.
  - intros k g Hin. apply (Hentity (entityNameGroups db)).
    by apply duplicate_entries_sound in Hin.
  - intros t k g Hin. apply (Hentity (typedNameGroups t db)).
    by apply duplicate_entries_sound in Hin.
  - intros name ([k g] & -> & Hin)%list_elem_of_fmap. by exists g.
  - intros name ([k g] & -> & Hin)%list_elem_of_fmap. by exists g.
  - intros t name count ([k g] & Heq & Hin)%list_elem_of_fmap.
    injection Heq as -> ->. split.
    + by apply duplicate_entries_elem in Hin as [_ ?].
    + by exists g.
Qed.

Lemma grouping_keys_witness :
  peopleNameGroups johns_db
  = [("john doe", [(1, plain_person 10 "John" "Doe");
                   (2, plain_person 20 " john" "DOE ")])] ∧
  "john doe" = fullName (2, plain_person 20 " john" "DOE ").
Proof.
  assert (Hgroups : peopleNameGroups johns_db
    = [("john doe", [(1, plain_person 10 "John" "Doe");
                     (2, plain_person 20 " john" "DOE ")])])
    by (vm_compute; reflexivity).
  split; [exact Hgroups|].
  destruct grouping_keys as (_ & _ & Hpeople & _).
  apply (Hpeople johns_db "john doe" [(1, plain_person 10 "John" "Doe");
                                      (2, plain_person 20 " john" "DOE ")]).
  - rewrite Hgroups. left.
  - right. left.
Defined.

Lemma emitted_groups_sound_witness :
  (getDuplicatePeopleByFullNameController johns_db = ["john doe"] ∧
   ∃ g, ("john doe", g) ∈ duplicate_entries (peopleNameGroups johns_db) ∧
        (2 ≤ length g)%nat ∧ "john doe" ≠ "" ∧
        ∀ m, m ∈ g → fullName m = "john doe") ∧
  (typedDuplicateGroups 2 three_pairs_db
   = [("Acme", 2%nat); ("Bolt", 2%nat); ("Core", 2%nat)] ∧
   ∃ g, ("Bolt", g) ∈ duplicate_entries (typedNameGroups 2 three_pairs_db) ∧
        (2 ≤ length g)%nat ∧ "Bolt" ≠ "" ∧
        ∀ m, m ∈ g → entityName m = "Bolt" ∧
                     normalized (entity_name m.2) = toLowerCase (trim "Bolt")).
Proof.
  assert (Hout : getDuplicatePeopleByFullNameController johns_db = ["john doe"])
    by (vm_compute; reflexivity).
  assert (Htyped : typedDuplicateGroups 2 three_pairs_db
                   = [("Acme", 2%nat); ("Bolt", 2%nat); ("Core", 2%nat)])
    by (vm_compute; reflexivity).
  destruct (emitted_groups_sound johns_db) as (Hpeople & _ & _ & Hnames & _).
  destruct (emitted_groups_sound three_pairs_db)
    as (_ & _ & Hgroups & _ & _ & Hcounts).
  split.
  - split; [exact Hout|].
    destruct (Hnames "john doe") as [g Hg]; [rewrite Hout; left|].
    exists g. split; [exact Hg|]. exact (Hpeople _ _ Hg).
  - split; [exact Htyped|].
    destruct (Hcounts 2 "Bolt" 2%nat) as (_ & g & Hg & _);
      [rewrite Htyped; right; left|].
    exists g. split; [exact Hg|]. exact (Hgroups _ _ _ Hg).
Defined.

(** ** Pagination *)

Lemma ToIntegerOrInfinity_inject_Z (q : Q) (z : Z) :
  Qeq q (inject_Z z) → ToIntegerOrInfinity q = z.
Proof.
  unfold Qeq, ToIntegerOrInfinity. simpl. rewrite Z.mul_1_r. intros ->.
  apply Z.quot_mul. lia.
Qed.

Lemma take_min_length {A} (n : nat) (l : list A) :
  take (n `min` length l) l = take n l.
Proof.
  destruct (decide (n ≤ length l)%nat).
  - by rewrite Nat.min_l.
  - rewrite Nat.min_r by lia. rewrite !take_ge; [done|lia..].
Qed.

(** On integral, non-negative bounds [slice] is [take] after [drop]. *)
Lemma slice_integral {A} (start end_ : Q) (a b : Z) (l : list A) :
  0 ≤ a → 0 ≤ b → Qeq start (inject_Z a) → Qeq end_ (inject_Z (a + b)) →
  slice start end_ l = take (Z.to_nat b) (drop (Z.to_nat a) l).
Proof.
  intros Ha Hb Hs He. unfold slice.
  rewrite (ToIntegerOrInfinity_inject_Z _ _ Hs), (ToIntegerOrInfinity_inject_Z _ _ He).
  destruct (Z.ltb_spec a 0); [lia|]. destruct (Z.ltb_spec (a + b) 0); [lia|].
  destruct (decide (Z.of_nat (length l) ≤ a)) as [Hge|Hlt].
  - rewrite !drop_ge by lia. by rewrite !take_nil.
  - rewrite (Z.min_l a) by lia.
    rewrite <- (take_min_length (Z.to_nat b)). f_equal.
    rewrite length_drop. lia.
Qed.

(** C8, as stated, fails for fractional numbers, which the schema admits:
    with [limit = 1.5] and [page = 1.5] the offset is 0.75 and
    [slice(0.75, 2.25)] returns two groups, more than [limit]. *)
Lemma fractional_page_exceeds_limit :
  ∃ resp,
    getDuplicateEntitiesByNameWithTypeController (λ _, Some 2) (λ _ _, "")
      {| param_type := "2"; query_page := QueryNum (3 # 2);
         query_limit := QueryNum (3 # 2) |} three_pairs_db = inr resp ∧
    Qle_bool 1 (pg_page (pagination resp)) = true ∧
    Qle_bool 1 (pg_limit (pagination resp)) = true ∧
    duplicateGroups resp = [("Acme", 2%nat); ("Bolt", 2%nat)] ∧
    Qle_bool (inject_Z (Z.of_nat (length (duplicateGroups resp))))
             (pg_limit (pagination resp)) = false.
Proof. eexists. split; [vm_compute; reflexivity|]. vm_compute. done. Qed.

Section pagination.
Variable parseInt : string → option Z.
Variable zodErrorFmt : query_number → query_number → string.

Lemma coerce_min1_ge (d q : Q) (x : query_number) :
  Qle 1 d → coerce_min1 d x = Some q → Qle 1 q.
Proof.
  intros Hd. destruct x as [| |q']; simpl; [by intros [= <-]|done|].
  destruct (Qle_bool 1 q') eqn:E; [|done]. intros [= <-].
  by apply Qle_bool_iff.
Qed.

(** C8 (amended): for an integral limit [l] and an integral page [p]
    accepted by the schema (both at least 1, defaults 20 and 1), the
    returned slice is the [l] entries of the full duplicate-group list
    from offset [(p - 1) * l] on, so it has at most [l] entries, and the
    returned total is the length of the full list, which does not depend
    on the page. *)
Theorem pagination_integral (req : by_type_request) (db : database)
    (resp : by_type_response) (page limit : Q) (p l t : Z) :
  paginationSchema (query_page req) (query_limit req) = Some (page, limit) →
  Qeq page (inject_Z p) → Qeq limit (inject_Z l) →
  parseInt (param_type req) = Some t →
  getDuplicateEntitiesByNameWithTypeController parseInt zodErrorFmt req db
    = inr resp →
  paginationSchema QueryAbsent QueryAbsent = Some (1%Q, (20 # 1)%Q) ∧
  1 ≤ p ∧ 1 ≤ l ∧
  Qeq (pg_offset (pagination resp)) (inject_Z ((p - 1) * l)) ∧
  duplicateGroups resp =
    take (Z.to_nat l) (drop (Z.to_nat ((p - 1) * l)) (typedDuplicateGroups t db)) ∧
  (length (duplicateGroups resp) ≤ Z.to_nat l)%nat ∧
  pg_total (pagination resp) = length (typedDuplicateGroups t db).
Proof.
  intros Hschema Hp Hl Ht Hrun.
  assert (Hge : Qle 1 page ∧ Qle 1 limit).
  { unfold paginationSchema in Hschema.
    destruct (coerce_min1 1 _) as [p'|] eqn:E1; [|done].
    destruct (coerce_min1 (20 # 1) _) as [l'|] eqn:E2; [|done].
    injection Hschema as -> ->. split.
    - eapply coerce_min1_ge; [|exact E1]. unfold Qle; simpl; lia.
    - eapply coerce_min1_ge; [|exact E2]. unfold Qle; simpl; lia. }
  destruct Hge as [Hp1 Hl1].
  assert (1 ≤ p) by (rewrite Hp in Hp1; unfold Qle in Hp1; simpl in Hp1; lia).
  assert (1 ≤ l) by (rewrite Hl in Hl1; unfold Qle in Hl1; simpl in Hl1; lia).
  assert (Hoff : Qeq (Qmult (Qminus page 1) limit) (inject_Z ((p - 1) * l))).
  { rewrite Hp, Hl. rewrite inject_Z_mult. unfold Z.sub. rewrite inject_Z_plus.
    rewrite inject_Z_opp. reflexivity. }
  unfold getDuplicateEntitiesByNameWithTypeController in Hrun.
  rewrite Hschema, Ht in Hrun.
  destruct (negb (truthy (param_type req))); [done|].
  destruct (bool_decide (t ∈ [1; 2])); [|done].
  injection Hrun as <-. simpl.
  assert (Hslice : slice (Qmult (Qminus page 1) limit)
                     (Qplus (Qmult (Qminus page 1) limit) limit)
                     (typedDuplicateGroups t db)
                   = take (Z.to_nat l)
                       (drop (Z.to_nat ((p - 1) * l)) (typedDuplicateGroups t db))).
  { apply slice_integral; [nia|lia|done|].
    rewrite Hoff, Hl. by rewrite inject_Z_plus. }
  rewrite Hslice. split_and!; [done..| |done].
  rewrite length_take. lia.
Qed.
End pagination.

Lemma pagination_integral_witness :
  ∃ resp,
    getDuplicateEntitiesByNameWithTypeController (λ _, Some 2) (λ _ _, "")
      {| param_type := "2"; query_page := QueryNum (2 # 1);
         query_limit := QueryNum (2 # 1) |} three_pairs_db = inr resp ∧
    duplicateGroups resp =
      take 2 (drop 2 (typedDuplicateGroups 2 three_pairs_db)) ∧
    duplicateGroups resp = [("Core", 2%nat)] ∧
    pg_total (pagination resp) = 3%nat.
Proof.
  eexists. split; [vm_compute; reflexivity|].
  pose proof (pagination_integral (λ _, Some 2) (λ _ _, "")
    {| param_type := "2"; query_page := QueryNum (2 # 1);
       query_limit := QueryNum (2 # 1) |} three_pairs_db _ (2 # 1) (2 # 1) 2 2 2
    eq_refl ltac:(reflexivity) ltac:(reflexivity) eq_refl eq_refl)
    as (_ & _ & _ & _ & Hs & _ & Ht).
  split; [exact Hs|]. split; [vm_compute; reflexivity|exact Ht].
Defined.

(** ** Merge planner: the property map *)

Lemma pretty_N_char_not_underscore (x : N) : pretty_N_char x ≠ "_"%char.
Proof. unfold pretty_N_char. by repeat case_match. Qed.

Lemma pretty_N_go_char_free (x : N) (s : string) :
  char_free "_" s → char_free "_" (pretty_N_go x s).
Proof.
  revert s. induction (N.lt_wf_0 x) as [x _ IH]; intros s Hs.
  assert (x = 0 ∨ 0 < x)%N as [->|?] by lia.
  - by rewrite pretty_N_go_0.
  - rewrite pretty_N_go_step by done. apply IH.
    + by apply N.div_lt.
    + split; [apply pretty_N_char_not_underscore|done].
Qed.

Lemma pretty_N_char_free (x : N) : char_free "_" (pretty x).
Proof.
  unfold pretty, pretty_N. case_decide.
  - simpl. split; [done|exact I].
  - by apply pretty_N_go_char_free.
Qed.

Lemma pretty_Z_char_free (z : Z) : char_free "_" (pretty z).
Proof.
  destruct z as [|p|p]; unfold pretty, pretty_Z.
  - simpl. split; [done|exact I].
  - apply pretty_N_char_free.
  - simpl. split; [done|]. apply pretty_N_char_free.
Qed.

Lemma underscore_split (u v s t : string) :
  char_free "_" u → char_free "_" v →
  u +:+ String "_" s = v +:+ String "_" t → u = v ∧ s = t.
Proof.
  revert v. induction u as [|a u IH]; intros [|b v]; simpl.
  - intros _ _ [= ->]. done.
  - intros _ [Hb _] [= Hab _]. by destruct Hb.
  - intros [Ha _] _ [= Hab _]. by destruct Ha.
  - intros [_ Hu] [_ Hv] [= -> Heq]. destruct (IH _ Hu Hv Heq) as [-> ->]. done.
Qed.

Lemma propKey_inj (pid1 pid2 : Z) (v1 v2 : string) :
  propKey pid1 v1 = propKey pid2 v2 →
  pid1 = pid2 ∧ toLowerCase (trim v1) = toLowerCase (trim v2).
Proof.
  unfold propKey. intros H.
  apply underscore_split in H as [Hp Hv]; [|apply pretty_Z_char_free..].
  split; [by apply (inj pretty)|done].
Qed.

Section property_map.
Variable kept_entity_id : Z.
Implicit Types (m : list (string * (Z * entity_property))).
Implicit Types (p e : Z * entity_property).

Lemma propMap_has_spec key m : propMap_has key m = true ↔ key ∈ m.*1.
Proof.
  unfold propMap_has. rewrite existsb_exists. setoid_rewrite string_eqb_true.
  setoid_rewrite <- list_elem_of_In. split.
  - by intros (x & Hin & ->).
  - intros Hin. by exists key.
Qed.

Lemma propMap_set_primary_keys key m : (propMap_set_primary key m).*1 = m.*1.
Proof.
  induction m as [|[k e] m IH]; simpl; [done|].
  destruct (String.eqb k key); simpl; [done|]. f_equal. exact IH.
Qed.

Lemma propMap_set_primary_back key m k e' :
  (k, e') ∈ propMap_set_primary key m →
  ∃ e, (k, e) ∈ m ∧ property_id e'.2 = property_id e.2 ∧
       property_value e'.2 = property_value e.2.
Proof.
  induction m as [|[k0 e0] m IH]; simpl; [by intros ?%elem_of_nil|].
  destruct (String.eqb k0 key).
  - intros [[= -> ->]|Hin]%elem_of_cons.
    + exists e0. split; [left|done].
    + exists e'. split; [by right|done].
  - intros [[= -> ->]|Hin]%elem_of_cons.
    + exists e0. split; [left|done].
    + destruct (IH Hin) as (e & ? & ?). exists e. split; [by right|done].
Qed.

Lemma propMap_set_primary_keeps key m k e :
  (k, e) ∈ m →
  ∃ e', (k, e') ∈ propMap_set_primary key m ∧
        (is_primary e.2 = Some "Yes" → is_primary e'.2 = Some "Yes").
Proof.
  induction m as [|[k0 e0] m IH]; simpl; [by intros ?%elem_of_nil|].
  destruct (String.eqb k0 key).
  - intros [[= -> ->]|Hin]%elem_of_cons.
    + eexists. split; [left|done].
    + exists e. split; [by right|done].
  - intros [[= -> ->]|Hin]%elem_of_cons.
    + exists e0. split; [left|done].
    + destruct (IH Hin) as (e' & ? & ?). exists e'. split; [by right|done].
Qed.

Lemma propMap_set_primary_hits key m :
  key ∈ m.*1 →
  ∃ e', (key, e') ∈ propMap_set_primary key m ∧ is_primary e'.2 = Some "Yes".
Proof.
  induction m as [|[k0 e0] m IH]; simpl; [by intros ?%elem_of_nil|].
  destruct (String.eqb k0 key) eqn:E.
  - apply string_eqb_true in E as ->. intros _.
    eexists. split; [left|done].
  - apply string_eqb_false in E.
    intros [?|Hin]%elem_of_cons; [done|].
    destruct (IH Hin) as (e' & ? & ?). exists e'. split; [by right|done].
Qed.

Lemma propMap_step_ok m p : propMap_ok m → propMap_ok (propMap_step kept_entity_id m p).
Proof.
  intros [Hnd Hkeys]. unfold propMap_step.
  destruct (property_value p.2) as [v|] eqn:Hv; [|done].
  destruct (truthy v) eqn:Ht; [|done]. apply truthy_true in Ht.
  destruct (propMap_has _ m) eqn:Hhas; simpl.
  - case_bool_decide; [|done]. split.
    + by rewrite propMap_set_primary_keys.
    + intros k e' (e & Hin & Hid & Hval)%propMap_set_primary_back.
      destruct (Hkeys _ _ Hin) as (v' & ? & ? & ?).
      exists v'. rewrite Hid, Hval. done.
  - assert (propKey (property_id p.2) v ∉ m.*1) as Hfresh.
    { rewrite <- propMap_has_spec. by rewrite Hhas. }
    split.
    + rewrite fmap_app. simpl. apply NoDup_app. split_and!; [done| |apply NoDup_singleton].
      intros k Hk ->%list_elem_of_singleton. done.
    + intros k e [Hin|[= -> ->]%list_elem_of_singleton]%elem_of_app; [by apply Hkeys|].
      exists v. simpl. done.
Qed.

Lemma propMap_step_keeps m p q :
  covers m q → covers (propMap_step kept_entity_id m p) q.
Proof.
  intros Hq. unfold propMap_step.
  destruct (property_value p.2) as [v|] eqn:Hv; [|done].
  destruct (truthy v) eqn:Ht; [|done].
  destruct (propMap_has _ m) eqn:Hhas; simpl.
  - case_bool_decide; [|done].
    intros w Hw Hne. destruct (Hq w Hw Hne) as (e & Hin & Hprim).
    destruct (propMap_set_primary_keeps (propKey (property_id p.2) v) _ _ _ Hin)
      as (e' & Hin' & Hkeep).
    exists e'. split; [done|]. auto.
  - intros w Hw Hne. destruct (Hq w Hw Hne) as (e & Hin & Hprim).
    exists e. split; [|done]. apply elem_of_app. by left.
Qed.

Lemma propMap_step_covers m p : covers (propMap_step kept_entity_id m p) p.
Proof.
  intros v Hv Hne. unfold propMap_step. rewrite Hv.
  apply truthy_true in Hne as Ht. rewrite Ht.
  destruct (propMap_has _ m) eqn:Hhas; simpl.
  - apply propMap_has_spec in Hhas. case_bool_decide as Hprim.
    + destruct (propMap_set_primary_hits _ _ Hhas) as (e' & ? & ?). by exists e'.
    + apply list_elem_of_fmap in Hhas as ([k e] & -> & Hin).
      exists e. split; [done|]. intros ?. done.
  - eexists. split; [apply elem_of_app; right; apply list_elem_of_singleton; done|].
    simpl. done.
Qed.

Lemma propMap_fold props m (seen : list (Z * entity_property)) :
  propMap_ok m → (∀ q, q ∈ seen → covers m q) →
  propMap_ok (foldl (propMap_step kept_entity_id) m props) ∧
  ∀ q, q ∈ seen ++ props → covers (foldl (propMap_step kept_entity_id) m props) q.
Proof.
  revert m seen. induction props as [|p props IH]; intros m seen Hok Hseen; simpl.
  - split; [done|]. intros q. rewrite app_nil_r. auto.
  - destruct (IH (propMap_step kept_entity_id m p) (seen ++ [p])) as [Hok' Hcov].
    + by apply propMap_step_ok.
    + intros q [Hq| ->%list_elem_of_singleton]%elem_of_app.
      * by apply propMap_step_keeps, Hseen.
      * apply propMap_step_covers.
    + split; [done|]. intros q Hq. apply Hcov. by rewrite <- app_assoc.
Qed.
End property_map.

Lemma entry_key_determined (k1 k2 : string) (e1 e2 : Z * entity_property) :
  entry_key_ok k1 e1 → entry_key_ok k2 e2 →
  (k1 = k2 ↔ property_key e1.2 = property_key e2.2).
Proof.
  intros (v1 & Hv1 & _ & ->) (v2 & Hv2 & _ & ->).
  unfold property_key. rewrite Hv1, Hv2. simpl. split.
  - intros [-> ->]%propKey_inj. done.
  - intros [= -> Hv]. unfold propKey. by rewrite Hv.
Qed.

Lemma propMap_ok_property_keys (m : list (string * (Z * entity_property))) :
  propMap_ok m → NoDup (property_key <$> (snd <$> m.*2)).
Proof.
  induction m as [|[k e] m IH]; intros [Hnd Hkeys]; simpl; [constructor|].
  apply NoDup_cons in Hnd as [Hk Hnd]. apply NoDup_cons. split.
  - intros (ep & Heq & (e' & -> & ([k' e''] & -> & Hin)%list_elem_of_fmap)%list_elem_of_fmap)%list_elem_of_fmap.
    simpl in *. apply Hk.
    assert (k = k') as ->.
    { eapply entry_key_determined; [apply Hkeys; left|apply Hkeys; by right|done]. }
    apply list_elem_of_fmap. by exists (k', e'').
  - apply IH. split; [done|]. intros k' e' Hin. apply Hkeys. by right.
Qed.

(** The merged property list of a kept record and its removed siblings has
    pairwise distinct keys, and each contributing property finds an entry
    under its key, which is primary when the property is. *)
Lemma mergedProperties_spec (keptRecord : PeopleRecord)
    (removedRecords : list PeopleRecord) :
  NoDup (property_key <$> (mergedProperties keptRecord removedRecords).*2) ∧
  ∀ p, p ∈ allProps keptRecord removedRecords → contributes p.2 →
    ∃ e, e ∈ mergedProperties keptRecord removedRecords ∧
         property_key e.2 = property_key p.2 ∧
         (is_primary p.2 = Some "Yes" → is_primary e.2 = Some "Yes").
Proof.
  unfold mergedProperties.
  destruct (propMap_fold (pr_entity_id keptRecord)
              (allProps keptRecord removedRecords) [] [])
    as [Hok Hcov].
  { split; [constructor|]. by intros k e ?%elem_of_nil. }
  { by intros q ?%elem_of_nil. }
  set (m := foldl _ _ _) in *. split.
  - by apply propMap_ok_property_keys.
  - intros p Hp (v & Hv & Hne).
    destruct (Hcov p Hp v Hv Hne) as (e & Hin & Hprim).
    exists e. split_and!; [|symmetry|done].
    + apply list_elem_of_fmap. by exists (propKey (property_id p.2) v, e).
    + eapply entry_key_determined; [..|reflexivity].
      * exists v. done.
      * by apply (proj2 Hok) in Hin.
Qed.

(** ** Merge planner: the analyze pass *)

Lemma foldM_invariant {A S} (P : S → Prop) (f : S → A → option S)
    (l : list A) (st st' : S) :
  (∀ s x s', x ∈ l → P s → f s x = Some s' → P s') →
  P st → foldM f st l = Some st' → P st'.
Proof.
  revert st. induction l as [|x l IH]; intros st Hf Hst; simpl.
  - by intros [= <-].
  - destruct (f st x) as [s1|] eqn:E; simpl; [|done].
    apply IH.
    + intros s y s' Hy. apply Hf. by right.
    + eapply Hf; [left|done..].
Qed.

Section analyze_pass.
Variable aiService_call : PeopleRecord → list PeopleRecord → option aiDecision.
Variable mergeSimilarAddresses :
  list (Z * address) → list (Z * address) → list (Z * address).
Variable people : list PeopleRecord.

Lemma item_step_invariant (group : list PeopleRecord) (st st' : pass_state)
    (person : PeopleRecord) :
  (∀ r, r ∈ group → r ∈ people) → person ∈ group →
  Forall (proposal_from_input mergeSimilarAddresses people) st.2 →
  item_step aiService_call mergeSimilarAddresses group st person = Some st' →
  Forall (proposal_from_input mergeSimilarAddresses people) st'.2.
Proof.
  intros Hgroup Hperson Hst. destruct st as [seen grouped]. unfold item_step.
  case_bool_decide; [by intros [= <-]|].
  set (duplicates := List.filter _ group).
  assert (Hdup : ∀ r, r ∈ duplicates → r ∈ people).
  { intros r Hr. apply list_elem_of_In, filter_In in Hr as [Hr _].
    by apply Hgroup, list_elem_of_In. }
  destruct (length duplicates =? 0)%nat; [by intros [= <-]|].
  destruct (aiService_call person duplicates) as [decision|];
    cbn [mbind option_bind]; [|done].
  destruct (find _ _) as [keptRecord|] eqn:Hfind; [|by intros [= <-]].
  intros [= <-]. cbn [snd] in *. apply Forall_app. split; [done|].
  apply Forall_singleton. exists decision, keptRecord, (List.filter
    (λ p, bool_decide (pr_people_id p ∈ ai_remove decision)) duplicates).
  split_and!; [| |done].
  - apply find_some in Hfind as [Hin _]. apply list_elem_of_In in Hin.
    apply elem_of_cons in Hin as [->|Hin]; auto.
  - intros r Hr. apply list_elem_of_In, filter_In in Hr as [Hr _].
    by apply Hdup, list_elem_of_In.
Qed.

Lemma analyze_proposals_from_input (proposals : list proposal) :
  getPotentialDuplicatePeopleGroupsController aiService_call
    mergeSimilarAddresses people = Some proposals →
  Forall (proposal_from_input mergeSimilarAddresses people) proposals.
Proof.
  unfold getPotentialDuplicatePeopleGroupsController.
  destruct (foldM _ _ _) as [st|] eqn:Hfold; simpl; [|done].
  intros [= <-].
  eapply (foldM_invariant (λ st, Forall (proposal_from_input mergeSimilarAddresses people) st.2)); [| |exact Hfold].
  - intros s [k g] s' Hkg Hs. unfold group_pass. simpl.
    destruct (length g <? 2)%nat; [by intros [= <-]|].
    intros Hitems.
    eapply (foldM_invariant (λ st, Forall (proposal_from_input mergeSimilarAddresses people) st.2));
      [|exact Hs|exact Hitems].
    intros s1 x s1' Hx Hs1. apply item_step_invariant; [|done..].
    intros r Hr. by eapply build_groups_members.
  - constructor.
Qed.

(** C2: in every proposal of the analyze pass the merged property list has
    no two entries with the same (property type, trimmed lower-cased value)
    key, and whenever a contributing property of the kept record's entity
    or of a removed record's entity is primary ("Yes"), the merged entry
    under its key is primary. *)
Theorem merged_properties_deduplicated (proposals : list proposal)
    (pr : proposal) :
  getPotentialDuplicatePeopleGroupsController aiService_call
    mergeSimilarAddresses people = Some proposals →
  pr ∈ proposals →
  ∃ keptRecord removedRecords,
    keptRecord ∈ people ∧ (∀ r, r ∈ removedRecords → r ∈ people) ∧
    retained_people_id (prop_deletionPlan pr) = pr_people_id keptRecord ∧
    deleted_people_ids (prop_deletionPlan pr) = pr_people_id <$> removedRecords ∧
    NoDup (property_key <$> (pr_properties (mergedPerson pr)).*2) ∧
    ∀ p, p ∈ pr_properties keptRecord
             ++ concat (pr_properties <$> removedRecords) →
         contributes p.2 → is_primary p.2 = Some "Yes" →
      ∃ e, e ∈ pr_properties (mergedPerson pr) ∧
           property_key e.2 = property_key p.2 ∧
           is_primary e.2 = Some "Yes".
Proof.
  intros Hrun Hpr.
  pose proof (analyze_proposals_from_input _ Hrun) as Hall.
  rewrite Forall_forall in Hall.
  destruct (Hall pr Hpr) as (decision & keptRecord & removedRecords & Hk & Hr & ->).
  exists keptRecord, removedRecords. simpl.
  destruct (mergedProperties_spec keptRecord removedRecords) as [Hnd Hcov].
  split_and!; [done..|].
  intros p Hp Hc Hprim. destruct (Hcov p Hp Hc) as (e & ? & ? & ?).
  exists e. auto.
Qed.
End analyze_pass.

Lemma merged_properties_deduplicated_witness :
  ∃ pr,
    getPotentialDuplicatePeopleGroupsController keep_primary append_addresses
      two_johns = Some [pr] ∧
    NoDup (property_key <$> (pr_properties (mergedPerson pr)).*2) ∧
    pr_properties (mergedPerson pr) =
      [(100, plain_property 10 7 "J@X.org" "Yes");
       (201, plain_property 10 8 "555" "No")].
Proof.
  eexists. split; [vm_compute; reflexivity|].
  edestruct (merged_properties_deduplicated keep_primary append_addresses
               two_johns _ _ ltac:(vm_compute; reflexivity)
               ltac:(apply list_elem_of_singleton; reflexivity))
    as (keptRecord & removedRecords & _ & _ & _ & _ & Hnd & _).
  split; [exact Hnd|]. vm_compute. reflexivity.
Defined.

(** ** Tables and fetches *)

Lemma table_rows_elem {R} (t : gmap Z R) (k : Z) (r : R) :
  (k, r) ∈ table_rows t ↔ t !! k = Some r.
Proof.
  unfold table_rows. rewrite merge_sort_Permutation. apply elem_of_map_to_list.
Qed.

Lemma table_rows_NoDup {R} (t : gmap Z R) : NoDup (table_rows t).*1.
Proof.
  unfold table_rows. rewrite merge_sort_Permutation. apply NoDup_fst_map_to_list.
Qed.

Lemma findMany_elem {R} (where_ : Z → R → bool) (t : gmap Z R) (k : Z) (r : R) :
  (k, r) ∈ findMany where_ t ↔ t !! k = Some r ∧ where_ k r = true.
Proof.
  unfold findMany. rewrite list_elem_of_In, filter_In, <- list_elem_of_In.
  by rewrite table_rows_elem.
Qed.

Lemma NoDup_fst_filter {R} (f : Z * R → bool) (l : list (Z * R)) :
  NoDup l.*1 → NoDup (List.filter f l).*1.
Proof.
  induction l as [|[k r] l IH]; simpl; [done|].
  intros [Hk Hl]%NoDup_cons. destruct (f (k, r)); simpl; [|by apply IH].
  apply NoDup_cons. split; [|by apply IH].
  intros ([k' r'] & Heq & Hin)%list_elem_of_fmap. simpl in Heq. subst k'.
  apply Hk. apply list_elem_of_fmap. exists (k, r'). split; [done|].
  apply list_elem_of_In in Hin. apply filter_In in Hin as [Hin _].
  by apply list_elem_of_In.
Qed.

Lemma findMany_NoDup {R} (where_ : Z → R → bool) (t : gmap Z R) :
  NoDup (findMany where_ t).*1.
Proof. apply NoDup_fst_filter, table_rows_NoDup. Qed.

Lemma fetch_entities_ids (allEntityIds : list Z) (db : database) :
  fe_entity_id <$> fetch_entities allEntityIds db
  = (findMany (λ id e, bool_decide (id ∈ allEntityIds)
                       && negb (entity_is_deleted e)) (db_entity db)).*1.
Proof. unfold fetch_entities. rewrite <- list_fmap_compose. done. Qed.

Lemma fetch_entities_found (allEntityIds : list Z) (db : database) (id : Z) :
  id ∈ fe_entity_id <$> fetch_entities allEntityIds db
  ↔ id ∈ allEntityIds ∧ stored db id.
Proof.
  rewrite fetch_entities_ids, list_elem_of_fmap. split.
  - intros ([k e] & -> & Hin). apply findMany_elem in Hin as [Hlook Hw].
    apply andb_true_iff in Hw as [Hin Hdel]. apply bool_decide_eq_true in Hin.
    split; [done|]. exists e. split; [done|]. by destruct (entity_is_deleted e).
  - intros [Hin (e & Hlook & Hdel)]. exists (id, e). split; [done|].
    apply findMany_elem. split; [done|]. simpl.
    rewrite Hdel, bool_decide_eq_true_2 by done. done.
Qed.

(** The count check of line 102 passes only for a duplicate-free id list
    whose ids are all stored. *)
Lemma fetch_entities_full (allEntityIds : list Z) (db : database) :
  length (fetch_entities allEntityIds db) = length allEntityIds →
  NoDup allEntityIds ∧ ∀ id, id ∈ allEntityIds → stored db id.
Proof.
  intros Hlen.
  set (found := fe_entity_id <$> fetch_entities allEntityIds db).
  assert (Hnd : NoDup found).
  { unfold found. rewrite fetch_entities_ids. apply findMany_NoDup. }
  assert (Hsub : found ⊆+ allEntityIds).
  { apply NoDup_submseteq; [done|]. intros id Hid.
    by apply fetch_entities_found in Hid as [? _]. }
  assert (Hperm : found ≡ₚ allEntityIds).
  { apply submseteq_length_Permutation; [done|].
    unfold found. rewrite length_fmap. lia. }
  split.
  - by rewrite <- Hperm.
  - intros id Hid. rewrite <- Hperm in Hid.
    by apply fetch_entities_found in Hid as [_ ?].
Qed.

Lemma missing_ids_elem (allEntityIds : list Z) (db : database) (id : Z) :
  id ∈ missing_ids allEntityIds (fetch_entities allEntityIds db)
  ↔ id ∈ allEntityIds ∧ ¬ stored db id.
Proof.
  unfold missing_ids. rewrite list_elem_of_In, filter_In, <- list_elem_of_In.
  rewrite negb_true_iff, bool_decide_eq_false, fetch_entities_found. tauto.
Qed.

(** ** Validation *)

Lemma truthy_id_true (id : Z) : truthy_id id = true ↔ id ≠ 0.
Proof. unfold truthy_id. rewrite negb_true_iff, Z.eqb_neq. done. Qed.

Lemma length_zero_nil {A} (l : list A) : (length l =? 0)%nat = true ↔ l = [].
Proof. rewrite Nat.eqb_eq. by destruct l. Qed.

Lemma forallb_in_int4 (ids : list Z) :
  forallb in_int4 ids = true ↔ ∀ i, i ∈ ids → in_int4 i = true.
Proof.
  rewrite forallb_forall. split; intros H i Hi; apply H; by apply list_elem_of_In.
Qed.

(** The query of line 90 on ids that fit the column. *)
Lemma entity_findMany_in_range (ids : list Z) (db : database) :
  (∀ i, i ∈ ids → in_int4 i = true) →
  entity_findMany ids db = inr (fetch_entities ids db).
Proof.
  intros H. unfold entity_findMany. by rewrite (proj2 (forallb_in_int4 ids) H).
Qed.

(** A body that passes the structural checks carries a [merged_entity]. *)
Lemma well_formed_merged_entity (payload : ApplyMergePayload) (keep : Z)
    (remove : list Z) :
  well_formed payload keep remove → is_Some (merged_entity payload).
Proof.
  intros (_ & _ & _ & _ & _ & [mp Hmp] & _). unfold merged_people in Hmp.
  by destruct (merged_entity payload).
Qed.

(** What a successful validation establishes. *)
Lemma validation_inr (payload : ApplyMergePayload) (db : database) (v : validated) :
  validation payload db = inr v →
  well_formed payload (v_keep v) (v_remove v) ∧
  merged_people payload = Some (v_people v) ∧
  merged_address payload = Some (v_address v) ∧
  merged_properties payload = Some (v_properties v) ∧
  NoDup (v_keep v :: v_remove v) ∧
  (∀ id, id ∈ v_keep v :: v_remove v → live db id) ∧
  keptEntity v ∈ fetch_entities (v_keep v :: v_remove v) db ∧
  fe_entity_id (keptEntity v) = v_keep v ∧
  ∀ fe, fe ∈ removedEntities v → fe ∈ fetch_entities (v_keep v :: v_remove v) db.
Proof.
  unfold validation, well_formed.
  destruct (keep_entity_id payload) as [keep|]; [|done].
  destruct (truthy_id keep) eqn:Hkeep; cbn [negb]; [|done].
  apply truthy_id_true in Hkeep.
  destruct (remove_entity_ids payload) as [remove|]; [|done].
  destruct (length remove =? 0)%nat eqn:Hlen; [done|].
  case_bool_decide as Hin; [done|].
  destruct (merged_people payload) as [mergedPeople|]; [|done].
  destruct (merged_address payload) as [mergedAddresses|]; [|done].
  destruct (merged_properties payload) as [mergedProperties|]; [|done].
  cbv zeta. unfold entity_findMany.
  destruct (forallb in_int4 (keep :: remove)) eqn:Hrange; [|done].
  destruct (length (fetch_entities (keep :: remove) db) =? length (keep :: remove))%nat
    eqn:Hcount; cbn [negb]; [|done].
  apply Nat.eqb_eq in Hcount.
  destruct (fetch_entities_full _ _ Hcount) as [Hnd Hlive].
  destruct (find _ _) as [kept|] eqn:Hfind; [|done].
  intros [= <-]. simpl. apply find_some in Hfind as [Hk Hid].
  apply Z.eqb_eq in Hid. apply list_elem_of_In in Hk.
  split_and!; try done; eauto.
  - intros ->. by rewrite (proj2 (length_zero_nil [])) in Hlen.
  - intros id Hid'. split; [by apply (proj1 (forallb_in_int4 _) Hrange)|].
    by apply Hlive.
  - intros fe Hfe. apply list_elem_of_In, filter_In in Hfe as [Hfe _].
    by apply list_elem_of_In.
Qed.

(** A validation failure never touches the world. *)
Lemma validation_failure_is_pure parse_date error_message
    (payload : ApplyMergePayload) (env : environment) (w : world) (e : merge_error) :
  is_Some (merged_entity payload) →
  validation payload (w_db w) = inl e →
  applyEntitiesDuplicateMergeController parse_date error_message payload env w
  = (inl e, w).
Proof.
  unfold applyEntitiesDuplicateMergeController. intros [me ->]. by intros ->.
Qed.

(** Neither does the failed destructuring. *)
Lemma destructuring_failure_is_pure parse_date error_message
    (payload : ApplyMergePayload) (env : environment) (w : world) :
  merged_entity payload = None →
  applyEntitiesDuplicateMergeController parse_date error_message payload env w
  = (inl TypeError, w).
Proof. unfold applyEntitiesDuplicateMergeController. by intros ->. Qed.




(** On the body that carries a [merged_entity] the validation error of
    line 65 is raised. *)
Example self_merge_is_a_validation_error :
  is_Some (merged_entity self_merge_payload) ∧
  applyEntitiesDuplicateMergeController no_dates (λ _, "")
    self_merge_payload sample_env (mk_world empty_database [])
  = (inl (Refused (BadRequest "'keep_entity_id' cannot be in 'remove_entity_ids'")),
     mk_world empty_database []).
Proof. split; [by eexists|]. vm_compute. reflexivity. Qed.

(** C5, as stated, fails when an earlier structural check fires first:
    the request that keeps and removes the absent id 7 is rejected with
    the validation error of line 65, not with the not-found error. *)
Lemma missing_id_masked_by_validation_error :
  ¬ live empty_database 7 ∧
  applyEntitiesDuplicateMergeController no_dates (λ _, "")
    self_merge_payload sample_env (mk_world empty_database [])
  = (inl (Refused (BadRequest "'keep_entity_id' cannot be in 'remove_entity_ids'")),
     mk_world empty_database []) ∧
  ¬ NotFoundError (BadRequest "'keep_entity_id' cannot be in 'remove_entity_ids'").
Proof.
  split_and!.
  - intros (_ & e & Hlook & _). simpl in Hlook. by rewrite lookup_empty in Hlook.
  - vm_compute. reflexivity.
  - intros [missing Heq]. unfold invalid_ids_message in Heq. discriminate Heq.
Qed.

(** C5 (amended): when the structural checks of lines 55-85 pass, every
    id of the kept and removed ids fits the 32-bit id column and some id
    among them does not name a live entity, the request fails with the
    not-found error, whose message lists exactly the requested ids that
    name no live entity, and the world is unchanged. *)
Theorem missing_ids_rejected parse_date error_message
    (payload : ApplyMergePayload) (env : environment) (w : world)
    (keep : Z) (remove : list Z) (id : Z) :
  well_formed payload keep remove →
  (∀ i, i ∈ keep :: remove → in_int4 i = true) →
  id ∈ keep :: remove → ¬ live (w_db w) id →
  ∃ missing,
    applyEntitiesDuplicateMergeController parse_date error_message
      payload env w
    = (inl (Refused (BadRequest (invalid_ids_message missing))), w) ∧
    NotFoundError (BadRequest (invalid_ids_message missing)) ∧
    id ∈ missing ∧
    ∀ i, i ∈ missing ↔ i ∈ keep :: remove ∧ ¬ live (w_db w) i.
Proof.
  intros Hwf Hrange Hid Hdead.
  pose proof (well_formed_merged_entity _ _ _ Hwf) as Hme.
  destruct Hwf
    as (Hkeep & Hk0 & Hremove & Hne & Hnotin & [mp Hmp] & [ma Hma] & [mq Hmq]).
  assert (Hlive : ∀ i, i ∈ keep :: remove →
            (¬ live (w_db w) i ↔ ¬ stored (w_db w) i)).
  { intros i Hi. unfold live. specialize (Hrange i Hi). tauto. }
  exists (missing_ids (keep :: remove) (fetch_entities (keep :: remove) (w_db w))).
  split_and!.
  - apply validation_failure_is_pure; [done|]. unfold validation.
    rewrite Hkeep, Hremove, Hmp, Hma, Hmq.
    rewrite (proj2 (truthy_id_true keep) Hk0). cbn [negb].
    destruct (length remove =? 0)%nat eqn:Hlen.
    { apply length_zero_nil in Hlen. done. }
    rewrite bool_decide_eq_false_2 by done.
    cbv zeta. rewrite (entity_findMany_in_range _ _ Hrange).
    destruct (length (fetch_entities (keep :: remove) (w_db w))
              =? length (keep :: remove))%nat eqn:Hcount; cbn [negb]; [|done].
    apply Nat.eqb_eq in Hcount.
    destruct (fetch_entities_full _ _ Hcount) as [_ Hstored].
    destruct (proj1 (Hlive id Hid) Hdead). by apply Hstored.
  - by eexists.
  - apply missing_ids_elem. split; [done|]. by apply Hlive.
  - intros i. rewrite missing_ids_elem. split.
    + intros [Hi Hns]. split; [done|]. by apply Hlive.
    + intros [Hi Hnl]. split; [done|]. by apply Hlive.
Qed.

Lemma missing_ids_rejected_witness :
  ∃ missing,
    applyEntitiesDuplicateMergeController no_dates (λ _, "")
      missing_remove_payload sample_env (mk_world one_entity_db [])
    = (inl (Refused (BadRequest (invalid_ids_message missing))),
       mk_world one_entity_db []) ∧
    99 ∈ missing.
Proof.
  destruct (missing_ids_rejected no_dates (λ _, "") missing_remove_payload
              sample_env (mk_world one_entity_db []) 1 [99] 99)
    as (missing & Hrun & _ & Hin & _).
  - unfold well_formed. simpl. split_and!; try done; try by eexists.
    intros Hin. apply list_elem_of_singleton in Hin. discriminate Hin.
  - intros i Hi. apply elem_of_cons in Hi as [->|Hi]; [done|].
    apply list_elem_of_singleton in Hi as ->. done.
  - right. left.
  - intros (_ & e & Hlook & _). vm_compute in Hlook. discriminate Hlook.
  - exists missing. split; [exact Hrun|exact Hin].
Defined.

(** The message of the not-found error on that request. *)
Example missing_ids_message_text :
  applyEntitiesDuplicateMergeController no_dates (λ _, "")
    missing_remove_payload sample_env (mk_world one_entity_db [])
  = (inl (Refused (BadRequest "Invalid entity IDs: 99 not found or already deleted")),
     mk_world one_entity_db []).
Proof. vm_compute. reflexivity. Qed.

(** An id that does not fit the id column never reaches the count check:
    the query itself is refused, outside the [try], and nothing changes. *)
Example out_of_range_id_is_refused_by_the_query :
  applyEntitiesDuplicateMergeController no_dates (λ _, "")
    out_of_range_payload sample_env (mk_world one_entity_db [])
  = (inl (PrismaError "P2020"), mk_world one_entity_db []).
Proof. vm_compute. reflexivity. Qed.

Lemma fetch_entities_length_le (allEntityIds : list Z) (db : database) :
  (length (fetch_entities allEntityIds db) ≤ length allEntityIds)%nat.
Proof.
  rewrite <- (length_fmap fe_entity_id). apply submseteq_length.
  apply NoDup_submseteq.
  - rewrite fetch_entities_ids. apply findMany_NoDup.
  - intros id Hid. by apply fetch_entities_found in Hid as [? _].
Qed.

(** C10: a request whose [remove_entity_ids] repeats an id is always
    rejected, with the world unchanged, whatever the database holds: the
    fetch returns each entity once, so the fetched count stays below the
    length of the id list. For a body that carries a [merged_entity] and
    ids that fit the id column the rejection is a validation or not-found
    error, and when the structural checks pass it is the one of the count
    check (lines 102-109). *)
Theorem repeated_remove_id_rejected parse_date error_message
    (payload : ApplyMergePayload) (env : environment) (w : world)
    (remove : list Z) :
  remove_entity_ids payload = Some remove → ¬ NoDup remove →
  (∃ e, applyEntitiesDuplicateMergeController parse_date error_message
          payload env w = (inl e, w)) ∧
  (is_Some (merged_entity payload) →
   (∀ keep i, keep_entity_id payload = Some keep → i ∈ keep :: remove →
      in_int4 i = true) →
   ∃ e, applyEntitiesDuplicateMergeController parse_date error_message
          payload env w = (inl (Refused e), w) ∧
        (ValidationError e ∨ NotFoundError e)) ∧
  (∀ keep, (length (fetch_entities (keep :: remove) (w_db w))
            < length (keep :: remove))%nat) ∧
  (∀ keep, well_formed payload keep remove →
     (∀ i, i ∈ keep :: remove → in_int4 i = true) →
     applyEntitiesDuplicateMergeController parse_date error_message
       payload env w
     = (inl (Refused (BadRequest (invalid_ids_message
               (missing_ids (keep :: remove)
                            (fetch_entities (keep :: remove) (w_db w)))))), w)).
Proof.
  intros Hremove Hdup.
  assert (Hlt : ∀ keep, (length (fetch_entities (keep :: remove) (w_db w))
                         < length (keep :: remove))%nat).
  { intros keep.
    pose proof (fetch_entities_length_le (keep :: remove) (w_db w)) as Hle.
    destruct (decide (length (fetch_entities (keep :: remove) (w_db w))
                      = length (keep :: remove))) as [Heq|Hne]; [|lia].
    destruct (fetch_entities_full _ _ Heq) as [Hnd _].
    apply NoDup_cons in Hnd as [_ Hnd]. done. }
  assert (Hcount : ∀ keep,
    (length (fetch_entities (keep :: remove) (w_db w))
     =? length (keep :: remove))%nat = false).
  { intros keep. apply Nat.eqb_neq. specialize (Hlt keep). lia. }
  assert (Hval : ∃ e, validation payload (w_db w) = inl e ∧
            ((∀ keep i, keep_entity_id payload = Some keep → i ∈ keep :: remove →
                in_int4 i = true) →
             ∃ r, e = Refused r ∧ (ValidationError r ∨ NotFoundError r))).
  { unfold validation. rewrite Hremove.
    destruct (keep_entity_id payload) as [keep|];
      [|eexists; split; [done|]; intros _; eexists; split; [done|];
        left; simpl; left].
    destruct (truthy_id keep); cbn [negb];
      [|eexists; split; [done|]; intros _; eexists; split; [done|];
        left; simpl; left].
    destruct (length remove =? 0)%nat;
      [eexists; split; [done|]; intros _; eexists; split; [done|];
       left; simpl; right; left|].
    case_bool_decide;
      [eexists; split; [done|]; intros _; eexists; split; [done|];
       left; simpl; do 2 right; left|].
    destruct (merged_people payload);
      [|eexists; split; [done|]; intros _; eexists; split; [done|];
        left; simpl; do 3 right; left].
    destruct (merged_address payload);
      [|eexists; split; [done|]; intros _; eexists; split; [done|];
        left; simpl; do 4 right; left].
    destruct (merged_properties payload);
      [|eexists; split; [done|]; intros _; eexists; split; [done|];
        left; simpl; do 5 right; left].
    cbv zeta. unfold entity_findMany.
    destruct (forallb in_int4 (keep :: remove)) eqn:Hrange.
    - rewrite Hcount. cbn [negb].
      eexists. split; [done|]. intros _. eexists. split; [done|].
      right. by eexists.
    - eexists. split; [done|]. intros Hall.
      rewrite (proj2 (forallb_in_int4 (keep :: remove))) in Hrange; [done|].
      intros i Hi. by apply (Hall keep). }
  destruct Hval as (e & Hval & Hclass).
  split_and!; [| |done|].
  - destruct (merged_entity payload) as [me|] eqn:Hme.
    + exists e. apply validation_failure_is_pure; [by rewrite Hme|done].
    + eexists. by apply destructuring_failure_is_pure.
  - intros Hme Hall. destruct (Hclass Hall) as (r & -> & Hr).
    exists r. split; [by apply validation_failure_is_pure|done].
  - intros keep Hwf Hrange.
    pose proof (well_formed_merged_entity _ _ _ Hwf) as Hme.
    destruct Hwf
      as (Hkeep & Hk0 & _ & Hne & Hnotin & [mp Hmp] & [ma Hma] & [mq Hmq]).
    apply validation_failure_is_pure; [done|]. unfold validation.
    rewrite Hkeep, Hremove, Hmp, Hma, Hmq.
    rewrite (proj2 (truthy_id_true keep) Hk0). cbn [negb].
    destruct (length remove =? 0)%nat eqn:Hlen.
    { apply length_zero_nil in Hlen. done. }
    rewrite bool_decide_eq_false_2 by done.
    cbv zeta. rewrite (entity_findMany_in_range _ _ Hrange), Hcount. done.
Qed.

Lemma repeated_remove_id_rejected_witness :
  ∃ e, applyEntitiesDuplicateMergeController no_dates (λ _, "")
         repeated_remove_payload sample_env (mk_world three_pairs_db [])
       = (inl (Refused e), mk_world three_pairs_db []) ∧
       (ValidationError e ∨ NotFoundError e).
Proof.
  refine (proj1 (proj2 (repeated_remove_id_rejected no_dates (λ _, "")
            repeated_remove_payload sample_env (mk_world three_pairs_db [])
            [2; 2] eq_refl _)) _ _).
  - intros Hnd. apply NoDup_cons in Hnd as [Hnotin _].
    apply Hnotin. left.
  - by eexists.
  - intros keep i [= <-] Hi.
    repeat (apply elem_of_cons in Hi as [->|Hi]; [done|]).
    by apply elem_of_nil in Hi.
Defined.

(** Entities 1 and 2 are both live, yet removing [2; 2] is refused; the
    message lists no id. *)
Example repeated_remove_id_message :
  live three_pairs_db 1 ∧ live three_pairs_db 2 ∧
  applyEntitiesDuplicateMergeController no_dates (λ _, "")
    repeated_remove_payload sample_env (mk_world three_pairs_db [])
  = (inl (Refused (BadRequest "Invalid entity IDs:  not found or already deleted")),
     mk_world three_pairs_db []).
Proof.
  split_and!.
  - split; [done|]. eexists. split; [vm_compute; reflexivity|done].
  - split; [done|]. eexists. split; [vm_compute; reflexivity|done].
  - vm_compute. reflexivity.
Qed.

(** A removed id that is already soft-deleted is named by the error, and
    nothing changes. *)
Example soft_deleted_remove_id_scenario :
  let db := set_entity (<[2 := soft_delete_entity 500 (plain_entity "Acme")]>
                          (db_entity merge_db)) merge_db in
  applyEntitiesDuplicateMergeController no_dates (λ _, "")
    merge_payload sample_env (mk_world db [])
  = (inl (Refused (BadRequest "Invalid entity IDs: 2 not found or already deleted")),
     mk_world db []).
Proof. vm_compute. reflexivity. Qed.

(** ** The transaction *)

Lemma tx_for_invariant {Err A S} (P : S → Prop) (f : S → A → Err + S)
    (l : list A) (st st' : S) :
  (∀ s x s', x ∈ l → P s → f s x = inr s' → P s') →
  P st → tx_for f st l = inr st' → P st'.
Proof.
  revert st. induction l as [|x l IH]; intros st Hf Hst; simpl.
  - by intros [= <-].
  - destruct (f st x) as [e|s1] eqn:E; simpl; [done|].
    apply IH.
    + intros s y s' Hy. apply Hf. by right.
    + eapply Hf; [left|done..].
Qed.

Lemma table_updateMany_lookup {R} (ids : list Z) (f : R → R) (t : gmap Z R) (k : Z) :
  table_updateMany ids f t !! k
  = (λ r, if bool_decide (k ∈ ids) then f r else r) <$> t !! k.
Proof.
  unfold table_updateMany. rewrite map_lookup_imap.
  by destruct (t !! k).
Qed.

Section transaction_facts.
Variable parse_date : string → option Z.
Variable v : validated.
Variable now_ : Z.

Lemma upsert_person_entity (db db' : database) (person : person_payload) :
  upsert_person parse_date v now_ db person = inr db' →
  db_entity db' = db_entity db.
Proof.
  unfold upsert_person. destruct (_ && _).
  - destruct (table_update _ _ _ _); simpl; [done|]. by intros [= <-].
  - destruct (table_create _ _ _ _); simpl; [done|]. by intros [= <-].
Qed.

Lemma upsert_address_entity (db db' : database) (addr : address_payload) :
  upsert_address parse_date v now_ db addr = inr db' →
  db_entity db' = db_entity db.
Proof.
  unfold upsert_address.
  destruct (truthy_id _); [destruct (find _ _)|].
  - destruct (table_update _ _ _ _); simpl; [done|]. by intros [= <-].
  - destruct (table_create _ _ _ _); simpl; [done|]. by intros [= <-].
  - destruct (table_create _ _ _ _); simpl; [done|]. by intros [= <-].
Qed.

Lemma upsert_property_entity (db db' : database) (prop : property_payload) :
  upsert_property parse_date v now_ db prop = inr db' →
  db_entity db' = db_entity db.
Proof.
  unfold upsert_property.
  destruct (truthy_id _); [destruct (find _ _)|].
  - destruct (table_update _ _ _ _); simpl; [done|]. by intros [= <-].
  - destruct (table_create _ _ _ _); simpl; [done|]. by intros [= <-].
  - destruct (table_create _ _ _ _); simpl; [done|]. by intros [= <-].
Qed.

Lemma delete_old_people_entity (db : database) :
  db_entity (delete_old_people v now_ db) = db_entity db.
Proof. unfold delete_old_people. by destruct (_ <? _)%nat. Qed.

Lemma delete_old_addresses_entity (db : database) :
  db_entity (delete_old_addresses v now_ db) = db_entity db.
Proof. unfold delete_old_addresses. by destruct (_ <? _)%nat. Qed.

Lemma delete_old_properties_entity (db : database) :
  db_entity (delete_old_properties v db) = db_entity db.
Proof. unfold delete_old_properties. by destruct (_ <? _)%nat. Qed.
End transaction_facts.

(** The entity table after a committed transaction: the kept row is
    updated, then the removed rows are flagged. *)
Lemma transaction_entity_table parse_date (v : validated) (env : environment)
    (w w' : world) :
  transaction parse_date v env w = inr w' →
  ∃ e0, db_entity (w_db w) !! v_keep v = Some e0 ∧
    db_entity (w_db w')
    = table_updateMany (v_remove v) (soft_delete_entity (now env))
        (<[v_keep v := update_kept v (now env) e0]> (db_entity (w_db w))).
Proof.
  unfold transaction, statements, table_update.
  destruct (db_entity (w_db w) !! v_keep v) as [e0|] eqn:Hkept; simpl; [|done].
  set (db1 := set_entity _ _).
  destruct (tx_for (upsert_person _ _ _) db1 _) as [[]|db2] eqn:Hpeople;
    simpl; [done|].
  destruct (tx_for (upsert_address _ _ _) _ _) as [[]|db3] eqn:Haddr;
    simpl; [done|].
  destruct (tx_for (upsert_property _ _ _) _ _) as [[]|db4] eqn:Hprop;
    simpl; [done|].
  destruct (log_ok env); [|done]. destruct (commit_ok env); [|done].
  intros [= <-]. simpl.
  exists e0. split; [done|].
  assert (H2 : db_entity db2 = db_entity db1).
  { eapply (tx_for_invariant (λ db, db_entity db = db_entity db1));
      [|reflexivity|exact Hpeople].
    intros s x s' _ Hs Hx. by rewrite (upsert_person_entity _ _ _ _ _ _ Hx). }
  assert (H3 : db_entity db3 = db_entity db1).
  { eapply (tx_for_invariant (λ db, db_entity db = db_entity db1));
      [| |exact Haddr].
    - intros s x s' _ Hs Hx. by rewrite (upsert_address_entity _ _ _ _ _ _ Hx).
    - simpl. by rewrite delete_old_people_entity. }
  assert (H4 : db_entity db4 = db_entity db1).
  { eapply (tx_for_invariant (λ db, db_entity db = db_entity db1));
      [| |exact Hprop].
    - intros s x s' _ Hs Hx. by rewrite (upsert_property_entity _ _ _ _ _ _ Hx).
    - simpl. by rewrite delete_old_addresses_entity. }
  by rewrite delete_old_properties_entity, H4.
Qed.

(** ** The merge controllers *)

(** C1: when a merge request passes validation and its transaction
    commits, the entity [keep_entity_id] is not deleted afterwards and
    every entity of [remove_entity_ids] is flagged deleted with the
    deletion timestamp of the transaction. *)
Theorem merge_postcondition parse_date error_message
    (payload : ApplyMergePayload) (env : environment) (w w' : world)
    (s : merge_success) :
  applyEntitiesDuplicateMergeController parse_date error_message payload env w
    = (inr s, w') →
  ∃ keep remove,
    keep_entity_id payload = Some keep ∧
    remove_entity_ids payload = Some remove ∧
    merged_entity_id s = keep ∧ deleted_entity_ids_out s = remove ∧
    applied s = true ∧
    (∃ e, db_entity (w_db w') !! keep = Some e ∧ entity_is_deleted e = false) ∧
    ∀ id, id ∈ remove →
      ∃ e, db_entity (w_db w') !! id = Some e ∧
           entity_is_deleted e = true ∧
           entity_deleted_at e = Some (now env).
Proof.
  unfold applyEntitiesDuplicateMergeController.
  destruct (merged_entity payload) as [me|]; [|done].
  destruct (validation payload (w_db w)) as [?|v] eqn:Hval; [done|].
  destruct (transaction parse_date v env w) as [[]|w1] eqn:Htx; [done|].
  intros [= <- <-].
  apply validation_inr in Hval
    as ((Hkeep & _ & Hremove & _ & Hnotin & _) & _ & _ & _ & _ & Hlive & _).
  apply transaction_entity_table in Htx as (e0 & He0 & Htable).
  exists (v_keep v), (v_remove v). simpl. split_and!; try done.
  - destruct (Hlive (v_keep v)) as (_ & e & He & Hdel); [left|].
    rewrite He0 in He. injection He as ->.
    exists (update_kept v (now env) e). rewrite Htable, table_updateMany_lookup.
    rewrite lookup_insert_eq. simpl.
    by rewrite bool_decide_eq_false_2.
  - intros id Hid. destruct (Hlive id) as (_ & e & He & Hdel); [by right|].
    assert (id ≠ v_keep v) by (by intros ->).
    exists (soft_delete_entity (now env) e).
    rewrite Htable, table_updateMany_lookup, lookup_insert_ne by done.
    rewrite He. simpl. by rewrite bool_decide_eq_true_2.
Qed.

Lemma merge_postcondition_witness :
  ∃ w' e1 e2,
    applyEntitiesDuplicateMergeController no_dates (λ _, "")
      merge_payload sample_env merge_world
    = (inr {| merged_entity_id := 1; deleted_entity_ids_out := [2];
              applied := true |}, w') ∧
    db_entity (w_db w') !! 1 = Some e1 ∧ entity_is_deleted e1 = false ∧
    db_entity (w_db w') !! 2 = Some e2 ∧ entity_is_deleted e2 = true ∧
    entity_deleted_at e2 = Some 1000.
Proof.
  destruct (applyEntitiesDuplicateMergeController no_dates (λ _, "")
              merge_payload sample_env merge_world) as [r w'] eqn:Hrun.
  assert (Hr : r = inr {| merged_entity_id := 1; deleted_entity_ids_out := [2];
                          applied := true |}).
  { pose proof (f_equal fst Hrun) as Hfst. vm_compute in Hfst. by symmetry. }
  subst r.
  destruct (merge_postcondition _ _ _ _ _ _ _ Hrun)
    as (keep & remove & [= <-] & [= <-] & _ & _ & _ & (e1 & He1 & Hd1) & Hrem).
  destruct (Hrem 2) as (e2 & He2 & Hd2 & Ht2); [left|].
  exists w', e1, e2. done.
Defined.

(** The committed world of the sample merge. *)
Example merge_sample_result :
  let w' := (applyEntitiesDuplicateMergeController no_dates (λ _, "")
               merge_payload sample_env merge_world).2 in
  table_rows (db_entity (w_db w'))
  = [(1, {| entity_name := Some "Acme Ltd"; entity_trade_name := None;
            entity_type := 2; entity_is_deleted := false;
            entity_deleted_at := None; entity_updated_at := Some 1000 |});
     (2, {| entity_name := Some "Acme"; entity_trade_name := None;
            entity_type := 2; entity_is_deleted := true;
            entity_deleted_at := Some 1000; entity_updated_at := None |})] ∧
  (table_rows (db_people (w_db w'))).*1 = [10; 20] ∧
  (table_rows (db_address (w_db w'))).*1 = [30; 40; 41] ∧
  include_properties 1 (w_db w')
  = [(7, created_property 1 1000
           {| ep_entity_property_id := 6; ep_property_id := 7;
              ep_property_value := Some "b@x.org";
              ep_is_primary := Some "Yes"; ep_created_at := DateNull |});
     (8, created_property 1 1000
           {| ep_entity_property_id := 0; ep_property_id := 8;
              ep_property_value := Some "555";
              ep_is_primary := Some "No"; ep_created_at := DateNull |})] ∧
  (table_rows (db_entity_property (w_db w'))).*1 = [7; 8] ∧
  length (w_logs w') = 1%nat.
Proof. vm_compute. done. Qed.

(** C3 does not hold on the code: a validated request whose property list
    names a property the kept entity already owns (here property 5 of
    entity 1) is not applied. Line 235 deletes the row, line 249 then
    updates it by id, the update fails, and the transaction is rolled
    back: the request ends in an error and entity 1 keeps its old
    property row instead of the supplied one. *)
Theorem own_property_id_aborts_merge (error_message : tx_error → string) :
  (∃ v aborted,
     validation merge_payload_own_property merge_db = inr v ∧
     transaction no_dates v sample_env merge_world
     = inl (RecordNotFound "entity_property" 5, aborted)) ∧
  applyEntitiesDuplicateMergeController no_dates error_message
    merge_payload_own_property sample_env merge_world
  = (inl (Refused (BadRequest
            ("Failed to apply merge: "
             +:+ error_message (RecordNotFound "entity_property" 5)))),
     merge_world) ∧
  include_properties 1 merge_db = [(5, plain_property 1 7 "a@x.org" "No")].
Proof.
  split_and!.
  - eexists _, _. split; vm_compute; reflexivity.
  - vm_compute. reflexivity.
  - vm_compute. reflexivity.
Qed.

(** What an aborted transaction has reached: the audit sink is as it
    was, unless the commit itself failed, after the file was written. *)
Lemma transaction_aborted parse_date (v : validated) (env : environment)
    (w aborted : world) (e : tx_error) :
  transaction parse_date v env w = inl (e, aborted) →
  w_logs aborted = w_logs w ∧ e ≠ CommitFailed ∨
  e = CommitFailed ∧ log_ok env = true ∧ commit_ok env = false ∧
  w_logs aborted = w_logs w ++ [merge_audit v (now env)].
Proof.
  unfold transaction.
  destruct (statements parse_date v (now env) (w_db w)) as [[e' db]|db] eqn:Hst.
  - intros [= <- <-]. left. split; [done|]. intros ->.
    revert Hst. unfold statements, tx_stmt, table_update.
    destruct (db_entity (w_db w) !! v_keep v); simpl; [|done].
    set (db1 := set_entity _ _).
    assert (Hfor : ∀ {A} (f : database → A → tx_error * database + database)
              (l : list A) (st db' : database),
              (∀ s x db', f s x ≠ inl (CommitFailed, db')) →
              tx_for f st l ≠ inl (CommitFailed, db')).
    { intros A f l. induction l as [|x l IH]; intros st db' Hf; simpl; [done|].
      destruct (f st x) as [[e1 d1]|s1] eqn:E; simpl.
      - intros [= -> ->]. by apply (Hf st x db').
      - by apply IH. }
    destruct (tx_for (upsert_person _ _ _) db1 _) as [[e1 d1]|db2] eqn:Hp; simpl.
    { intros [= -> ->]. revert Hp. apply Hfor. intros s x d.
      unfold upsert_person, tx_stmt. destruct (_ && _).
      - unfold table_update; by destruct (_ !! _).
      - unfold table_create; by destruct (_ !! _). }
    destruct (tx_for (upsert_address _ _ _) _ _) as [[e1 d1]|db3] eqn:Ha; simpl.
    { intros [= -> ->]. revert Ha. apply Hfor. intros s x d.
      unfold upsert_address, tx_stmt.
      destruct (truthy_id _); [destruct (find _ _)|].
      - unfold table_update; by destruct (_ !! _).
      - unfold table_create; by destruct (_ !! _).
      - unfold table_create; by destruct (_ !! _). }
    destruct (tx_for (upsert_property _ _ _) _ _) as [[e1 d1]|db4] eqn:Hq; simpl;
      [|done].
    intros [= -> ->]. revert Hq. apply Hfor. intros s x d.
    unfold upsert_property, tx_stmt.
    destruct (truthy_id _); [destruct (find _ _)|].
    + unfold table_update; by destruct (_ !! _).
    + unfold table_create; by destruct (_ !! _).
    + unfold table_create; by destruct (_ !! _).
  - destruct (log_ok env); [|intros [= <- <-]; by left].
    destruct (commit_ok env); [done|]. intros [= <- <-]. by right.
Qed.

(** The shape of a response: an error leaves the rows of every table as
    they were, and the audit sink too unless the commit itself failed; a
    success echoes the ids of the request with [applied: true]. *)
Lemma merge_result_shape parse_date error_message
    (payload : ApplyMergePayload) (env : environment) (w w' : world)
    (r : merge_error + merge_success) :
  applyEntitiesDuplicateMergeController parse_date error_message payload env w
    = (r, w') →
  match r with
  | inl _ => same_rows (w_db w) (w_db w') ∧
             (w_logs w' = w_logs w ∨
              commit_ok env = false ∧ ∃ record, w_logs w' = w_logs w ++ [record])
  | inr s => applied s = true ∧
             keep_entity_id payload = Some (merged_entity_id s) ∧
             remove_entity_ids payload = Some (deleted_entity_ids_out s)
  end.
Proof.
  unfold applyEntitiesDuplicateMergeController.
  destruct (merged_entity payload) as [me|];
    [|intros [= <- <-]; split; [done|by left]].
  destruct (validation payload (w_db w)) as [?|v] eqn:Hval;
    [intros [= <- <-]; split; [done|by left]|].
  destruct (transaction parse_date v env w) as [[e aborted]|w1] eqn:Htx.
  - intros [= <- <-]. split; [done|]. simpl.
    destruct (transaction_aborted _ _ _ _ _ _ Htx)
      as [[Hlogs _]|(_ & _ & Hc & Hlogs)]; [by left|].
    right. split; [done|]. by eexists.
  - intros [= <- <-]. simpl.
    apply validation_inr in Hval as ((Hkeep & _ & Hremove & _) & _). done.
Qed.

(** C9: the two merge controllers behave identically: for every payload,
    environment and initial world they return the same response and
    leave the same world; a success is [{ merged_entity_id,
    deleted_entity_ids, applied: true }] for the ids of the request, an
    error leaves the rows of every table unchanged. *)
Theorem merge_controllers_agree parse_date error_message
    (payload : ApplyMergePayload) (env : environment) (w : world) :
  applyEntitiesDuplicateMergeManuallyController parse_date error_message
    payload env w
  = applyEntitiesDuplicateMergeController parse_date error_message
      payload env w ∧
  (∀ s w',
     applyEntitiesDuplicateMergeController parse_date error_message
       payload env w = (inr s, w') →
     applyEntitiesDuplicateMergeManuallyController parse_date error_message
       payload env w = (inr s, w') ∧
     applied s = true ∧
     keep_entity_id payload = Some (merged_entity_id s) ∧
     remove_entity_ids payload = Some (deleted_entity_ids_out s)) ∧
  (∀ e w',
     applyEntitiesDuplicateMergeController parse_date error_message
       payload env w = (inl e, w') →
     applyEntitiesDuplicateMergeManuallyController parse_date error_message
       payload env w = (inl e, w') ∧ same_rows (w_db w) (w_db w')).
Proof.
  split_and!.
  - reflexivity.
  - intros s w' Hrun. split; [exact Hrun|].
    exact (merge_result_shape _ _ _ _ _ _ _ Hrun).
  - intros e w' Hrun. split; [exact Hrun|].
    exact (proj1 (merge_result_shape _ _ _ _ _ _ _ Hrun)).
Qed.

Lemma merge_controllers_agree_witness :
  ∃ w',
    applyEntitiesDuplicateMergeController no_dates (λ _, "")
      merge_payload sample_env merge_world
    = (inr {| merged_entity_id := 1; deleted_entity_ids_out := [2];
              applied := true |}, w') ∧
    applyEntitiesDuplicateMergeManuallyController no_dates (λ _, "")
      merge_payload sample_env merge_world
    = (inr {| merged_entity_id := 1; deleted_entity_ids_out := [2];
              applied := true |}, w').
Proof.
  destruct (applyEntitiesDuplicateMergeController no_dates (λ _, "")
              merge_payload sample_env merge_world) as [r w'] eqn:Hrun.
  assert (Hr : r = inr {| merged_entity_id := 1; deleted_entity_ids_out := [2];
                          applied := true |}).
  { pose proof (f_equal fst Hrun) as Hfst. vm_compute in Hfst. by symmetry. }
  subst r. exists w'. split; [reflexivity|].
  destruct (merge_controllers_agree no_dates (λ _, "") merge_payload
              sample_env merge_world) as (_ & Hok & _).
  exact (proj1 (Hok _ _ Hrun)).
Defined.

(** ** Full replace of the kept entity's properties *)

Lemma elem_of_concat {A} (x : A) (ls : list (list A)) :
  x ∈ concat ls ↔ ∃ l, x ∈ l ∧ l ∈ ls.
Proof.
  rewrite list_elem_of_In, in_concat. setoid_rewrite list_elem_of_In.
  split; intros (l & ? & ?); by exists l.
Qed.

Lemma include_properties_elem (eid : Z) (db : database) (k : Z)
    (r : entity_property) :
  (k, r) ∈ include_properties eid db
  ↔ db_entity_property db !! k = Some r ∧ property_entity_id r = eid.
Proof. unfold include_properties. by rewrite findMany_elem, Z.eqb_eq. Qed.

Lemma fetch_entities_includes (allEntityIds : list Z) (db : database)
    (fe : fetched_entity) :
  fe ∈ fetch_entities allEntityIds db →
  fe_properties fe = include_properties (fe_entity_id fe) db.
Proof.
  unfold fetch_entities. by intros ([k e] & -> & _)%list_elem_of_fmap.
Qed.

Lemma created_rows_keys_ge keep now_ next props k r :
  (k, r) ∈ created_rows keep now_ next props →
  next ≤ k ∧ property_entity_id r = keep.
Proof.
  revert next. induction props as [|p props IH]; intros next; simpl.
  - by intros ?%elem_of_nil.
  - intros [[= -> ->]|Hin]%elem_of_cons; [split; [lia|done]|].
    apply IH in Hin. split; [lia|tauto].
Qed.

Lemma created_rows_lookup keep now_ next props k r :
  (list_to_map (created_rows keep now_ next props) : gmap Z entity_property) !! k
    = Some r ↔ (k, r) ∈ created_rows keep now_ next props.
Proof.
  symmetry. apply elem_of_list_to_map.
  revert next. induction props as [|p props IH]; intros next; simpl; [constructor|].
  apply NoDup_cons. split; [|apply IH].
  intros ([k' r'] & Heq & Hin)%list_elem_of_fmap. simpl in Heq. subst k'.
  apply created_rows_keys_ge in Hin. lia.
Qed.

Section replace.
Variable parse_date : string → option Z.
Variable v : validated.
Variable now_ : Z.

(** A turn of the loop that succeeds has inserted a new row. *)
Lemma upsert_property_creates (s s' : database) (p : property_payload) :
  replace_ready v s →
  upsert_property parse_date v now_ s p = inr s' →
  s' = set_entity_property
         (<[seq_entity_property s := created_property (v_keep v) now_ p]>
            (db_entity_property s))
         (seq_entity_property s + 1) s ∧
  ¬ (ep_entity_property_id p ≠ 0 ∧ ep_entity_property_id p ∈ kept_property_ids v).
Proof.
  intros [Hkeys Hkept]. unfold upsert_property, table_create, table_update.
  destruct (truthy_id (ep_entity_property_id p)) eqn:Hid.
  - destruct (find _ _) as [existing|] eqn:Hfind.
    + apply find_some in Hfind as [Hin Heq]. apply Z.eqb_eq in Heq.
      assert (ep_entity_property_id p ∈ kept_property_ids v) as Hown.
      { unfold kept_property_ids. apply list_elem_of_fmap. exists existing.
        split; [done|]. by apply list_elem_of_In. }
      destruct (Hkept _ Hown) as [-> _]. done.
    + destruct (db_entity_property s !! seq_entity_property s); simpl; [done|].
      intros [= <-]. split; [done|]. intros [_ Hown].
      apply list_elem_of_fmap in Hown as (existing & Heq & Hin).
      apply list_elem_of_In in Hin.
      pose proof (find_none _ _ Hfind _ Hin) as Hne. simpl in Hne.
      apply Z.eqb_neq in Hne. done.
  - destruct (db_entity_property s !! seq_entity_property s); simpl; [done|].
    intros [= <-]. split; [done|]. intros [Hne _].
    apply truthy_id_true in Hne. congruence.
Qed.

Lemma replace_ready_step (s : database) (p : property_payload) :
  replace_ready v s →
  replace_ready v
    (set_entity_property
       (<[seq_entity_property s := created_property (v_keep v) now_ p]>
          (db_entity_property s))
       (seq_entity_property s + 1) s).
Proof.
  intros [Hkeys Hkept]. split; simpl.
  - intros k. rewrite lookup_insert. case_decide; [lia|].
    intros Hk. apply Hkeys in Hk. lia.
  - intros k Hk. destruct (Hkept k Hk) as [Hnone Hlt].
    rewrite lookup_insert_ne by lia. split; [done|lia].
Qed.

(** The whole loop, when it succeeds, has inserted one new row per
    supplied property, and no supplied property named a property of the
    kept entity. *)
Lemma upsert_properties_create (props : list property_payload) (s s' : database) :
  replace_ready v s →
  tx_for (upsert_property parse_date v now_) s props = inr s' →
  db_entity_property s'
  = list_to_map (created_rows (v_keep v) now_ (seq_entity_property s) props)
    ∪ db_entity_property s ∧
  ∀ p, p ∈ props →
    ¬ (ep_entity_property_id p ≠ 0 ∧ ep_entity_property_id p ∈ kept_property_ids v).
Proof.
  revert s. induction props as [|p props IH]; intros s Hready; simpl.
  - intros [= <-]. split; [by rewrite (left_id_L ∅ (∪))|].
    by intros p ?%elem_of_nil.
  - destruct (upsert_property parse_date v now_ s p) as [?|s1] eqn:Hstep;
      simpl; [done|].
    apply upsert_property_creates in Hstep as [-> Hp]; [|done].
    intros Hrest. apply IH in Hrest as [Htable Hall]; [|by apply replace_ready_step].
    simpl in Htable. split.
    + rewrite Htable. rewrite <- insert_union_l. symmetry. apply insert_union_r.
      destruct (list_to_map _ !! _) as [r|] eqn:Hlook; [|done].
      apply created_rows_lookup, created_rows_keys_ge in Hlook. lia.
    + intros q [->|Hq]%elem_of_cons; auto.
Qed.
End replace.

Section replace_facts.
Variable parse_date : string → option Z.
Variable v : validated.
Variable now_ : Z.

Lemma upsert_person_properties (db db' : database) (person : person_payload) :
  upsert_person parse_date v now_ db person = inr db' →
  db_entity_property db' = db_entity_property db ∧
  seq_entity_property db' = seq_entity_property db.
Proof.
  unfold upsert_person. destruct (_ && _).
  - destruct (table_update _ _ _ _); simpl; [done|]. by intros [= <-].
  - destruct (table_create _ _ _ _); simpl; [done|]. by intros [= <-].
Qed.

Lemma upsert_address_properties (db db' : database) (addr : address_payload) :
  upsert_address parse_date v now_ db addr = inr db' →
  db_entity_property db' = db_entity_property db ∧
  seq_entity_property db' = seq_entity_property db.
Proof.
  unfold upsert_address.
  destruct (truthy_id _); [destruct (find _ _)|].
  - destruct (table_update _ _ _ _); simpl; [done|]. by intros [= <-].
  - destruct (table_create _ _ _ _); simpl; [done|]. by intros [= <-].
  - destruct (table_create _ _ _ _); simpl; [done|]. by intros [= <-].
Qed.

Lemma delete_old_people_properties (db : database) :
  db_entity_property (delete_old_people v now_ db) = db_entity_property db ∧
  seq_entity_property (delete_old_people v now_ db) = seq_entity_property db.
Proof. unfold delete_old_people. by destruct (_ <? _)%nat. Qed.

Lemma delete_old_addresses_properties (db : database) :
  db_entity_property (delete_old_addresses v now_ db) = db_entity_property db ∧
  seq_entity_property (delete_old_addresses v now_ db) = seq_entity_property db.
Proof. unfold delete_old_addresses. by destruct (_ <? _)%nat. Qed.
End replace_facts.

(** What a committed transaction leaves in the property table, for a
    database whose property keys are below the sequence: the kept entity
    owns exactly one new row per supplied property, and no supplied
    property named a property the kept entity owned. *)
Lemma committed_merge_replaces_properties parse_date
    (payload : ApplyMergePayload) (v : validated) (env : environment)
    (w w' : world) :
  sequence_ok (w_db w) →
  validation payload (w_db w) = inr v →
  transaction parse_date v env w = inr w' →
  (∀ k r, db_entity_property (w_db w') !! k = Some r
          ∧ property_entity_id r = v_keep v
          ↔ (k, r) ∈ created_rows (v_keep v) (now env)
                       (seq_entity_property (w_db w)) (v_properties v)) ∧
  ∀ p, p ∈ v_properties v →
    ¬ (ep_entity_property_id p ≠ 0 ∧
       ∃ r, db_entity_property (w_db w) !! ep_entity_property_id p = Some r ∧
            property_entity_id r = v_keep v).
Proof.
  intros Hseq Hval.
  apply validation_inr in Hval
    as (_ & _ & _ & _ & _ & _ & Hkept & Hkeptid & Hremoved).
  apply fetch_entities_includes in Hkept. rewrite Hkeptid in Hkept.
  unfold transaction, statements, table_update.
  destruct (db_entity (w_db w) !! v_keep v) as [e0|]; simpl; [|done].
  set (db1 := set_entity _ _).
  destruct (tx_for (upsert_person _ _ _) db1 _) as [[]|db2] eqn:Hpeople; simpl; [done|].
  destruct (tx_for (upsert_address _ _ _) _ _) as [[]|db3] eqn:Haddr; simpl; [done|].
  destruct (tx_for (upsert_property _ _ _) _ _) as [[]|db4] eqn:Hprop; simpl; [done|].
  destruct (log_ok env); [|done]. destruct (commit_ok env); [|done].
  intros [= <-]. simpl.
  set (orig := db_entity_property (w_db w)) in *.
  set (seq0 := seq_entity_property (w_db w)) in *.
  assert (H2 : db_entity_property db2 = orig ∧ seq_entity_property db2 = seq0).
  { eapply (tx_for_invariant
      (λ db, db_entity_property db = orig ∧ seq_entity_property db = seq0)
      _ _ db1 db2); [|done|exact Hpeople].
    intros s x s' _ [Hs1 Hs2] Hx.
    apply upsert_person_properties in Hx as [-> ->]. done. }
  assert (H3 : db_entity_property db3 = orig ∧ seq_entity_property db3 = seq0).
  { eapply (tx_for_invariant
      (λ db, db_entity_property db = orig ∧ seq_entity_property db = seq0));
      [| |exact Haddr].
    - intros s x s' _ [Hs1 Hs2] Hx.
      apply upsert_address_properties in Hx as [-> ->]. done.
    - destruct (delete_old_people_properties v (now env) db2) as [-> ->]. done. }
  subst orig seq0.
  destruct H3 as [H3t H3s].
  destruct (delete_old_addresses_properties v (now env) db3) as [H3t' H3s'].
  rewrite H3t in H3t'. rewrite H3s in H3s'.
  apply upsert_properties_create in Hprop as [Htable Hnone].
  2:{ split; simpl; rewrite H3t', H3s'.
      - intros k [r [Hr _]%map_lookup_filter_Some]. apply Hseq. by eexists.
      - intros k ([k' r] & -> & Hin)%list_elem_of_fmap. rewrite Hkept in Hin.
        apply include_properties_elem in Hin as [Hlook Hown]. simpl. split.
        + apply map_lookup_filter_None. right. intros r' Hr'. simpl.
          rewrite Hlook in Hr'. injection Hr' as <-. by intros ?.
        + apply Hseq. by eexists. }
  simpl in Htable. rewrite H3t', H3s' in Htable.
  split.
  - intros k r. rewrite <- created_rows_lookup.
    assert (Hfinal : db_entity_property (delete_old_properties v db4) !! k = Some r
                     ∧ property_entity_id r = v_keep v
                     ↔ db_entity_property db4 !! k = Some r
                       ∧ property_entity_id r = v_keep v).
    { unfold delete_old_properties. destruct (_ <? _)%nat; [|done]. simpl.
      unfold table_deleteMany_in. rewrite map_lookup_filter_Some. simpl.
      split; [tauto|]. intros [Hlook Hown]. split_and!; [done| |done].
      intros ([k' r'] & -> & Hin)%list_elem_of_fmap.
      apply elem_of_concat in Hin as (rows & Hin & Hrows).
      apply list_elem_of_fmap in Hrows as (fe & -> & Hfe).
      apply Hremoved, fetch_entities_includes in Hfe. rewrite Hfe in Hin.
      apply include_properties_elem in Hin as [Hold _]. simpl in *.
      assert (k' < seq_entity_property (w_db w)) by (apply Hseq; by eexists).
      rewrite Htable in Hlook. apply lookup_union_Some_raw in Hlook as [Hnew|[_ Hrest]].
      - apply created_rows_lookup, created_rows_keys_ge in Hnew. lia.
      - apply map_lookup_filter_Some in Hrest as [_ Hne]. simpl in Hne. done. }
    rewrite Hfinal, Htable. split.
    + intros [[Hnew|[_ Hrest]]%lookup_union_Some_raw Hown]; [done|].
      apply map_lookup_filter_Some in Hrest as [_ Hne]. simpl in Hne. done.
    + intros Hnew. split; [by apply lookup_union_Some_l|].
      by apply created_rows_lookup, created_rows_keys_ge in Hnew as [_ ?].
  - intros p Hp [Hid (r & Hlook & Hown)]. apply (Hnone p Hp). split; [done|].
    unfold kept_property_ids. rewrite Hkept. apply list_elem_of_fmap.
    exists (ep_entity_property_id p, r). split; [done|].
    by apply include_properties_elem.
Qed.

(** Hence every validated request that names a property already owned by
    the kept entity is refused by the transaction. *)
Lemma own_property_id_always_aborts parse_date
    (payload : ApplyMergePayload) (v : validated) (env : environment)
    (w : world) (p : property_payload) (r : entity_property) :
  sequence_ok (w_db w) →
  validation payload (w_db w) = inr v →
  p ∈ v_properties v → ep_entity_property_id p ≠ 0 →
  db_entity_property (w_db w) !! ep_entity_property_id p = Some r →
  property_entity_id r = v_keep v →
  ∃ e, transaction parse_date v env w = inl e.
Proof.
  intros Hseq Hval Hp Hid Hlook Hown.
  destruct (transaction parse_date v env w) as [e|w'] eqn:Htx; [by exists e|].
  destruct (committed_merge_replaces_properties _ _ _ _ _ _ Hseq Hval Htx)
    as [_ Hnone].
  destruct (Hnone p Hp). split; [done|]. by exists r.
Qed.

(** * Further properties *)

(** ** Grouping is complete *)

Lemma NoDup_fst_filter_keys {K V} (f : K * V → bool) (l : list (K * V)) :
  NoDup l.*1 → NoDup (List.filter f l).*1.
Proof.
  induction l as [|[k v] l IH]; [done|].
  rewrite fmap_cons. intros [Hk Hl]%NoDup_cons. cbn [List.filter].
  destruct (f (k, v)); [|by apply IH].
  rewrite fmap_cons. apply NoDup_cons. split; [|by apply IH].
  intros ([k' v'] & Heq & Hin)%list_elem_of_fmap. simpl in Heq. subst k'.
  apply Hk. apply list_elem_of_fmap. exists (k, v'). split; [done|].
  apply list_elem_of_In in Hin. apply filter_In in Hin as [Hin _].
  by apply list_elem_of_In.
Qed.

Section grouping_complete.
Context {A : Type} (key : A → string).

Lemma group_of_push (k k' : string) (x : A) (m : list (string * list A)) :
  group_of k (push_group k' x m)
  = if String.eqb k' k then group_of k m ++ [x] else group_of k m.
Proof.
  unfold group_of. induction m as [|[k0 g0] m IH]; simpl.
  - by destruct (String.eqb k' k).
  - destruct (String.eqb k0 k') eqn:E0; simpl.
    + apply string_eqb_true in E0 as ->. by destruct (String.eqb k' k).
    + destruct (String.eqb k0 k) eqn:E1; simpl; [|exact IH].
      apply string_eqb_true in E1 as ->.
      destruct (String.eqb k' k) eqn:E2; [|done].
      apply string_eqb_true in E2 as ->.
      by rewrite (proj2 (string_eqb_true k k) eq_refl) in E0.
Qed.

Lemma push_group_keys (k : string) (x : A) (m : list (string * list A)) :
  (push_group k x m).*1 = if bool_decide (k ∈ m.*1) then m.*1 else m.*1 ++ [k].
Proof.
  induction m as [|[k0 g0] m IH]; [done|].
  cbn [push_group]. destruct (String.eqb k0 k) eqn:E; rewrite !fmap_cons; cbn [fst].
  - apply string_eqb_true in E as ->. rewrite bool_decide_eq_true_2; [done|left].
  - apply string_eqb_false in E. rewrite IH.
    destruct (decide (k ∈ m.*1)).
    + rewrite !bool_decide_eq_true_2; [done|by right|done].
    + rewrite !bool_decide_eq_false_2; [done| |done].
      intros [?|?]%elem_of_cons; [by subst|done].
Qed.

Lemma push_group_NoDup (k : string) (x : A) (m : list (string * list A)) :
  NoDup m.*1 → NoDup (push_group k x m).*1.
Proof.
  intros Hnd. rewrite push_group_keys. case_bool_decide; [done|].
  apply NoDup_app. split_and!; [done| |apply NoDup_singleton].
  intros k' Hk' ->%list_elem_of_singleton. done.
Qed.

Lemma build_groups_NoDup (rows : list A) : NoDup (build_groups key rows).*1.
Proof.
  unfold build_groups. generalize (NoDup_nil_2 (A:=string)).
  change (@nil string) with ((@nil (string * list A)).*1).
  generalize (@nil (string * list A)).
  induction rows as [|r rows IH]; intros m Hm; simpl; [done|].
  apply IH. unfold group_step. destruct (truthy (key r)); [|done].
  by apply push_group_NoDup.
Qed.

Lemma group_of_foldl (k : string) (rows : list A) (m : list (string * list A)) :
  k ≠ "" →
  group_of k (foldl (group_step key) m rows) = group_of k m ++ with_key key k rows.
Proof.
  intros Hk. revert m. induction rows as [|r rows IH]; intros m; simpl.
  - by rewrite app_nil_r.
  - rewrite IH. unfold group_step, with_key. simpl.
    destruct (String.eqb (key r) k) eqn:E.
    + apply string_eqb_true in E. rewrite (proj2 (truthy_true (key r))) by congruence.
      rewrite group_of_push, (proj2 (string_eqb_true _ _) E).
      by rewrite <- app_assoc.
    + destruct (truthy (key r)); [|done]. by rewrite group_of_push, E.
Qed.

Lemma group_of_elem (k : string) (g : list A) (m : list (string * list A)) :
  NoDup m.*1 → (k, g) ∈ m → group_of k m = g.
Proof.
  unfold group_of. induction m as [|[k0 g0] m IH]; simpl.
  - by intros _ ?%elem_of_nil.
  - intros [Hk0 Hnd]%NoDup_cons [[= -> ->]|Hin]%elem_of_cons.
    + by rewrite (proj2 (string_eqb_true k0 k0) eq_refl).
    + destruct (String.eqb k0 k) eqn:E; [|by apply IH].
      apply string_eqb_true in E as ->. destruct Hk0.
      apply list_elem_of_fmap. by exists (k, g).
Qed.

Lemma group_of_nonempty_elem (k : string) (m : list (string * list A)) :
  group_of k m ≠ [] → (k, group_of k m) ∈ m.
Proof.
  unfold group_of. destruct (find _ m) as [[k0 g0]|] eqn:Hfind; [|done].
  intros _. apply find_some in Hfind as [Hin Heq]. simpl in *.
  apply string_eqb_true in Heq as ->. by apply list_elem_of_In.
Qed.

(** The groups of the map are exactly the non-empty classes of the input
    under non-empty keys, each in input order. *)
Lemma build_groups_elem (rows : list A) (k : string) (g : list A) :
  (k, g) ∈ build_groups key rows
  ↔ k ≠ "" ∧ g ≠ [] ∧ g = with_key key k rows.
Proof.
  split.
  - intros Hin. destruct (build_groups_ok key rows _ _ Hin) as (Hk & Hg & _).
    split_and!; [done..|].
    rewrite <- (group_of_elem _ _ _ (build_groups_NoDup rows) Hin).
    unfold build_groups. by rewrite group_of_foldl.
  - intros (Hk & Hg & ->).
    assert (group_of k (build_groups key rows) = with_key key k rows) as Heq.
    { unfold build_groups. by rewrite group_of_foldl. }
    rewrite <- Heq. apply group_of_nonempty_elem. by rewrite Heq.
Qed.

Lemma duplicate_entries_iff (rows : list A) (k : string) (g : list A) :
  (k, g) ∈ duplicate_entries (build_groups key rows)
  ↔ k ≠ "" ∧ g = with_key key k rows ∧ (2 ≤ length g)%nat.
Proof.
  rewrite duplicate_entries_elem, build_groups_elem. split.
  - intros [(? & ? & ?) ?]. done.
  - intros (? & ? & Hlen). split_and!; try done. intros ->. simpl in Hlen. lia.
Qed.

Lemma duplicate_entries_NoDup (rows : list A) :
  NoDup (duplicate_entries (build_groups key rows)).*1.
Proof. apply NoDup_fst_filter_keys, build_groups_NoDup. Qed.
End grouping_complete.

(** Two rows with different keys pass a filter exactly when the filtered
    list has two entries or more. *)
Lemma two_rows_filter {R} (f : Z * R → bool) (l : list (Z * R)) :
  NoDup l.*1 →
  (2 ≤ length (List.filter f l))%nat
  ↔ ∃ x y, x ∈ l ∧ y ∈ l ∧ x.1 ≠ y.1 ∧ f x = true ∧ f y = true.
Proof.
  intros Hnd. pose proof (NoDup_fst_filter f l Hnd) as Hndf.
  assert (Hel : ∀ x, x ∈ List.filter f l ↔ x ∈ l ∧ f x = true).
  { intros x. by rewrite list_elem_of_In, filter_In, <- list_elem_of_In. }
  split.
  - destruct (List.filter f l) as [|x [|y rest]] eqn:Hf; simpl; [lia..|].
    intros _. exists x, y.
    assert (x ∈ x :: y :: rest) as Hx by left.
    assert (y ∈ x :: y :: rest) as Hy by (right; left).
    apply Hel in Hx as [? ?]. apply Hel in Hy as [? ?].
    split_and!; try done.
    simpl in Hndf. apply NoDup_cons in Hndf as [Hnotin _].
    intros Heq. apply Hnotin. rewrite Heq. left.
  - intros (x & y & Hx & Hy & Hne & Hfx & Hfy).
    assert (x ∈ List.filter f l) as Hx' by (by apply Hel).
    assert (y ∈ List.filter f l) as Hy' by (by apply Hel).
    destruct (List.filter f l) as [|a [|b rest]]; simpl; [|  |lia].
    + by apply elem_of_nil in Hx'.
    + apply list_elem_of_singleton in Hx', Hy'. congruence.
Qed.

(** ** What the duplicate-name controllers report *)

Lemma entityName_Some (e : Z * entity) (name : string) :
  name ≠ "" → (entityName e = name ↔ entity_name e.2 = Some name).
Proof.
  intros Hne. unfold entityName, or_empty. destruct (entity_name e.2); simpl.
  - split; congruence.
  - split; [congruence|done].
Qed.

Lemma names_of_duplicates {R} (key : Z * R → string) (rows : list (Z * R))
    (name : string) :
  NoDup rows.*1 →
  name ∈ (duplicate_entries (build_groups key rows)).*1
  ↔ name ≠ "" ∧ ∃ x y, x ∈ rows ∧ y ∈ rows ∧ x.1 ≠ y.1 ∧
                       key x = name ∧ key y = name.
Proof.
  intros Hnd. rewrite list_elem_of_fmap. split.
  - intros ([k g] & -> & Hin). apply duplicate_entries_iff in Hin as (Hk & -> & Hlen).
    split; [done|]. unfold with_key in Hlen.
    apply two_rows_filter in Hlen as (x & y & ? & ? & ? & Hx & Hy); [|done].
    apply string_eqb_true in Hx, Hy. by exists x, y.
  - intros (Hk & x & y & Hx & Hy & Hne & Hkx & Hky).
    exists (name, with_key key name rows). split; [done|].
    apply duplicate_entries_iff. split_and!; [done..|].
    apply two_rows_filter; [done|]. exists x, y.
    split_and!; try done; by apply string_eqb_true.
Qed.

(** X1: a name is reported by the duplicate-entity query exactly when it
    is non-empty and two different entities of type 2 that are not flagged
    deleted carry it as their stored name. *)
Theorem duplicate_entity_names_iff (db : database) (name : string) :
  name ∈ getDuplicateEntitiesByFullNameController db
  ↔ name ≠ "" ∧
    ∃ id1 id2 e1 e2,
      id1 ≠ id2 ∧
      db_entity db !! id1 = Some e1 ∧ db_entity db !! id2 = Some e2 ∧
      entity_type e1 = 2 ∧ entity_type e2 = 2 ∧
      entity_is_deleted e1 = false ∧ entity_is_deleted e2 = false ∧
      entity_name e1 = Some name ∧ entity_name e2 = Some name.
Proof.
  unfold getDuplicateEntitiesByFullNameController, entityNameGroups.
  rewrite names_of_duplicates by apply findMany_NoDup.
  split; intros [Hne Hex]; (split; [done|]).
  - destruct Hex as ([id1 e1] & [id2 e2] & H1 & H2 & Hids & Hn1 & Hn2).
    apply findMany_elem in H1 as [Hl1 [Ht1 Hd1]%andb_true_iff].
    apply findMany_elem in H2 as [Hl2 [Ht2 Hd2]%andb_true_iff].
    apply bool_decide_eq_true in Ht1, Ht2. apply negb_true_iff in Hd1, Hd2.
    apply entityName_Some in Hn1, Hn2; [|done..].
    exists id1, id2, e1, e2. done.
  - destruct Hex as (id1 & id2 & e1 & e2 & Hids & Hl1 & Hl2 & Ht1 & Ht2 & Hd1 & Hd2
                     & Hn1 & Hn2).
    exists (id1, e1), (id2, e2).
    split_and!; try done; try (by apply entityName_Some).
    + apply findMany_elem. split; [done|]. simpl.
      by rewrite Hd1, bool_decide_eq_true_2.
    + apply findMany_elem. split; [done|]. simpl.
      by rewrite Hd2, bool_decide_eq_true_2.
Qed.

(** X2: a full name is reported by the duplicate-people query exactly when
    it is non-empty and two different people whose first name is not null
    compute it. *)
Theorem duplicate_people_names_iff (db : database) (name : string) :
  name ∈ getDuplicatePeopleByFullNameController db
  ↔ name ≠ "" ∧
    ∃ id1 id2 p1 p2,
      id1 ≠ id2 ∧
      db_people db !! id1 = Some p1 ∧ db_people db !! id2 = Some p2 ∧
      is_Some (people_first_name p1) ∧ is_Some (people_first_name p2) ∧
      fullName (id1, p1) = name ∧ fullName (id2, p2) = name.
Proof.
  unfold getDuplicatePeopleByFullNameController, peopleNameGroups.
  rewrite names_of_duplicates by apply findMany_NoDup.
  split; intros [Hne Hex]; (split; [done|]).
  - destruct Hex as ([id1 p1] & [id2 p2] & H1 & H2 & Hids & Hn1 & Hn2).
    apply findMany_elem in H1 as [Hl1 Hf1]. apply findMany_elem in H2 as [Hl2 Hf2].
    apply bool_decide_eq_true in Hf1, Hf2.
    exists id1, id2, p1, p2. done.
  - destruct Hex as (id1 & id2 & p1 & p2 & Hids & Hl1 & Hl2 & Hf1 & Hf2 & Hn1 & Hn2).
    exists (id1, p1), (id2, p2).
    split_and!; try done.
    + apply findMany_elem. split; [done|]. by apply bool_decide_eq_true.
    + apply findMany_elem. split; [done|]. by apply bool_decide_eq_true.
Qed.

(** The full list of typed groups, before it is cut into pages, holds a
    name with count [n] exactly when the name is non-empty, [n] is at
    least 2, and [n] entities of the type that are neither flagged deleted
    nor carry a deletion timestamp have that stored name. *)
Lemma typed_groups_elem (t : Z) (db : database) (name : string) (count : nat) :
  (name, count) ∈ typedDuplicateGroups t db
  ↔ name ≠ "" ∧ (2 ≤ count)%nat ∧
    count = length (with_key entityName name
              (findMany (λ _ e, bool_decide (entity_type e = t)
                                && negb (entity_is_deleted e)
                                && bool_decide (entity_deleted_at e = None))
                        (db_entity db))).
Proof.
  unfold typedDuplicateGroups, typedNameGroups. rewrite list_elem_of_fmap. split.
  - intros ([k g] & [= -> ->] & Hin).
    apply duplicate_entries_iff in Hin as (Hk & Hg & Hlen). simpl. by rewrite <- Hg.
  - intros (Hk & Hlen & ->). eexists (name, _). split; [reflexivity|].
    apply duplicate_entries_iff. done.
Qed.

(** X4: no name is reported twice, by any of the three queries. *)
Theorem duplicate_names_reported_once (db : database) :
  NoDup (getDuplicatePeopleByFullNameController db) ∧
  NoDup (getDuplicateEntitiesByFullNameController db) ∧
  ∀ t, NoDup (typedDuplicateGroups t db).*1.
Proof.
  split_and!; [apply duplicate_entries_NoDup..|].
  intros t. unfold typedDuplicateGroups. rewrite <- list_fmap_compose.
  apply (duplicate_entries_NoDup entityName).
Qed.

(** ** More on the paginated query *)

Section by_type_facts.
Variable parseInt : string → option Z.
Variable zodErrorFmt : query_number → query_number → string.

(** The response of an accepted request. *)
Lemma by_type_accepted (req : by_type_request) (db : database)
    (page limit : Q) (t : Z) :
  paginationSchema (query_page req) (query_limit req) = Some (page, limit) →
  param_type req ≠ "" → parseInt (param_type req) = Some t → t ∈ [1; 2] →
  getDuplicateEntitiesByNameWithTypeController parseInt zodErrorFmt req db
  = inr {| duplicateGroups :=
             slice (Qmult (Qminus page 1) limit)
                   (Qplus (Qmult (Qminus page 1) limit) limit)
                   (typedDuplicateGroups t db);
           pagination := {| pg_limit := limit; pg_page := page;
                            pg_offset := Qmult (Qminus page 1) limit;
                            pg_total := length (typedDuplicateGroups t db) |} |}.
Proof.
  intros Hs Hty Hp Ht. unfold getDuplicateEntitiesByNameWithTypeController.
  rewrite Hs, Hp, (proj2 (truthy_true _) Hty). simpl negb. cbv iota.
  by rewrite bool_decide_eq_true_2.
Qed.

(** A request that is answered passed the three checks. *)
Lemma by_type_answered (req : by_type_request) (db : database)
    (resp : by_type_response) :
  getDuplicateEntitiesByNameWithTypeController parseInt zodErrorFmt req db
    = inr resp →
  is_Some (paginationSchema (query_page req) (query_limit req)) ∧
  param_type req ≠ "" ∧
  ∃ t, parseInt (param_type req) = Some t ∧ t ∈ [1; 2].
Proof.
  unfold getDuplicateEntitiesByNameWithTypeController.
  destruct (paginationSchema _ _) as [[page limit]|]; [|done].
  destruct (truthy (param_type req)) eqn:Hty; simpl negb; cbv iota; [|done].
  apply truthy_true in Hty.
  destruct (parseInt (param_type req)) as [t|]; [|done].
  case_bool_decide as Ht; [|done].
  intros _. split_and!; [by eexists|done|by exists t].
Qed.

(** X5: the by-type query answers exactly the requests whose page and
    limit pass the schema, whose type parameter is non-empty and whose
    parsed type is 1 or 2; whether a request is refused, and with which
    error, does not depend on the database. *)
Theorem by_type_acceptance (req : by_type_request) (db : database) :
  ((∃ resp, getDuplicateEntitiesByNameWithTypeController parseInt zodErrorFmt
              req db = inr resp)
   ↔ is_Some (paginationSchema (query_page req) (query_limit req)) ∧
     param_type req ≠ "" ∧
     ∃ t, parseInt (param_type req) = Some t ∧ (t = 1 ∨ t = 2)) ∧
  (∀ e db',
     getDuplicateEntitiesByNameWithTypeController parseInt zodErrorFmt req db
       = inl e →
     getDuplicateEntitiesByNameWithTypeController parseInt zodErrorFmt req db'
       = inl e).
Proof.
  unfold getDuplicateEntitiesByNameWithTypeController.
  destruct (paginationSchema _ _) as [[page limit]|]; cycle 1.
  { split; [|done]. split; [by intros [? ?]|by intros [[? ?] _]]. }
  destruct (truthy (param_type req)) eqn:Hty; simpl negb; cbv iota; cycle 1.
  { apply truthy_false in Hty. split; [|done].
    split; [by intros [? ?]|by intros (_ & ? & _)]. }
  apply truthy_true in Hty.
  destruct (parseInt (param_type req)) as [t|]; cycle 1.
  { split; [|done]. split; [by intros [? ?]|by intros (_ & _ & ? & ? & _)]. }
  case_bool_decide as Ht.
  - split; [|done]. split; [|by eexists]. intros _. split_and!; [by eexists|done|].
    exists t. split; [done|].
    apply elem_of_cons in Ht as [->|Ht]; [by left|].
    apply list_elem_of_singleton in Ht as ->. by right.
  - split; [|done]. split; [by intros [? ?]|].
    intros (_ & _ & t' & [= <-] & Hcase). destruct Ht.
    destruct Hcase as [->| ->]; [left|right; left].
Qed.

Lemma page_groups_integral (type : string) (l p t : Z) (db : database) :
  type ≠ "" → parseInt type = Some t → t ∈ [1; 2] → 1 ≤ l → 1 ≤ p →
  page_groups parseInt zodErrorFmt type l db p
  = take (Z.to_nat l) (drop (Z.to_nat ((p - 1) * l)) (typedDuplicateGroups t db)).
Proof.
  intros Hty Hp Ht Hl Hp1. unfold page_groups.
  rewrite (by_type_accepted _ db (inject_Z p) (inject_Z l) t); try done.
  - simpl. apply slice_integral; [nia|lia| |].
    + rewrite inject_Z_mult. unfold Z.sub. rewrite inject_Z_plus, inject_Z_opp.
      reflexivity.
    + rewrite !inject_Z_plus, inject_Z_mult. unfold Z.sub.
      rewrite inject_Z_plus, inject_Z_opp. reflexivity.
  - simpl. unfold paginationSchema, coerce_min1.
    assert (Qle_bool 1 (inject_Z p) = true) as ->.
    { apply Qle_bool_iff. unfold Qle. simpl. lia. }
    assert (Qle_bool 1 (inject_Z l) = true) as ->.
    { apply Qle_bool_iff. unfold Qle. simpl. lia. }
    done.
Qed.

(** X6: a page that starts at or beyond the end of the duplicate-group
    list is answered with an empty slice and the unchanged total. *)
Theorem page_beyond_the_end (type : string) (l p t : Z) (db : database)
    (resp : by_type_response) :
  1 ≤ l → 1 ≤ p →
  Z.of_nat (length (typedDuplicateGroups t db)) ≤ (p - 1) * l →
  parseInt type = Some t →
  getDuplicateEntitiesByNameWithTypeController parseInt zodErrorFmt
    {| param_type := type; query_page := QueryNum (inject_Z p);
       query_limit := QueryNum (inject_Z l) |} db = inr resp →
  duplicateGroups resp = [] ∧
  pg_total (pagination resp) = length (typedDuplicateGroups t db).
Proof.
  intros Hl Hp Hend Hparse Hrun.
  assert (Hacc : type ≠ "" ∧ t ∈ [1; 2]).
  { destruct (by_type_answered _ _ _ Hrun) as (_ & Hty & t' & Ht' & Ht).
    simpl in *. rewrite Hparse in Ht'. by injection Ht' as <-. }
  destruct Hacc as [Hty Ht].
  pose proof (page_groups_integral type l p t db Hty Hparse Ht Hl Hp) as Hpage.
  unfold page_groups in Hpage. rewrite Hrun in Hpage. split.
  - rewrite Hpage, drop_ge by lia. apply take_nil.
  - unfold getDuplicateEntitiesByNameWithTypeController in Hrun. simpl in Hrun.
    destruct (paginationSchema _ _) as [[page limit]|]; [|done].
    rewrite (proj2 (truthy_true _) Hty), Hparse in Hrun. simpl in Hrun.
    rewrite bool_decide_eq_true_2 in Hrun by done. by injection Hrun as <-.
Qed.

(** X3: for an entity type 1 or 2 and an integral limit, the by-type
    query lists a name with count [n] on one of its pages exactly when the
    name is non-empty, [n] is at least 2, and [n] is the number of
    entities of that type, neither flagged deleted nor carrying a
    deletion timestamp, whose stored name is that name. *)
Theorem typed_duplicate_count_iff (type : string) (l t : Z) (db : database)
    (name : string) (count : nat) :
  type ≠ "" → parseInt type = Some t → t ∈ [1; 2] → 1 ≤ l →
  (∃ p, 1 ≤ p ∧ (name, count) ∈ page_groups parseInt zodErrorFmt type l db p)
  ↔ name ≠ "" ∧ (2 ≤ count)%nat ∧
    count = length (with_key entityName name
              (findMany (λ _ e, bool_decide (entity_type e = t)
                                && negb (entity_is_deleted e)
                                && bool_decide (entity_deleted_at e = None))
                        (db_entity db))).
Proof.
  intros Hty Hparse Ht Hl. rewrite <- typed_groups_elem. split.
  - intros (p & Hp & Hin).
    rewrite (page_groups_integral type l p t) in Hin by done.
    by apply subseteq_take, subseteq_drop in Hin.
  - intros [i Hi]%list_elem_of_lookup_1.
    set (L := Z.to_nat l). assert (HL : (0 < L)%nat) by (unfold L; lia).
    exists (Z.of_nat (i / L) + 1). split; [lia|].
    rewrite (page_groups_integral type l _ t) by (try done; lia).
    apply (list_elem_of_lookup_2 _ (i mod L)).
    rewrite lookup_take_lt by (apply Nat.mod_upper_bound; lia).
    rewrite lookup_drop.
    replace (Z.to_nat ((Z.of_nat (i / L) + 1 - 1) * l) + i mod L)%nat with i;
      [done|].
    pose proof (Nat.div_mod_eq i L) as Hdiv.
    replace (Z.to_nat ((Z.of_nat (i / L) + 1 - 1) * l)) with (L * (i / L))%nat;
      [lia|].
    unfold L. nia.
Qed.

Lemma take_drop_step {A} (l : list A) (a b : nat) :
  take a l ++ take b (drop a l) = take (a + b) l.
Proof.
  revert l. induction a as [|a IH]; intros l; simpl; [done|].
  destruct l as [|x l]; simpl; [by rewrite take_nil|]. by rewrite IH.
Qed.

(** X7: read in order, the first [n] pages of an integral limit [l] are
    the first [n * l] duplicate groups: from one page to the next no
    group is skipped and none is repeated. *)
Theorem pages_tile_the_list (type : string) (l t : Z) (db : database) (n : nat) :
  type ≠ "" → parseInt type = Some t → t ∈ [1; 2] → 1 ≤ l →
  concat (page_groups parseInt zodErrorFmt type l db <$> seqZ 1 (Z.of_nat n))
  = take (n * Z.to_nat l) (typedDuplicateGroups t db).
Proof.
  intros Hty Hp Ht Hl. induction n as [|n IH]; [done|].
  rewrite seqZ_S.
  rewrite fmap_app, concat_app, IH. simpl. rewrite app_nil_r.
  rewrite (page_groups_integral type l _ t) by (try done; lia).
  replace (Z.to_nat ((1 + Z.of_nat n - 1) * l)) with (n * Z.to_nat l)%nat by nia.
  rewrite take_drop_step. f_equal. lia.
Qed.
End by_type_facts.

Lemma typed_duplicate_count_iff_witness :
  ∃ p, 1 ≤ p ∧
       ("Core", 2%nat) ∈ page_groups (λ _, Some 2) (λ _ _, "") "2" 2
                            three_pairs_db p.
Proof.
  apply (typed_duplicate_count_iff (λ _, Some 2) (λ _ _, "") "2" 2 2
           three_pairs_db "Core" 2);
    [done|done|right; left|lia|].
  split_and!; [done|lia|vm_compute; reflexivity].
Defined.

(** "Core" is the third group, so with limit 2 it is on page 2. *)
Example core_is_on_page_two :
  page_groups (λ _, Some 2) (λ _ _, "") "2" 2 three_pairs_db 1
  = [("Acme", 2%nat); ("Bolt", 2%nat)] ∧
  page_groups (λ _, Some 2) (λ _ _, "") "2" 2 three_pairs_db 2
  = [("Core", 2%nat)].
Proof. vm_compute. done. Qed.

Lemma page_beyond_the_end_witness :
  ∃ resp,
    getDuplicateEntitiesByNameWithTypeController (λ _, Some 2) (λ _ _, "")
      {| param_type := "2"; query_page := QueryNum (inject_Z 3);
         query_limit := QueryNum (inject_Z 2) |} three_pairs_db = inr resp ∧
    duplicateGroups resp = [] ∧ pg_total (pagination resp) = 3%nat.
Proof.
  eexists. split; [vm_compute; reflexivity|].
  destruct (page_beyond_the_end (λ _, Some 2) (λ _ _, "") "2" 2 3 2 three_pairs_db _
              ltac:(lia) ltac:(lia) ltac:(vm_compute; discriminate) eq_refl eq_refl)
    as [Hnil Htotal].
  split; [exact Hnil|]. etrans; [exact Htotal|]. vm_compute. reflexivity.
Defined.

Lemma pages_tile_the_list_witness :
  concat (page_groups (λ _, Some 2) (λ _ _, "") "2" 2 three_pairs_db
            <$> seqZ 1 2)
  = [("Acme", 2%nat); ("Bolt", 2%nat); ("Core", 2%nat)].
Proof.
  etrans;
    [exact (pages_tile_the_list (λ _, Some 2) (λ _ _, "") "2" 2 2 three_pairs_db 2
              ltac:(done) eq_refl ltac:(right; left) ltac:(lia))|].
  vm_compute. reflexivity.
Defined.

(** ** More on the merge planner *)

Lemma assoc_unique {K V} (l : list (K * V)) k v1 v2 :
  NoDup l.*1 → (k, v1) ∈ l → (k, v2) ∈ l → v1 = v2.
Proof.
  induction l as [|[k0 v0] l IH]; [by intros _ ?%elem_of_nil|].
  rewrite fmap_cons. intros [Hk Hnd]%NoDup_cons.
  intros [[= -> ->]|H1]%elem_of_cons [[= ->]|H2]%elem_of_cons; simplify_eq; try done.
  - destruct Hk. apply list_elem_of_fmap. by exists (k0, v2).
  - destruct Hk. apply list_elem_of_fmap. by exists (k0, v1).
  - by apply IH.
Qed.

Section property_map_sound.
Variable kept_entity_id : Z.

Lemma entry_sound_mono seen x e :
  entry_sound kept_entity_id seen e → entry_sound kept_entity_id (seen ++ [x]) e.
Proof.
  intros (Hown & (before & p & after & -> & Hrest) & Hprim). split_and!; [done| |].
  - exists before, p, (after ++ [x]). split; [|done].
    by rewrite <- app_assoc.
  - intros Hyes. destruct (Hprim Hyes) as (q & Hq & ?). exists q.
    split; [|done]. apply elem_of_app. by left.
Qed.

Lemma propMap_set_primary_back_full key m k e' :
  (k, e') ∈ propMap_set_primary key m →
  (k, e') ∈ m ∨
  (k = key ∧ ∃ e, (k, e) ∈ m ∧ e' = (e.1, with_is_primary (Some "Yes") e.2)).
Proof.
  induction m as [|[k0 e0] m IH]; simpl; [by intros ?%elem_of_nil|].
  destruct (String.eqb k0 key) eqn:E.
  - apply string_eqb_true in E as ->.
    intros [[= -> ->]|Hin]%elem_of_cons.
    + right. split; [done|]. exists e0. split; [left|done].
    + left. by right.
  - intros [[= -> ->]|Hin]%elem_of_cons; [left; left|].
    destruct (IH Hin) as [?|(-> & e & ? & ->)]; [left; by right|].
    right. split; [done|]. exists e. split; [by right|done].
Qed.

Lemma propMap_step_sound m seen p :
  propMap_ok m → (∀ q, q ∈ seen → covers m q) →
  (∀ k e, (k, e) ∈ m → entry_sound kept_entity_id seen e) →
  ∀ k e, (k, e) ∈ propMap_step kept_entity_id m p →
         entry_sound kept_entity_id (seen ++ [p]) e.
Proof.
  intros [Hnd Hkeys] Hcov Hsound k e. unfold propMap_step.
  destruct (property_value p.2) as [v|] eqn:Hv;
    [|intros Hin; by apply entry_sound_mono, (Hsound k)].
  destruct (truthy v) eqn:Ht;
    [|intros Hin; by apply entry_sound_mono, (Hsound k)].
  apply truthy_true in Ht.
  assert (Hp : entry_key_ok (propKey (property_id p.2) v) p) by (by exists v).
  destruct (propMap_has _ m) eqn:Hhas; simpl.
  - case_bool_decide as Hprim;
      [|intros Hin; by apply entry_sound_mono, (Hsound k)].
    intros [Hin|(-> & e0 & Hin & ->)]%propMap_set_primary_back_full;
      [by apply entry_sound_mono, (Hsound k)|].
    destruct (Hsound _ _ Hin) as (Hown & (before & p0 & after & -> & Hc & Hid & Hpid
                                          & Hval & _ & Hfirst) & _).
    split_and!; [done| |].
    + exists before, p0, (after ++ [p]). rewrite <- app_assoc. done.
    + intros _. exists p. split_and!; [apply elem_of_app; right; left|by exists v| |done].
      symmetry. eapply entry_key_determined; [| |reflexivity].
      * destruct (Hkeys _ _ Hin) as (v0 & ? & ? & ?). by exists v0.
      * done.
  - assert (propKey (property_id p.2) v ∉ m.*1) as Hfresh.
    { rewrite <- propMap_has_spec. by rewrite Hhas. }
    intros [Hin|[= -> ->]%list_elem_of_singleton]%elem_of_app;
      [by apply entry_sound_mono, (Hsound k)|].
    split_and!; [done| |].
    + exists seen, p, []. split_and!; try done; [by exists v|].
      intros q Hq (vq & Hvq & Hneq) Heq.
      destruct (Hcov q Hq vq Hvq Hneq) as (eq & Hineq & _).
      apply Hfresh. apply list_elem_of_fmap. exists (propKey (property_id q.2) vq, eq).
      split; [|done]. simpl.
      eapply (entry_key_determined _ _ p q); [done|by exists vq|done].
    + simpl. intros Hyes. exists p.
      split_and!; [apply elem_of_app; right; left|by exists v|done|done].
Qed.

Lemma propMap_fold_sound props m seen :
  propMap_ok m → (∀ q, q ∈ seen → covers m q) →
  (∀ k e, (k, e) ∈ m → entry_sound kept_entity_id seen e) →
  ∀ k e, (k, e) ∈ foldl (propMap_step kept_entity_id) m props →
         entry_sound kept_entity_id (seen ++ props) e.
Proof.
  revert m seen. induction props as [|p props IH]; intros m seen Hok Hcov Hs; simpl.
  - intros k e Hin. rewrite app_nil_r. eauto.
  - intros k e Hin.
    rewrite (assoc_L _ seen [p] props : seen ++ p :: props = (seen ++ [p]) ++ props).
    eapply (IH (propMap_step kept_entity_id m p) (seen ++ [p])); [| | |exact Hin].
    + by apply propMap_step_ok.
    + intros q [Hq| ->%list_elem_of_singleton]%elem_of_app.
      * by apply propMap_step_keeps, Hcov.
      * apply propMap_step_covers.
    + by apply propMap_step_sound.
Qed.
End property_map_sound.

(** X8: every entry of a merged property list is a copy, re-owned by the
    kept entity, of the first contributing property with its key: it has
    that property's id, type and value; and it is primary exactly when
    some contributing property with its key is primary. *)
Theorem merged_properties_first_seen (keptRecord : PeopleRecord)
    (removedRecords : list PeopleRecord) (e : Z * entity_property) :
  e ∈ mergedProperties keptRecord removedRecords →
  property_entity_id e.2 = pr_entity_id keptRecord ∧
  (∃ before p after,
     allProps keptRecord removedRecords = before ++ p :: after ∧
     contributes p.2 ∧ e.1 = p.1 ∧ property_id e.2 = property_id p.2 ∧
     property_value e.2 = property_value p.2 ∧
     ∀ q, q ∈ before → contributes q.2 → property_key q.2 ≠ property_key p.2) ∧
  (is_primary e.2 = Some "Yes"
   ↔ ∃ q, q ∈ allProps keptRecord removedRecords ∧ contributes q.2 ∧
          property_key q.2 = property_key e.2 ∧ is_primary q.2 = Some "Yes").
Proof.
  unfold mergedProperties. intros ([k e'] & -> & Hin)%list_elem_of_fmap. simpl.
  assert (Hok0 : propMap_ok []).
  { split; [constructor|]. by intros ? ? ?%elem_of_nil. }
  destruct (propMap_fold (pr_entity_id keptRecord)
              (allProps keptRecord removedRecords) [] [] Hok0)
    as [Hok Hcov]; [by intros ? ?%elem_of_nil|].
  pose proof (propMap_fold_sound (pr_entity_id keptRecord)
                (allProps keptRecord removedRecords) [] [] Hok0
                ltac:(by intros ? ?%elem_of_nil)
                ltac:(by intros ? ? ?%elem_of_nil) k e' Hin)
    as (Hown & (before & p & after & Heq & Hc & Hid & Hpid & Hval & _ & Hfirst) & Hprim).
  simpl in Heq. split_and!; [done| |].
  - exists before, p, after. done.
  - split; [done|]. intros (q & Hq & (vq & Hvq & Hneq) & Hkey & Hyes).
    destruct (Hcov q Hq vq Hvq Hneq) as (e2 & Hin2 & Hprim2).
    assert ((propKey (property_id q.2) vq, e2) = (k, e')) as [= _ ->].
    { destruct Hok as [Hnd Hkeys].
      assert (propKey (property_id q.2) vq = k) as Hk.
      { eapply (entry_key_determined _ _ q e'); [by exists vq|by apply Hkeys|done]. }
      subst k. f_equal. by eapply assoc_unique. }
    auto.
Qed.

Lemma merged_properties_first_seen_witness :
  let keptRecord := {| pr_people_id := 1; pr_person := plain_person 10 "John" "Doe";
                       pr_entity_id := 10; pr_entity := plain_entity "John Doe";
                       pr_address := [];
                       pr_properties := [(100, plain_property 10 7 "J@X.org" "No")] |} in
  let removedRecords :=
    [ {| pr_people_id := 2; pr_person := plain_person 20 " john" "DOE ";
         pr_entity_id := 20; pr_entity := plain_entity "John Doe";
         pr_address := [];
         pr_properties := [(200, plain_property 20 7 " j@x.org" "Yes");
                           (201, plain_property 20 8 "555" "No")] |} ] in
  mergedProperties keptRecord removedRecords
  = [(100, plain_property 10 7 "J@X.org" "Yes");
     (201, plain_property 10 8 "555" "No")] ∧
  property_entity_id (plain_property 10 7 "J@X.org" "Yes") = 10.
Proof.
  intros keptRecord removedRecords.
  assert (Hm : mergedProperties keptRecord removedRecords
               = [(100, plain_property 10 7 "J@X.org" "Yes");
                  (201, plain_property 10 8 "555" "No")])
    by (vm_compute; reflexivity).
  split; [exact Hm|].
  refine (proj1 (merged_properties_first_seen keptRecord removedRecords
                   (100, plain_property 10 7 "J@X.org" "Yes") _)).
  rewrite Hm. left.
Defined.

Section pass_facts.
Variable aiService_call : PeopleRecord → list PeopleRecord → option aiDecision.
Variable mergeSimilarAddresses :
  list (Z * address) → list (Z * address) → list (Z * address).
Variable people : list PeopleRecord.

Lemma proposals_disjoint_snoc (l : list proposal) (pr : proposal) (seen : gset Z) :
  proposals_disjoint l →
  (∀ pr' id, pr' ∈ l → id ∈ proposal_ids pr' → id ∈ seen) →
  (∀ id, id ∈ proposal_ids pr → id ∉ seen) →
  proposals_disjoint (l ++ [pr]).
Proof.
  intros Hdis Hseen Hnew i j pr1 pr2 id Hij H1 H2 Hid1 Hid2.
  destruct (decide (j < length l)%nat) as [Hj|Hj].
  - rewrite lookup_app_l in H1, H2 by lia.
    exact (Hdis i j pr1 pr2 id Hij H1 H2 Hid1 Hid2).
  - assert (i < length l)%nat as Hi.
    { apply lookup_lt_Some in H2. rewrite length_app in H2. simpl in H2. lia. }
    rewrite lookup_app_l in H1 by lia.
    rewrite lookup_app_r in H2 by lia.
    destruct (j - length l)%nat as [|n]; simpl in H2;
      [|by rewrite lookup_nil in H2].
    injection H2 as <-. apply (Hnew id Hid2), (Hseen pr1); [|done].
    by eapply list_elem_of_lookup_2.
Qed.

Lemma item_step_pass_ok (k : string) (group : list PeopleRecord)
    (st st' : pass_state) (person : PeopleRecord) :
  k ≠ "" →
  (∀ r, r ∈ group → r ∈ people ∧ personFullName r = k) → person ∈ group →
  pass_ok mergeSimilarAddresses people st →
  item_step aiService_call mergeSimilarAddresses group st person = Some st' →
  pass_ok mergeSimilarAddresses people st'.
Proof.
  intros Hk Hgroup Hperson Hst. destruct st as [seen grouped]. unfold item_step.
  case_bool_decide as Hps; [by intros [= <-]|].
  set (duplicates := List.filter _ group).
  assert (Hdup : ∀ r, r ∈ duplicates →
                      r ∈ group ∧ pr_people_id r ∉ seen).
  { intros r Hr. apply list_elem_of_In, filter_In in Hr as [Hr Hf].
    apply andb_true_iff in Hf as [_ Hf]. apply bool_decide_eq_true in Hf.
    split; [by apply list_elem_of_In|done]. }
  destruct (length duplicates =? 0)%nat; [by intros [= <-]|].
  destruct (aiService_call person duplicates) as [decision|];
    cbn [mbind option_bind]; [|done].
  destruct (find _ _) as [keptRecord|] eqn:Hfind; [|by intros [= <-]].
  intros [= <-].
  set (removedRecords := List.filter _ duplicates).
  assert (Hkept : keptRecord ∈ group ∧ pr_people_id keptRecord ∉ seen).
  { apply find_some in Hfind as [Hin _]. apply list_elem_of_In in Hin.
    apply elem_of_cons in Hin as [->|Hin]; [done|by apply Hdup]. }
  assert (Hrem : ∀ r, r ∈ removedRecords → r ∈ group ∧ pr_people_id r ∉ seen).
  { intros r Hr. apply list_elem_of_In, filter_In in Hr as [Hr _].
    by apply Hdup, list_elem_of_In. }
  destruct Hst as (Hall & Hseen & Hdis). cbn [fst snd] in *.
  split_and!; cbn [fst snd].
  - apply Forall_app. split; [done|]. apply Forall_singleton.
    exists decision, keptRecord, removedRecords.
    destruct Hkept as [Hkg _]. destruct (Hgroup _ Hkg) as [? Hkn].
    split_and!; [done| |done| |].
    + intros r Hr. by apply Hgroup, Hrem.
    + by rewrite Hkn.
    + intros r Hr. destruct (Hrem _ Hr) as [Hrg _].
      destruct (Hgroup _ Hrg) as [_ ->]. done.
  - intros pr id [Hpr| ->%list_elem_of_singleton]%elem_of_app Hid.
    + apply elem_of_union. right. by eapply Hseen.
    + apply elem_of_union. left. apply elem_of_list_to_set.
      unfold proposal_ids in Hid. simpl in Hid. rewrite fmap_app.
      apply elem_of_app. apply elem_of_cons in Hid as [->|Hid]; [right; left|by left].
  - eapply proposals_disjoint_snoc; [done|exact Hseen|].
    intros id Hid. unfold proposal_ids in Hid. simpl in Hid.
    apply elem_of_cons in Hid as [->|Hid]; [apply Hkept|].
    apply list_elem_of_fmap in Hid as (r & -> & Hr). by apply Hrem.
Qed.

Lemma analyze_pass_ok (proposals : list proposal) :
  getPotentialDuplicatePeopleGroupsController aiService_call
    mergeSimilarAddresses people = Some proposals →
  Forall (proposal_same_name mergeSimilarAddresses people) proposals ∧
  proposals_disjoint proposals.
Proof.
  unfold getPotentialDuplicatePeopleGroupsController.
  destruct (foldM _ _ _) as [st|] eqn:Hfold; simpl; [|done].
  intros [= <-].
  assert (pass_ok mergeSimilarAddresses people st) as (? & _ & ?); [|done].
  eapply (foldM_invariant (pass_ok mergeSimilarAddresses people)); [| |exact Hfold].
  - intros s [k g] s' Hkg Hs. unfold group_pass. simpl.
    destruct (length g <? 2)%nat; [by intros [= <-]|].
    intros Hitems.
    destruct (build_groups_ok personFullName people _ _ Hkg) as (Hk & _ & Hkey).
    eapply (foldM_invariant (pass_ok mergeSimilarAddresses people));
      [|exact Hs|exact Hitems].
    intros s1 x s1' Hx Hs1. apply (item_step_pass_ok k); try done.
    intros r Hr. split; [by eapply build_groups_members|by apply Hkey].
  - split_and!; simpl.
    + constructor.
    + by intros ? ? ?%elem_of_nil.
    + intros i j ? ? ? _ H1. by rewrite lookup_nil in H1.
Qed.

(** X9: within one analyze pass no person is named by two proposals: the
    retained and deleted people of one proposal never reappear, retained
    or deleted, in another. *)
Theorem proposals_never_share_a_person (proposals : list proposal)
    (i j : nat) (pr1 pr2 : proposal) (id : Z) :
  getPotentialDuplicatePeopleGroupsController aiService_call
    mergeSimilarAddresses people = Some proposals →
  i ≠ j → proposals !! i = Some pr1 → proposals !! j = Some pr2 →
  id ∈ proposal_ids pr1 → id ∉ proposal_ids pr2.
Proof.
  intros Hrun Hij H1 H2 Hid1 Hid2.
  destruct (analyze_pass_ok _ Hrun) as [_ Hdis].
  destruct (decide (i < j)%nat).
  - exact (Hdis i j pr1 pr2 id ltac:(done) H1 H2 Hid1 Hid2).
  - exact (Hdis j i pr2 pr1 id ltac:(lia) H2 H1 Hid2 Hid1).
Qed.

(** X10: the people merged by a proposal all bear one non-empty
    normalised full name: the retained person and every person listed for
    deletion are input records that compute the same full name. *)
Theorem proposals_merge_one_name (proposals : list proposal) (pr : proposal) :
  getPotentialDuplicatePeopleGroupsController aiService_call
    mergeSimilarAddresses people = Some proposals →
  pr ∈ proposals →
  ∃ keptRecord removedRecords,
    keptRecord ∈ people ∧ (∀ r, r ∈ removedRecords → r ∈ people) ∧
    retained_people_id (prop_deletionPlan pr) = pr_people_id keptRecord ∧
    deleted_people_ids (prop_deletionPlan pr) = pr_people_id <$> removedRecords ∧
    personFullName (mergedPerson pr) = personFullName keptRecord ∧
    personFullName keptRecord ≠ "" ∧
    ∀ r, r ∈ removedRecords → personFullName r = personFullName keptRecord.
Proof.
  intros Hrun Hpr. destruct (analyze_pass_ok _ Hrun) as [Hall _].
  rewrite Forall_forall in Hall.
  destruct (Hall pr Hpr) as (d & keptRecord & removedRecords & ? & ? & -> & ? & ?).
  exists keptRecord, removedRecords. done.
Qed.
End pass_facts.

Lemma proposals_never_share_a_person_witness :
  ∃ pr1 pr2,
    getPotentialDuplicatePeopleGroupsController keep_primary append_addresses
      four_people = Some [pr1; pr2] ∧
    proposal_ids pr1 = [1; 2] ∧ proposal_ids pr2 = [3; 4] ∧
    1 ∉ proposal_ids pr2.
Proof.
  eexists _, _. split; [vm_compute; reflexivity|].
  split; [vm_compute; reflexivity|]. split; [vm_compute; reflexivity|].
  eapply (proposals_never_share_a_person keep_primary append_addresses
            four_people _ 0 1 _ _ 1 ltac:(vm_compute; reflexivity)
            ltac:(lia) eq_refl eq_refl).
  left.
Defined.

Lemma proposals_merge_one_name_witness :
  ∃ pr keptRecord removedRecords,
    getPotentialDuplicatePeopleGroupsController keep_primary append_addresses
      two_johns = Some [pr] ∧
    personFullName (mergedPerson pr) = "john doe" ∧
    personFullName (mergedPerson pr) = personFullName keptRecord ∧
    deleted_people_ids (prop_deletionPlan pr) = pr_people_id <$> removedRecords ∧
    ∀ r, r ∈ removedRecords → personFullName r = personFullName keptRecord.
Proof.
  eexists. 
  edestruct (proposals_merge_one_name keep_primary append_addresses two_johns
               _ _ ltac:(vm_compute; reflexivity)
               ltac:(apply list_elem_of_singleton; reflexivity))
    as (keptRecord & removedRecords & _ & _ & _ & Hdel & Hname & _ & Hsame).
  exists keptRecord, removedRecords.
  split; [vm_compute; reflexivity|]. split; [vm_compute; reflexivity|].
  split; [exact Hname|]. split; [exact Hdel|exact Hsame].
Defined.

(** ** Validation is exact *)

Lemma fetch_entities_all_found (allEntityIds : list Z) (db : database) :
  NoDup allEntityIds → (∀ id, id ∈ allEntityIds → stored db id) →
  length (fetch_entities allEntityIds db) = length allEntityIds.
Proof.
  intros Hnd Hlive. rewrite <- (length_fmap fe_entity_id).
  apply Permutation_length, NoDup_Permutation; [|done|].
  - rewrite fetch_entities_ids. apply findMany_NoDup.
  - intros id. rewrite fetch_entities_found. split; [tauto|]. auto.
Qed.

Lemma find_entity_Some (id : Z) (l : list fetched_entity) :
  id ∈ fe_entity_id <$> l →
  ∃ fe, List.find (λ e, fe_entity_id e =? id) l = Some fe.
Proof.
  intros (fe & -> & Hin)%list_elem_of_fmap.
  destruct (find _ l) as [fe'|] eqn:Hfind; [by eexists|].
  apply list_elem_of_In in Hin. pose proof (find_none _ _ Hfind _ Hin) as Hne.
  simpl in Hne. by rewrite Z.eqb_refl in Hne.
Qed.

(** Requests that pass the structural checks, repeat no removed id and
    name only live entities are validated. *)
Lemma validation_complete (payload : ApplyMergePayload) (db : database)
    (keep : Z) (remove : list Z) :
  well_formed payload keep remove → NoDup remove →
  (∀ id, id ∈ keep :: remove → live db id) →
  ∃ v, validation payload db = inr v.
Proof.
  intros Hwf Hnd Hlive.
  destruct Hwf as (Hkeep & Hk0 & Hremove & Hne & Hnotin & [mp Hmp] & [ma Hma]
                   & [mq Hmq]).
  unfold validation. rewrite Hkeep, Hremove, Hmp, Hma, Hmq.
  rewrite (proj2 (truthy_id_true keep) Hk0). cbn [negb].
  destruct (length remove =? 0)%nat eqn:Hlen.
  { apply length_zero_nil in Hlen. done. }
  rewrite bool_decide_eq_false_2 by done. cbv zeta.
  rewrite entity_findMany_in_range by (intros i Hi; by apply Hlive).
  rewrite fetch_entities_all_found;
    [|by apply NoDup_cons|intros i Hi; by apply Hlive].
  rewrite Nat.eqb_refl. cbn [negb].
  destruct (find_entity_Some keep (fetch_entities (keep :: remove) db))
    as [fe ->]; [|by eexists].
  apply fetch_entities_found. split; [left|]. apply Hlive. left.
Qed.

(** X11: validation accepts exactly the requests that pass the structural
    checks, repeat no removed id, and name only live entities. *)
Theorem validation_accepts_iff (payload : ApplyMergePayload) (db : database) :
  (∃ v, validation payload db = inr v)
  ↔ ∃ keep remove,
      well_formed payload keep remove ∧ NoDup remove ∧
      ∀ id, id ∈ keep :: remove → live db id.
Proof.
  split.
  - intros [v Hv]. apply validation_inr in Hv as (Hwf & _ & _ & _ & Hnd & Hlive & _).
    exists (v_keep v), (v_remove v). apply NoDup_cons in Hnd as [_ Hnd]. done.
  - intros (keep & remove & Hwf & Hnd & Hlive). by eapply validation_complete.
Qed.

(** ** The stages of a committed transaction *)

Lemma validation_removed (payload : ApplyMergePayload) (db : database)
    (v : validated) :
  validation payload db = inr v →
  removedEntities v
  = List.filter (λ e, bool_decide (fe_entity_id e ∈ v_remove v))
                (fetch_entities (v_keep v :: v_remove v) db).
Proof.
  unfold validation.
  destruct (keep_entity_id payload) as [keep|]; [|done].
  destruct (truthy_id keep); cbn [negb]; [|done].
  destruct (remove_entity_ids payload) as [remove|]; [|done].
  destruct (length remove =? 0)%nat; [done|].
  case_bool_decide; [done|].
  destruct (merged_people payload); [|done].
  destruct (merged_address payload); [|done].
  destruct (merged_properties payload); [|done].
  cbv zeta. unfold entity_findMany.
  destruct (forallb in_int4 _); [|done]. destruct (negb _); [done|].
  destruct (find _ _); [|done]. by intros [= <-].
Qed.

Lemma fetched_entity_includes (allEntityIds : list Z) (db : database)
    (fe : fetched_entity) :
  fe ∈ fetch_entities allEntityIds db →
  db_entity db !! fe_entity_id fe = Some (fe_entity fe) ∧
  fe_people fe = include_people (fe_entity_id fe) db ∧
  fe_address fe = include_address (fe_entity_id fe) db ∧
  fe_properties fe = include_properties (fe_entity_id fe) db.
Proof.
  unfold fetch_entities. intros ([k e] & -> & Hin)%list_elem_of_fmap.
  apply findMany_elem in Hin as [Hlook _]. done.
Qed.

(** What the records attached to a validated request are. *)
Lemma validated_records (payload : ApplyMergePayload) (db : database)
    (v : validated) :
  validation payload db = inr v →
  (db_entity db !! v_keep v = Some (fe_entity (keptEntity v)) ∧
   fe_people (keptEntity v) = include_people (v_keep v) db ∧
   fe_address (keptEntity v) = include_address (v_keep v) db ∧
   fe_properties (keptEntity v) = include_properties (v_keep v) db) ∧
  (∀ fe, fe ∈ removedEntities v →
     fe_entity_id fe ∈ v_remove v ∧
     fe_people fe = include_people (fe_entity_id fe) db ∧
     fe_address fe = include_address (fe_entity_id fe) db ∧
     fe_properties fe = include_properties (fe_entity_id fe) db) ∧
  (∀ rid, rid ∈ v_remove v →
     ∃ fe, fe ∈ removedEntities v ∧ fe_entity_id fe = rid).
Proof.
  intros Hval. pose proof (validation_removed _ _ _ Hval) as Hrem.
  apply validation_inr in Hval as (_ & _ & _ & _ & _ & Hlive & Hkept & Hkid & _).
  split; [|split].
  - apply fetched_entity_includes in Hkept. by rewrite Hkid in Hkept.
  - intros fe Hfe. rewrite Hrem in Hfe.
    apply list_elem_of_In, filter_In in Hfe as [Hfe Hin].
    apply bool_decide_eq_true in Hin. apply list_elem_of_In in Hfe.
    apply fetched_entity_includes in Hfe as (_ & ? & ? & ?). done.
  - intros rid Hrid.
    assert (rid ∈ fe_entity_id <$> fetch_entities (v_keep v :: v_remove v) db)
      as (fe & -> & Hfe)%list_elem_of_fmap.
    { apply fetch_entities_found. split; [by right|]. apply Hlive. by right. }
    exists fe. split; [|done]. rewrite Hrem.
    apply list_elem_of_In, filter_In. split; [by apply list_elem_of_In|].
    by apply bool_decide_eq_true.
Qed.

(** A transaction commits exactly when its three loops succeed, the audit
    file can be written and the commit goes through; the committed world
    is then the result of the steps in order. *)
Lemma transaction_stages parse_date (v : validated) (env : environment)
    (w w' : world) :
  transaction parse_date v env w = inr w'
  ↔ ∃ e0 db2 db3 db4,
      db_entity (w_db w) !! v_keep v = Some e0 ∧
      tx_for (upsert_person parse_date v (now env))
             (set_entity (<[v_keep v := update_kept v (now env) e0]>
                            (db_entity (w_db w))) (w_db w))
             (v_people v) = inr db2 ∧
      tx_for (upsert_address parse_date v (now env))
             (delete_old_people v (now env) db2) (v_address v) = inr db3 ∧
      tx_for (upsert_property parse_date v (now env))
             (delete_kept_properties v (delete_old_addresses v (now env) db3))
             (v_properties v) = inr db4 ∧
      log_ok env = true ∧ commit_ok env = true ∧
      w' = {| w_db := soft_delete_removed v (now env)
                        (delete_old_properties v db4);
              w_logs := w_logs w ++ [merge_audit v (now env)] |}.
Proof.
  unfold transaction, statements, table_update. split.
  - destruct (db_entity (w_db w) !! v_keep v) as [e0|]; simpl; [|done].
    destruct (tx_for (upsert_person _ _ _) _ _) as [[]|db2] eqn:Hp; simpl; [done|].
    destruct (tx_for (upsert_address _ _ _) _ _) as [[]|db3] eqn:Ha; simpl; [done|].
    destruct (tx_for (upsert_property _ _ _) _ _) as [[]|db4] eqn:Hq; simpl; [done|].
    destruct (log_ok env) eqn:Hlog; [|done].
    destruct (commit_ok env) eqn:Hcommit; [|done]. intros [= <-].
    exists e0, db2, db3, db4. done.
  - intros (e0 & db2 & db3 & db4 & -> & Hp & Ha & Hq & -> & -> & ->). simpl.
    rewrite Hp. simpl. rewrite Ha. simpl. rewrite Hq. done.
Qed.

Section step_frames.
Variable parse_date : string → option Z.
Variable v : validated.
Variable now_ : Z.

(** The people loop touches only the people table and its sequence. *)
Lemma upsert_person_frame (db db' : database) (person : person_payload) :
  upsert_person parse_date v now_ db person = inr db' →
  db_address db' = db_address db ∧ seq_address db' = seq_address db.
Proof.
  unfold upsert_person. destruct (_ && _).
  - destruct (table_update _ _ _ _); simpl; [done|]. by intros [= <-].
  - destruct (table_create _ _ _ _); simpl; [done|]. by intros [= <-].
Qed.

(** The address loop touches only the address table and its sequence. *)
Lemma upsert_address_frame (db db' : database) (addr : address_payload) :
  upsert_address parse_date v now_ db addr = inr db' →
  db_people db' = db_people db ∧ seq_people db' = seq_people db.
Proof.
  unfold upsert_address.
  destruct (truthy_id _); [destruct (find _ _)|].
  - destruct (table_update _ _ _ _); simpl; [done|]. by intros [= <-].
  - destruct (table_create _ _ _ _); simpl; [done|]. by intros [= <-].
  - destruct (table_create _ _ _ _); simpl; [done|]. by intros [= <-].
Qed.

(** The property loop touches only the property table and its sequence. *)
Lemma upsert_property_frame (db db' : database) (prop : property_payload) :
  upsert_property parse_date v now_ db prop = inr db' →
  db_people db' = db_people db ∧ db_address db' = db_address db.
Proof.
  unfold upsert_property.
  destruct (truthy_id _); [destruct (find _ _)|].
  - destruct (table_update _ _ _ _); simpl; [done|]. by intros [= <-].
  - destruct (table_create _ _ _ _); simpl; [done|]. by intros [= <-].
  - destruct (table_create _ _ _ _); simpl; [done|]. by intros [= <-].
Qed.

Lemma upsert_people_frame (l : list person_payload) (db db' : database) :
  tx_for (upsert_person parse_date v now_) db l = inr db' →
  db_entity db' = db_entity db ∧
  db_address db' = db_address db ∧ seq_address db' = seq_address db ∧
  db_entity_property db' = db_entity_property db ∧
  seq_entity_property db' = seq_entity_property db.
Proof.
  apply (tx_for_invariant
    (λ s, db_entity s = db_entity db ∧
          db_address s = db_address db ∧ seq_address s = seq_address db ∧
          db_entity_property s = db_entity_property db ∧
          seq_entity_property s = seq_entity_property db)); [|done].
  intros s x s' _ (? & ? & ? & ? & ?) Hx.
  pose proof (upsert_person_entity _ _ _ _ _ _ Hx).
  pose proof (upsert_person_frame _ _ _ Hx) as [? ?].
  pose proof (upsert_person_properties _ _ _ _ _ _ Hx) as [? ?].
  split_and!; congruence.
Qed.

Lemma upsert_addresses_frame (l : list address_payload) (db db' : database) :
  tx_for (upsert_address parse_date v now_) db l = inr db' →
  db_entity db' = db_entity db ∧
  db_people db' = db_people db ∧ seq_people db' = seq_people db ∧
  db_entity_property db' = db_entity_property db ∧
  seq_entity_property db' = seq_entity_property db.
Proof.
  apply (tx_for_invariant
    (λ s, db_entity s = db_entity db ∧
          db_people s = db_people db ∧ seq_people s = seq_people db ∧
          db_entity_property s = db_entity_property db ∧
          seq_entity_property s = seq_entity_property db)); [|done].
  intros s x s' _ (? & ? & ? & ? & ?) Hx.
  pose proof (upsert_address_entity _ _ _ _ _ _ Hx).
  pose proof (upsert_address_frame _ _ _ Hx) as [? ?].
  pose proof (upsert_address_properties _ _ _ _ _ _ Hx) as [? ?].
  split_and!; congruence.
Qed.

Lemma upsert_properties_frame (l : list property_payload) (db db' : database) :
  tx_for (upsert_property parse_date v now_) db l = inr db' →
  db_entity db' = db_entity db ∧
  db_people db' = db_people db ∧ db_address db' = db_address db.
Proof.
  apply (tx_for_invariant
    (λ s, db_entity s = db_entity db ∧
          db_people s = db_people db ∧ db_address s = db_address db)); [|done].
  intros s x s' _ (? & ? & ?) Hx.
  pose proof (upsert_property_entity _ _ _ _ _ _ Hx).
  pose proof (upsert_property_frame _ _ _ Hx) as [? ?].
  split_and!; congruence.
Qed.
End step_frames.

(** ** Rows a merge leaves alone, and rows it retires *)

Lemma find_id_Some {R} (id : Z) (l : list (Z * R)) (x : Z * R) :
  List.find (λ p, p.1 =? id) l = Some x → id ∈ l.*1.
Proof.
  intros [Hin Heq]%find_some. apply Z.eqb_eq in Heq. subst id.
  apply list_elem_of_fmap. exists x. split; [done|by apply list_elem_of_In].
Qed.

Lemma existsb_id_true {R} (id : Z) (l : list (Z * R)) :
  existsb (λ p, p.1 =? id) l = true → id ∈ l.*1.
Proof.
  intros (x & Hin & Heq)%existsb_exists. apply Z.eqb_eq in Heq. subst id.
  apply list_elem_of_fmap. exists x. split; [done|by apply list_elem_of_In].
Qed.

Section loops.
Variable parse_date : string → option Z.
Variable v : validated.
Variable now_ : Z.

(** A turn of the people loop changes at most the row of a person fetched
    with the kept entity, or adds a row under a key that was free. *)
Lemma upsert_person_others (db db' : database) (person : person_payload)
    (pid : Z) (p : people) :
  upsert_person parse_date v now_ db person = inr db' →
  db_people db !! pid = Some p → pid ∉ (fe_people (keptEntity v)).*1 →
  db_people db' !! pid = Some p.
Proof.
  unfold upsert_person, table_update, table_create. intros Hstep Hp Hnot.
  destruct (truthy_id _ && existsb _ _) eqn:Hbranch.
  - apply andb_true_iff in Hbranch as [_ Hown%existsb_id_true].
    destruct (db_people db !! pp_people_id person); simpl in Hstep; [|done].
    injection Hstep as <-. simpl. rewrite lookup_insert_ne; [done|].
    by intros <-.
  - destruct (db_people db !! seq_people db) eqn:Hseq; simpl in Hstep; [done|].
    injection Hstep as <-. simpl. rewrite lookup_insert_ne; [done|].
    intros <-. congruence.
Qed.

Lemma upsert_people_others (l : list person_payload) (db db' : database)
    (pid : Z) (p : people) :
  tx_for (upsert_person parse_date v now_) db l = inr db' →
  db_people db !! pid = Some p → pid ∉ (fe_people (keptEntity v)).*1 →
  db_people db' !! pid = Some p.
Proof.
  intros Hloop Hp Hnot.
  apply (tx_for_invariant (λ s, db_people s !! pid = Some p) _ _ _ _
           (λ s x s' _ Hs Hx, upsert_person_others s s' x pid p Hx Hs Hnot)
           Hp Hloop).
Qed.

Lemma upsert_address_others (db db' : database) (addr : address_payload)
    (aid : Z) (a : address) :
  upsert_address parse_date v now_ db addr = inr db' →
  db_address db !! aid = Some a → aid ∉ (fe_address (keptEntity v)).*1 →
  db_address db' !! aid = Some a.
Proof.
  unfold upsert_address, table_update, table_create. intros Hstep Ha Hnot.
  destruct (truthy_id _).
  - destruct (find _ _) as [existing|] eqn:Hfind.
    + apply find_id_Some in Hfind.
      destruct (db_address db !! ap_address_id addr); simpl in Hstep; [|done].
      injection Hstep as <-. simpl. rewrite lookup_insert_ne; [done|]. by intros <-.
    + destruct (db_address db !! seq_address db) eqn:Hseq; simpl in Hstep; [done|].
      injection Hstep as <-. simpl. rewrite lookup_insert_ne; [done|].
      intros <-. congruence.
  - destruct (db_address db !! seq_address db) eqn:Hseq; simpl in Hstep; [done|].
    injection Hstep as <-. simpl. rewrite lookup_insert_ne; [done|].
    intros <-. congruence.
Qed.

Lemma upsert_addresses_others (l : list address_payload) (db db' : database)
    (aid : Z) (a : address) :
  tx_for (upsert_address parse_date v now_) db l = inr db' →
  db_address db !! aid = Some a → aid ∉ (fe_address (keptEntity v)).*1 →
  db_address db' !! aid = Some a.
Proof.
  intros Hloop Ha Hnot.
  apply (tx_for_invariant (λ s, db_address s !! aid = Some a) _ _ _ _
           (λ s x s' _ Hs Hx, upsert_address_others s s' x aid a Hx Hs Hnot)
           Ha Hloop).
Qed.

Lemma upsert_property_others (db db' : database) (prop : property_payload)
    (k : Z) (r : entity_property) :
  upsert_property parse_date v now_ db prop = inr db' →
  db_entity_property db !! k = Some r → k ∉ (fe_properties (keptEntity v)).*1 →
  db_entity_property db' !! k = Some r.
Proof.
  unfold upsert_property, table_update, table_create. intros Hstep Hr Hnot.
  destruct (truthy_id _).
  - destruct (find _ _) as [existing|] eqn:Hfind.
    + apply find_id_Some in Hfind.
      destruct (db_entity_property db !! ep_entity_property_id prop);
        simpl in Hstep; [|done].
      injection Hstep as <-. simpl. rewrite lookup_insert_ne; [done|]. by intros <-.
    + destruct (db_entity_property db !! seq_entity_property db) eqn:Hseq;
        simpl in Hstep; [done|].
      injection Hstep as <-. simpl. rewrite lookup_insert_ne; [done|].
      intros <-. congruence.
  - destruct (db_entity_property db !! seq_entity_property db) eqn:Hseq;
      simpl in Hstep; [done|].
    injection Hstep as <-. simpl. rewrite lookup_insert_ne; [done|].
    intros <-. congruence.
Qed.

Lemma upsert_properties_others (l : list property_payload) (db db' : database)
    (k : Z) (r : entity_property) :
  tx_for (upsert_property parse_date v now_) db l = inr db' →
  db_entity_property db !! k = Some r → k ∉ (fe_properties (keptEntity v)).*1 →
  db_entity_property db' !! k = Some r.
Proof.
  intros Hloop Hr Hnot.
  apply (tx_for_invariant (λ s, db_entity_property s !! k = Some r) _ _ _ _
           (λ s x s' _ Hs Hx, upsert_property_others s s' x k r Hx Hs Hnot)
           Hr Hloop).
Qed.
End loops.

Lemma include_people_elem (eid : Z) (db : database) (k : Z) (p : people) :
  (k, p) ∈ include_people eid db
  ↔ db_people db !! k = Some p ∧ people_entity_id p = eid.
Proof. unfold include_people. by rewrite findMany_elem, Z.eqb_eq. Qed.

Lemma include_address_elem (eid : Z) (db : database) (k : Z) (a : address) :
  (k, a) ∈ include_address eid db
  ↔ db_address db !! k = Some a ∧ address_entity_id a = eid.
Proof. unfold include_address. by rewrite findMany_elem, Z.eqb_eq. Qed.

(** A successful response comes from a validated request whose
    transaction committed. *)
Lemma merge_success_inv parse_date error_message (payload : ApplyMergePayload)
    (env : environment) (w w' : world) (s : merge_success) :
  applyEntitiesDuplicateMergeController parse_date error_message payload env w
    = (inr s, w') →
  ∃ v, validation payload (w_db w) = inr v ∧
       transaction parse_date v env w = inr w' ∧
       keep_entity_id payload = Some (v_keep v) ∧
       remove_entity_ids payload = Some (v_remove v) ∧
       merged_people payload = Some (v_people v) ∧
       merged_address payload = Some (v_address v) ∧
       merged_properties payload = Some (v_properties v) ∧
       merged_name payload = v_name v ∧
       merged_trade_name payload = v_trade_name v ∧
       v_keep v ∉ v_remove v.
Proof.
  unfold applyEntitiesDuplicateMergeController.
  destruct (merged_entity payload) as [me|] eqn:Hme; [|done].
  destruct (validation payload (w_db w)) as [?|v] eqn:Hval; [done|].
  destruct (transaction parse_date v env w) as [[]|w1] eqn:Htx; [done|].
  intros [= <- <-]. exists v.
  assert (merged_name payload = v_name v ∧ merged_trade_name payload = v_trade_name v)
    as [? ?].
  { revert Hval. unfold validation.
    destruct (keep_entity_id payload) as [keep|]; [|done].
    destruct (truthy_id keep); cbn [negb]; [|done].
    destruct (remove_entity_ids payload) as [remove|]; [|done].
    destruct (length remove =? 0)%nat; [done|].
    case_bool_decide; [done|].
    destruct (merged_people payload); [|done].
    destruct (merged_address payload); [|done].
    destruct (merged_properties payload); [|done].
    cbv zeta. unfold entity_findMany.
    destruct (forallb in_int4 _); [|done]. destruct (negb _); [done|].
    destruct (find _ _); [|done]. by intros [= <-]. }
  pose proof (validation_inr _ _ _ Hval)
    as ((Hkeep & _ & Hremove & _ & Hnotin & _) & ? & ? & ? & _).
  split_and!; done.
Qed.

(** A failure is raised by the destructuring or by a check, with the
    world as it was, or by the transaction, which is then rolled back. *)
Lemma merge_failure_inv parse_date error_message (payload : ApplyMergePayload)
    (env : environment) (w w' : world) (e : merge_error) :
  applyEntitiesDuplicateMergeController parse_date error_message payload env w
    = (inl e, w') →
  w' = w ∧ (merged_entity payload = None ∨ validation payload (w_db w) = inl e) ∨
  ∃ v te aborted,
    is_Some (merged_entity payload) ∧
    validation payload (w_db w) = inr v ∧
    transaction parse_date v env w = inl (te, aborted) ∧
    w' = rollback w aborted ∧
    e = Refused (BadRequest ("Failed to apply merge: " +:+ error_message te)).
Proof.
  unfold applyEntitiesDuplicateMergeController.
  destruct (merged_entity payload) as [me|] eqn:Hme;
    [|intros [= <- <-]; left; split; [done|by left]].
  destruct (validation payload (w_db w)) as [e'|v] eqn:Hval;
    [intros [= <- <-]; left; split; [done|by right]|].
  destruct (transaction parse_date v env w) as [[te aborted]|w1] eqn:Htx; [|done].
  intros [= <- <-]. right. exists v, te, aborted. by split_and!.
Qed.

(** The tables of a committed world in terms of the loops' results. *)
Lemma committed_tables parse_date (v : validated) (env : environment)
    (w w' : world) :
  transaction parse_date v env w = inr w' →
  ∃ db1 db2 db3 db4,
    db_people db1 = db_people (w_db w) ∧
    tx_for (upsert_person parse_date v (now env)) db1 (v_people v) = inr db2 ∧
    db_people (w_db w') = db_people (delete_old_people v (now env) db2) ∧
    db_address (delete_old_people v (now env) db2) = db_address (w_db w) ∧
    tx_for (upsert_address parse_date v (now env))
           (delete_old_people v (now env) db2) (v_address v) = inr db3 ∧
    db_address (w_db w') = db_address (delete_old_addresses v (now env) db3) ∧
    db_entity_property (delete_old_addresses v (now env) db3)
      = db_entity_property (w_db w) ∧
    tx_for (upsert_property parse_date v (now env))
           (delete_kept_properties v (delete_old_addresses v (now env) db3))
           (v_properties v) = inr db4 ∧
    db_entity_property (w_db w') = db_entity_property (delete_old_properties v db4).
Proof.
  intros (e0 & db2 & db3 & db4 & _ & Hp & Ha & Hq & _ & _ & ->)%transaction_stages.
  eexists _, db2, db3, db4. split; [|split; [exact Hp|]]; [done|].
  pose proof (upsert_people_frame _ _ _ _ _ _ Hp) as (_ & Hpa & _ & Hpq & _).
  pose proof (upsert_addresses_frame _ _ _ _ _ _ Ha) as (_ & Hap & _ & Haq & _).
  pose proof (upsert_properties_frame _ _ _ _ _ _ Hq) as (_ & Hqp & Hqa).
  assert (Hdp : db_address (delete_old_people v (now env) db2) = db_address db2
                ∧ db_entity_property (delete_old_people v (now env) db2)
                  = db_entity_property db2).
  { unfold delete_old_people. by destruct (_ <? _)%nat. }
  assert (Hda : db_people (delete_old_addresses v (now env) db3) = db_people db3
                ∧ db_entity_property (delete_old_addresses v (now env) db3)
                  = db_entity_property db3).
  { unfold delete_old_addresses. by destruct (_ <? _)%nat. }
  assert (Hdq : db_people (delete_old_properties v db4) = db_people db4
                ∧ db_address (delete_old_properties v db4) = db_address db4).
  { unfold delete_old_properties. by destruct (_ <? _)%nat. }
  destruct Hdp as [Hdp1 Hdp2], Hda as [Hda1 Hda2], Hdq as [Hdq1 Hdq2].
  simpl in *. split_and!; try done.
  - rewrite Hdq1, Hqp. simpl. by rewrite Hda1, Hap.
  - by rewrite Hdp1, Hpa.
  - rewrite Hdq2, Hqa. done.
  - rewrite Hda2, Haq, Hdp2, Hpq. done.
Qed.

(** ** What a committed merge does to the other tables *)

Lemma ids_to_delete_elem {R} (rows : fetched_entity → list (Z * R))
    (removed : list fetched_entity) (k : Z) :
  k ∈ (concat (rows <$> removed)).*1
  ↔ ∃ fe r, fe ∈ removed ∧ (k, r) ∈ rows fe.
Proof.
  rewrite list_elem_of_fmap. split.
  - intros ([k' r] & -> & Hin). apply elem_of_concat in Hin as (l & Hin & Hl).
    apply list_elem_of_fmap in Hl as (fe & -> & Hfe). by exists fe, r.
  - intros (fe & r & Hfe & Hin). exists (k, r). split; [done|].
    apply elem_of_concat. exists (rows fe). split; [done|].
    apply list_elem_of_fmap. by exists fe.
Qed.

Lemma nonempty_length_pos {A} (l : list A) (x : A) :
  x ∈ l → (0 <? length l)%nat = true.
Proof. destruct l; [by intros ?%elem_of_nil|done]. Qed.

(** X12: after a successful merge every person and every address that
    belonged to a removed entity carries the deletion timestamp of the
    merge and is otherwise unchanged, whether or not the payload named
    it. *)
Theorem removed_people_and_addresses_retired parse_date error_message
    (payload : ApplyMergePayload) (env : environment) (w w' : world)
    (s : merge_success) (remove : list Z) :
  applyEntitiesDuplicateMergeController parse_date error_message payload env w
    = (inr s, w') →
  remove_entity_ids payload = Some remove →
  (∀ pid p, db_people (w_db w) !! pid = Some p → people_entity_id p ∈ remove →
     db_people (w_db w') !! pid = Some (soft_delete_person (now env) p)) ∧
  (∀ aid a, db_address (w_db w) !! aid = Some a → address_entity_id a ∈ remove →
     db_address (w_db w') !! aid = Some (soft_delete_address (now env) a)).
Proof.
  intros (v & Hval & Htx & _ & Hrem & _ & _ & _ & _ & _ & Hnotin)%merge_success_inv
         Hremove.
  rewrite Hremove in Hrem. injection Hrem as ->.
  destruct (validated_records _ _ _ Hval) as ((_ & Hkp & Hka & _) & Hfe & Hrid).
  destruct (committed_tables _ _ _ _ _ Htx)
    as (db1 & db2 & db3 & db4 & Hp1 & Hp & Hpf & Ha1 & Ha & Haf & _).
  split.
  - intros pid p Hlook Hown.
    assert (db_people db2 !! pid = Some p) as Hp2.
    { eapply upsert_people_others; [exact Hp|by rewrite Hp1|].
      rewrite Hkp. intros ([k p'] & -> & Hin)%list_elem_of_fmap.
      apply include_people_elem in Hin as [Hl Ho]. simpl in *. congruence. }
    rewrite Hpf. unfold delete_old_people.
    assert (pid ∈ (concat (fe_people <$> removedEntities v)).*1) as Hdel.
    { apply ids_to_delete_elem. destruct (Hrid _ Hown) as (fe & Hin & Heq).
      exists fe, p. split; [done|]. destruct (Hfe _ Hin) as (_ & -> & _).
      apply include_people_elem. by rewrite Heq. }
    rewrite (nonempty_length_pos _ _ Hdel). simpl.
    rewrite table_updateMany_lookup, Hp2. simpl.
    by rewrite bool_decide_eq_true_2.
  - intros aid a Hlook Hown.
    assert (db_address db3 !! aid = Some a) as Ha3.
    { eapply upsert_addresses_others; [exact Ha|by rewrite Ha1|].
      rewrite Hka. intros ([k a'] & -> & Hin)%list_elem_of_fmap.
      apply include_address_elem in Hin as [Hl Ho]. simpl in *. congruence. }
    rewrite Haf. unfold delete_old_addresses.
    assert (aid ∈ (concat (fe_address <$> removedEntities v)).*1) as Hdel.
    { apply ids_to_delete_elem. destruct (Hrid _ Hown) as (fe & Hin & Heq).
      exists fe, a. split; [done|]. destruct (Hfe _ Hin) as (_ & _ & -> & _).
      apply include_address_elem. by rewrite Heq. }
    rewrite (nonempty_length_pos _ _ Hdel). simpl.
    rewrite table_updateMany_lookup, Ha3. simpl.
    by rewrite bool_decide_eq_true_2.
Qed.

(** X13: after a successful merge no property row that belonged to a
    removed entity is left. *)
Theorem removed_properties_deleted parse_date error_message
    (payload : ApplyMergePayload) (env : environment) (w w' : world)
    (s : merge_success) (remove : list Z) (k : Z) (r : entity_property) :
  applyEntitiesDuplicateMergeController parse_date error_message payload env w
    = (inr s, w') →
  remove_entity_ids payload = Some remove →
  db_entity_property (w_db w) !! k = Some r → property_entity_id r ∈ remove →
  db_entity_property (w_db w') !! k = None.
Proof.
  intros (v & Hval & Htx & _ & Hrem & _)%merge_success_inv Hremove Hlook Hown.
  rewrite Hremove in Hrem. injection Hrem as ->.
  destruct (validated_records _ _ _ Hval) as (_ & Hfe & Hrid).
  destruct (committed_tables _ _ _ _ _ Htx)
    as (db1 & db2 & db3 & db4 & _ & _ & _ & _ & _ & _ & _ & _ & Hqf).
  rewrite Hqf. unfold delete_old_properties.
  assert (k ∈ (concat (fe_properties <$> removedEntities v)).*1) as Hdel.
  { apply ids_to_delete_elem. destruct (Hrid _ Hown) as (fe & Hin & Heq).
    exists fe, r. split; [done|]. destruct (Hfe _ Hin) as (_ & _ & _ & ->).
    apply include_properties_elem. by rewrite Heq. }
  rewrite (nonempty_length_pos _ _ Hdel). simpl.
  unfold table_deleteMany_in. apply map_lookup_filter_None. right.
  intros r' _. simpl. by intros ?.
Qed.

(** X14: a successful merge leaves every record outside the merge as it
    was: entities other than the kept and removed ones, and the people,
    addresses and properties owned by such entities. *)
Theorem unrelated_records_untouched parse_date error_message
    (payload : ApplyMergePayload) (env : environment) (w w' : world)
    (s : merge_success) (keep : Z) (remove : list Z) :
  applyEntitiesDuplicateMergeController parse_date error_message payload env w
    = (inr s, w') →
  keep_entity_id payload = Some keep → remove_entity_ids payload = Some remove →
  (∀ id, id ∉ keep :: remove →
     db_entity (w_db w') !! id = db_entity (w_db w) !! id) ∧
  (∀ pid p, db_people (w_db w) !! pid = Some p →
     people_entity_id p ∉ keep :: remove →
     db_people (w_db w') !! pid = Some p) ∧
  (∀ aid a, db_address (w_db w) !! aid = Some a →
     address_entity_id a ∉ keep :: remove →
     db_address (w_db w') !! aid = Some a) ∧
  (∀ k r, db_entity_property (w_db w) !! k = Some r →
     property_entity_id r ∉ keep :: remove →
     db_entity_property (w_db w') !! k = Some r).
Proof.
  intros (v & Hval & Htx & Hk & Hrem & _)%merge_success_inv Hkeep Hremove.
  rewrite Hkeep in Hk. injection Hk as ->.
  rewrite Hremove in Hrem. injection Hrem as ->.
  destruct (validated_records _ _ _ Hval) as ((_ & Hkp & Hka & Hkq) & Hfe & _).
  destruct (committed_tables _ _ _ _ _ Htx)
    as (db1 & db2 & db3 & db4 & Hp1 & Hp & Hpf & Ha1 & Ha & Haf & Hq1 & Hq & Hqf).
  split_and!.
  - intros id Hid. apply not_elem_of_cons in Hid as [Hne Hnr].
    destruct (transaction_entity_table _ _ _ _ _ Htx) as (e0 & _ & ->).
    rewrite table_updateMany_lookup, lookup_insert_ne by done.
    destruct (db_entity (w_db w) !! id); simpl; [|done].
    by rewrite bool_decide_eq_false_2.
  - intros pid p Hlook Hown. apply not_elem_of_cons in Hown as [Hne Hnr].
    assert (db_people db2 !! pid = Some p) as Hp2.
    { eapply upsert_people_others; [exact Hp|by rewrite Hp1|].
      rewrite Hkp. intros ([k p'] & -> & Hin)%list_elem_of_fmap.
      apply include_people_elem in Hin as [Hl Ho]. simpl in *. congruence. }
    rewrite Hpf. unfold delete_old_people. destruct (_ <? _)%nat; [|done]. simpl.
    rewrite table_updateMany_lookup, Hp2. simpl.
    rewrite bool_decide_eq_false_2; [done|].
    intros (fe & p' & Hin & Hrow)%ids_to_delete_elem.
    destruct (Hfe _ Hin) as (Hrid & Hpe & _). rewrite Hpe in Hrow.
    apply include_people_elem in Hrow as [Hl Ho]. congruence.
  - intros aid a Hlook Hown. apply not_elem_of_cons in Hown as [Hne Hnr].
    assert (db_address db3 !! aid = Some a) as Ha3.
    { eapply upsert_addresses_others; [exact Ha|by rewrite Ha1|].
      rewrite Hka. intros ([k a'] & -> & Hin)%list_elem_of_fmap.
      apply include_address_elem in Hin as [Hl Ho]. simpl in *. congruence. }
    rewrite Haf. unfold delete_old_addresses. destruct (_ <? _)%nat; [|done]. simpl.
    rewrite table_updateMany_lookup, Ha3. simpl.
    rewrite bool_decide_eq_false_2; [done|].
    intros (fe & a' & Hin & Hrow)%ids_to_delete_elem.
    destruct (Hfe _ Hin) as (Hrid & _ & Hae & _). rewrite Hae in Hrow.
    apply include_address_elem in Hrow as [Hl Ho]. congruence.
  - intros k r Hlook Hown. apply not_elem_of_cons in Hown as [Hne Hnr].
    assert (db_entity_property db4 !! k = Some r) as Hq4.
    { eapply upsert_properties_others; [exact Hq| |].
      - simpl. rewrite Hq1. apply map_lookup_filter_Some. done.
      - rewrite Hkq. intros ([k' r'] & -> & Hin)%list_elem_of_fmap.
        apply include_properties_elem in Hin as [Hl Ho]. simpl in *. congruence. }
    rewrite Hqf. unfold delete_old_properties. destruct (_ <? _)%nat; [|done]. simpl.
    unfold table_deleteMany_in. apply map_lookup_filter_Some. split; [done|]. simpl.
    intros (fe & r' & Hin & Hrow)%ids_to_delete_elem.
    destruct (Hfe _ Hin) as (Hrid & _ & _ & Hqe). rewrite Hqe in Hrow.
    apply include_properties_elem in Hrow as [Hl Ho]. congruence.
Qed.

(** X15: after a successful merge the kept entity carries the supplied
    name, or its old name when none was supplied; its trade name is
    replaced only when the payload has the field; its modification
    timestamp is the time of the merge; type and deletion state are
    unchanged. *)
Theorem kept_entity_after_merge parse_date error_message
    (payload : ApplyMergePayload) (env : environment) (w w' : world)
    (s : merge_success) (keep : Z) :
  applyEntitiesDuplicateMergeController parse_date error_message payload env w
    = (inr s, w') →
  keep_entity_id payload = Some keep →
  ∃ e0 e',
    db_entity (w_db w) !! keep = Some e0 ∧
    db_entity (w_db w') !! keep = Some e' ∧
    entity_name e' = match merged_name payload with
                     | Some n => Some n
                     | None => entity_name e0
                     end ∧
    entity_trade_name e' = default (entity_trade_name e0) (merged_trade_name payload) ∧
    entity_updated_at e' = Some (now env) ∧
    entity_type e' = entity_type e0 ∧
    entity_is_deleted e' = false ∧
    entity_deleted_at e' = entity_deleted_at e0.
Proof.
  intros (v & Hval & Htx & Hk & _ & _ & _ & _ & Hname & Htrade & Hnotin)%merge_success_inv
         Hkeep.
  rewrite Hkeep in Hk. injection Hk as ->.
  destruct (validated_records _ _ _ Hval) as ((Hrow & _) & _).
  pose proof (validation_inr _ _ _ Hval) as (_ & _ & _ & _ & _ & Hlive & _).
  destruct (Hlive (v_keep v)) as (_ & e & He & Hdel); [left|].
  destruct (transaction_entity_table _ _ _ _ _ Htx) as (e0 & He0 & Htable).
  rewrite He in He0, Hrow. injection He0 as <-. injection Hrow as Hrow.
  exists e, (update_kept v (now env) e). split; [done|]. split.
  - rewrite Htable, table_updateMany_lookup, lookup_insert_eq. simpl.
    by rewrite bool_decide_eq_false_2.
  - simpl. rewrite Hname, Htrade, <- Hrow. done.
Qed.

(** X16: a successful merge appends exactly one audit record, which names
    the kept entity, the number of removed entities and the numbers of
    supplied people and addresses. A failed request leaves the rows of
    every table as they were; it leaves the whole world as it was when
    the destructuring or a check refused it; and it appends no audit
    record unless the commit itself failed, in which case the record of
    the merge that did not happen has been written. *)
Theorem merge_audit_record parse_date error_message
    (payload : ApplyMergePayload) (env : environment) (w w' : world)
    (r : merge_error + merge_success) :
  applyEntitiesDuplicateMergeController parse_date error_message payload env w
    = (r, w') →
  match r with
  | inl _ =>
      same_rows (w_db w) (w_db w') ∧
      (merged_entity payload = None ∨
       (∃ e, validation payload (w_db w) = inl e) → w' = w) ∧
      (w_logs w' = w_logs w ∨
       commit_ok env = false ∧
       ∃ keep remove people addresses,
         keep_entity_id payload = Some keep ∧
         remove_entity_ids payload = Some remove ∧
         merged_people payload = Some people ∧
         merged_address payload = Some addresses ∧
         w_logs w' = w_logs w ++
           [expected_audit keep (length remove) (length people)
                           (length addresses) (now env)])
  | inr s =>
      ∃ remove people addresses,
        remove_entity_ids payload = Some remove ∧
        merged_people payload = Some people ∧
        merged_address payload = Some addresses ∧
        w_logs w' = w_logs w ++
          [expected_audit (merged_entity_id s) (length remove) (length people)
                          (length addresses) (now env)]
  end.
Proof.
  intros Hrun. destruct r as [e|s].
  - apply merge_failure_inv in Hrun
      as [[-> _]|(v & te & aborted & [me Hme] & Hval & Htx & -> & _)].
    { split; [done|]. split; [done|by left]. }
    split; [done|]. split.
    + intros [Hnone|[e' He']]; [by rewrite Hme in Hnone|by rewrite Hval in He'].
    + destruct (transaction_aborted _ _ _ _ _ _ Htx)
        as [[Hlogs _]|(_ & _ & Hc & Hlogs)]; [by left|].
      right. split; [done|].
      apply validation_inr in Hval
        as ((Hkeep & _ & Hremove & _) & Hp & Ha & _).
      exists (v_keep v), (v_remove v), (v_people v), (v_address v).
      by split_and!.
  - pose proof (merge_result_shape _ _ _ _ _ _ _ Hrun) as (_ & Hkeep & _).
    apply merge_success_inv in Hrun
      as (v & Hval & Htx & Hk & Hrem & Hp & Ha & _).
    rewrite Hkeep in Hk. injection Hk as Hk.
    apply transaction_stages in Htx
      as (? & ? & ? & ? & _ & _ & _ & _ & _ & _ & ->).
    exists (v_remove v), (v_people v), (v_address v). simpl.
    split_and!; [done..|]. unfold merge_audit, expected_audit. by rewrite Hk.
Qed.

(** X17: when every supplied person carries the id of a person of the
    kept entity, a successful merge creates no person: the people table
    has the same keys afterwards. *)
Theorem people_updated_in_place parse_date error_message
    (payload : ApplyMergePayload) (env : environment) (w w' : world)
    (s : merge_success) (keep : Z) (people : list person_payload) :
  applyEntitiesDuplicateMergeController parse_date error_message payload env w
    = (inr s, w') →
  keep_entity_id payload = Some keep → merged_people payload = Some people →
  (∀ person, person ∈ people →
     pp_people_id person ≠ 0 ∧
     ∃ p, db_people (w_db w) !! pp_people_id person = Some p ∧
          people_entity_id p = keep) →
  ∀ pid, is_Some (db_people (w_db w') !! pid) ↔ is_Some (db_people (w_db w) !! pid).
Proof.
  intros (v & Hval & Htx & Hk & _ & Hp & _)%merge_success_inv Hkeep Hpeople Hown pid.
  rewrite Hkeep in Hk. injection Hk as ->.
  rewrite Hpeople in Hp. injection Hp as ->.
  destruct (validated_records _ _ _ Hval) as ((_ & Hkp & _) & _).
  destruct (committed_tables _ _ _ _ _ Htx)
    as (db1 & db2 & db3 & db4 & Hp1 & Hloop & Hpf & _).
  assert (is_Some (db_people db2 !! pid) ↔ is_Some (db_people (w_db w) !! pid)) as H2.
  { eapply (tx_for_invariant
      (λ s, is_Some (db_people s !! pid) ↔ is_Some (db_people (w_db w) !! pid)));
      [|by rewrite Hp1|exact Hloop].
    intros s0 person s1 Hin Hs Hstep. destruct (Hown person Hin) as (Hid & p & Hl & Ho).
    unfold upsert_person, table_update in Hstep.
    rewrite (proj2 (truthy_id_true _) Hid) in Hstep.
    assert (existsb (λ q, q.1 =? pp_people_id person) (fe_people (keptEntity v))
            = true) as Hex.
    { apply existsb_exists. exists (pp_people_id person, p).
      split; [|apply Z.eqb_refl]. apply list_elem_of_In. rewrite Hkp.
      by apply include_people_elem. }
    rewrite Hex in Hstep. simpl in Hstep.
    destruct (db_people s0 !! pp_people_id person) eqn:Hcur; simpl in Hstep; [|done].
    injection Hstep as <-. simpl. rewrite <- Hs, lookup_insert.
    case_decide; [subst; by rewrite Hcur|done]. }
  rewrite Hpf, <- H2. unfold delete_old_people. destruct (_ <? _)%nat; [|done].
  simpl. rewrite table_updateMany_lookup. by rewrite fmap_is_Some.
Qed.

(** X18: a successful merge never changes the primary flag of an address
    that existed before it, whatever flag the payload supplies. *)
Theorem address_primary_flag_kept parse_date error_message
    (payload : ApplyMergePayload) (env : environment) (w w' : world)
    (s : merge_success) (aid : Z) (a : address) :
  applyEntitiesDuplicateMergeController parse_date error_message payload env w
    = (inr s, w') →
  db_address (w_db w) !! aid = Some a →
  ∃ a', db_address (w_db w') !! aid = Some a' ∧
        address_is_primary a' = address_is_primary a.
Proof.
  intros (v & Hval & Htx & _)%merge_success_inv Hlook.
  destruct (committed_tables _ _ _ _ _ Htx)
    as (db1 & db2 & db3 & db4 & _ & _ & _ & Ha1 & Hloop & Haf & _).
  assert (∃ a', db_address db3 !! aid = Some a'
                ∧ address_is_primary a' = address_is_primary a) as (a3 & H3 & Hflag).
  { eapply (tx_for_invariant
      (λ s, ∃ a', db_address s !! aid = Some a'
                  ∧ address_is_primary a' = address_is_primary a));
      [|by exists a; rewrite Ha1|exact Hloop].
    intros s0 addr s1 _ (a0 & Hs & Hf) Hstep.
    unfold upsert_address, table_update, table_create in Hstep.
    assert (Hcreate : ∀ row t,
      match db_address s0 !! seq_address s0 with
      | Some _ => inl (UniqueViolation "address" (seq_address s0))
      | None => inr (<[seq_address s0 := row]> (db_address s0))
      end = inr t → t !! aid = Some a0).
    { intros row t. destruct (db_address s0 !! seq_address s0) eqn:Hseq; [done|].
      intros [= <-]. rewrite lookup_insert_ne; [done|]. intros <-. congruence. }
    destruct (truthy_id _); [destruct (find _ _)|].
    - destruct (db_address s0 !! ap_address_id addr) as [cur|] eqn:Hcur;
        simpl in Hstep; [|done].
      injection Hstep as <-. simpl. rewrite lookup_insert. case_decide.
      + subst. rewrite Hs in Hcur. injection Hcur as <-. eexists. split; [done|].
        done.
      + by exists a0.
    - destruct (match db_address s0 !! seq_address s0 with Some _ => _ | None => _ end)
        as [?|t] eqn:Hc; simpl in Hstep; [done|].
      injection Hstep as <-. simpl. exists a0. split; [|done]. by eapply Hcreate.
    - destruct (match db_address s0 !! seq_address s0 with Some _ => _ | None => _ end)
        as [?|t] eqn:Hc; simpl in Hstep; [done|].
      injection Hstep as <-. simpl. exists a0. split; [|done]. by eapply Hcreate. }
  rewrite Haf. unfold delete_old_addresses. destruct (_ <? _)%nat.
  - simpl. rewrite table_updateMany_lookup, H3. simpl.
    case_bool_decide; eexists; (split; [done|]); done.
  - by exists a3.
Qed.

(** ** When a merge commits *)

Lemma tx_for_progress {Err A S} (P : S → Prop) (f : S → A → Err + S)
    (l : list A) (st : S) :
  (∀ s x, x ∈ l → P s → ∃ s', f s x = inr s' ∧ P s') →
  P st → ∃ st', tx_for f st l = inr st' ∧ P st'.
Proof.
  revert st. induction l as [|x l IH]; intros st Hf Hst; simpl.
  - by exists st.
  - destruct (Hf st x) as (s1 & -> & Hs1); [left|done|]. simpl.
    apply IH; [|done]. intros s y Hy. apply Hf. by right.
Qed.

Section commit.
Variable parse_date : string → option Z.
Variable v : validated.
Variable now_ : Z.

Lemma upsert_people_succeed (db : database) :
  (∀ k, is_Some (db_people db !! k) → k < seq_people db) →
  (∀ k, k ∈ (fe_people (keptEntity v)).*1 → is_Some (db_people db !! k)) →
  ∃ db', tx_for (upsert_person parse_date v now_) db (v_people v) = inr db'.
Proof.
  intros Hseq Hkept.
  destruct (tx_for_progress
    (λ s, (∀ k, is_Some (db_people s !! k) → k < seq_people s) ∧
          (∀ k, k ∈ (fe_people (keptEntity v)).*1 → is_Some (db_people s !! k)))
    (upsert_person parse_date v now_) (v_people v) db) as (db' & ? & _);
    [|done|by exists db'].
  intros s person _ [Hs Hk]. unfold upsert_person, table_update, table_create.
  destruct (truthy_id _ && existsb _ _) eqn:Hbranch.
  - apply andb_true_iff in Hbranch as [_ Hown%existsb_id_true].
    destruct (Hk _ Hown) as [cur ->]. simpl. eexists. split; [done|]. simpl. split.
    + intros k. rewrite lookup_insert. case_decide; [|by apply Hs].
      subst. intros _. apply Hs, Hk, Hown.
    + intros k Hin. rewrite lookup_insert. case_decide; [done|by apply Hk].
  - destruct (db_people s !! seq_people s) eqn:Hfree.
    { assert (seq_people s < seq_people s) by (apply Hs; by eexists). lia. }
    simpl. eexists. split; [done|]. simpl. split.
    + intros k. rewrite lookup_insert. case_decide; [lia|].
      intros Hk'. apply Hs in Hk'. lia.
    + intros k Hin. rewrite lookup_insert. case_decide; [done|by apply Hk].
Qed.

Lemma upsert_addresses_succeed (db : database) :
  (∀ k, is_Some (db_address db !! k) → k < seq_address db) →
  (∀ k, k ∈ (fe_address (keptEntity v)).*1 → is_Some (db_address db !! k)) →
  ∃ db', tx_for (upsert_address parse_date v now_) db (v_address v) = inr db'.
Proof.
  intros Hseq Hkept.
  destruct (tx_for_progress
    (λ s, (∀ k, is_Some (db_address s !! k) → k < seq_address s) ∧
          (∀ k, k ∈ (fe_address (keptEntity v)).*1 → is_Some (db_address s !! k)))
    (upsert_address parse_date v now_) (v_address v) db) as (db' & ? & _);
    [|done|by exists db'].
  intros s addr _ [Hs Hk]. unfold upsert_address, table_update, table_create.
  assert (Hcreate : ∀ row,
    ∃ s', (t ←tx tx_stmt (set_address (db_address s) (seq_address s + 1) s)
                 match db_address s !! seq_address s with
                 | Some _ => inl (UniqueViolation "address" (seq_address s))
                 | None => inr (<[seq_address s := row]> (db_address s))
                 end; inr (set_address t (seq_address s + 1) s)) = inr s' ∧
          (∀ k, is_Some (db_address s' !! k) → k < seq_address s') ∧
          (∀ k, k ∈ (fe_address (keptEntity v)).*1 → is_Some (db_address s' !! k))).
  { intros row. destruct (db_address s !! seq_address s) eqn:Hfree.
    { assert (seq_address s < seq_address s) by (apply Hs; by eexists). lia. }
    simpl. eexists. split; [done|]. simpl. split.
    - intros k. rewrite lookup_insert. case_decide; [lia|].
      intros Hk'. apply Hs in Hk'. lia.
    - intros k Hin. rewrite lookup_insert. case_decide; [done|by apply Hk]. }
  destruct (truthy_id _); [|apply Hcreate].
  destruct (find _ _) as [existing|] eqn:Hfind; [|apply Hcreate].
  apply find_id_Some in Hfind. destruct (Hk _ Hfind) as [cur ->]. simpl.
  eexists. split; [done|]. simpl. split.
  - intros k. rewrite lookup_insert. case_decide; [|by apply Hs].
    subst. intros _. apply Hs, Hk, Hfind.
  - intros k Hin. rewrite lookup_insert. case_decide; [done|by apply Hk].
Qed.

Lemma upsert_properties_succeed (db : database) :
  (∀ k, is_Some (db_entity_property db !! k) → k < seq_entity_property db) →
  (∀ p, p ∈ v_properties v →
     ¬ (ep_entity_property_id p ≠ 0
        ∧ ep_entity_property_id p ∈ kept_property_ids v)) →
  ∃ db', tx_for (upsert_property parse_date v now_) db (v_properties v) = inr db'.
Proof.
  intros Hseq Hnone.
  destruct (tx_for_progress
    (λ s, ∀ k, is_Some (db_entity_property s !! k) → k < seq_entity_property s)
    (upsert_property parse_date v now_) (v_properties v) db) as (db' & ? & _);
    [|done|by exists db'].
  intros s prop Hin Hs. unfold upsert_property, table_update, table_create.
  assert (Hcreate : ∀ row,
    ∃ s', (t ←tx tx_stmt (set_entity_property (db_entity_property s)
                                              (seq_entity_property s + 1) s)
                 match db_entity_property s !! seq_entity_property s with
                 | Some _ => inl (UniqueViolation "entity_property"
                                                  (seq_entity_property s))
                 | None => inr (<[seq_entity_property s := row]>
                                  (db_entity_property s))
                 end; inr (set_entity_property t (seq_entity_property s + 1) s))
          = inr s' ∧
          (∀ k, is_Some (db_entity_property s' !! k) → k < seq_entity_property s')).
  { intros row. destruct (db_entity_property s !! seq_entity_property s) eqn:Hfree.
    { assert (seq_entity_property s < seq_entity_property s)
        by (apply Hs; by eexists). lia. }
    simpl. eexists. split; [done|]. simpl.
    intros k. rewrite lookup_insert. case_decide; [lia|].
    intros Hk'. apply Hs in Hk'. lia. }
  destruct (truthy_id _) eqn:Hid; [|apply Hcreate].
  destruct (find _ _) as [existing|] eqn:Hfind; [|apply Hcreate].
  apply find_id_Some in Hfind. apply truthy_id_true in Hid.
  by destruct (Hnone prop Hin).
Qed.
End commit.

(** X19: on a database whose keys lie below the sequences, with the audit
    file writable, a request that passes validation is applied exactly
    when the commit goes through and no supplied property carries the id
    of a property the kept entity already owns. *)
Theorem merge_commits_iff parse_date error_message
    (payload : ApplyMergePayload) (env : environment) (w : world)
    (keep : Z) (remove : list Z) (props : list property_payload) :
  well_formed payload keep remove → NoDup remove →
  (∀ id, id ∈ keep :: remove → live (w_db w) id) →
  merged_properties payload = Some props →
  sequences_ok (w_db w) → log_ok env = true →
  (∃ w', applyEntitiesDuplicateMergeController parse_date error_message
           payload env w
         = (inr {| merged_entity_id := keep; deleted_entity_ids_out := remove;
                   applied := true |}, w'))
  ↔ commit_ok env = true ∧
    ∀ p, p ∈ props →
      ¬ (ep_entity_property_id p ≠ 0 ∧
         ∃ r, db_entity_property (w_db w) !! ep_entity_property_id p = Some r ∧
              property_entity_id r = keep).
Proof.
  intros Hwf Hnd Hlive Hprops (Hsp & Hsa & Hsq) Hlog.
  pose proof (well_formed_merged_entity _ _ _ Hwf) as [me Hme].
  destruct (validation_complete _ _ _ _ Hwf Hnd Hlive) as [v Hval].
  pose proof (validation_inr _ _ _ Hval)
    as ((Hk & _ & Hr & _) & _ & _ & Hq & _).
  destruct Hwf as (Hkeep & _ & Hremove & _).
  rewrite Hkeep in Hk. injection Hk as ->.
  rewrite Hremove in Hr. injection Hr as ->.
  rewrite Hprops in Hq. injection Hq as ->.
  destruct (validated_records _ _ _ Hval) as ((Hrow & Hkp & Hka & Hkq) & _).
  unfold applyEntitiesDuplicateMergeController. rewrite Hme, Hval. split.
  - intros [w' Hrun].
    destruct (transaction parse_date v env w) as [[]|w1] eqn:Htx; [done|].
    split.
    + by apply transaction_stages in Htx
        as (? & ? & ? & ? & _ & _ & _ & _ & _ & ? & _).
    + by destruct (committed_merge_replaces_properties _ _ _ _ _ _ Hsq Hval Htx)
        as [_ ?].
  - intros [Hcommit Hnone].
    assert (∃ w', transaction parse_date v env w = inr w') as [w' ->];
      [|by eexists].
    set (db1 := set_entity (<[v_keep v := update_kept v (now env)
                                           (fe_entity (keptEntity v))]>
                              (db_entity (w_db w))) (w_db w)).
    destruct (upsert_people_succeed parse_date v (now env) db1) as [db2 Hp].
    { done. }
    { intros k ([k' p] & -> & Hin)%list_elem_of_fmap. rewrite Hkp in Hin.
      apply include_people_elem in Hin as [Hl _]. by eexists. }
    pose proof (upsert_people_frame _ _ _ _ _ _ Hp) as (_ & Hpa & Hpsa & Hpq & Hpsq).
    destruct (upsert_addresses_succeed parse_date v (now env)
                (delete_old_people v (now env) db2)) as [db3 Ha].
    { unfold delete_old_people. destruct (_ <? _)%nat; simpl; rewrite Hpa, Hpsa; done. }
    { intros k ([k' a] & -> & Hin)%list_elem_of_fmap. rewrite Hka in Hin.
      apply include_address_elem in Hin as [Hl _].
      unfold delete_old_people. destruct (_ <? _)%nat; simpl; rewrite Hpa; by eexists. }
    pose proof (upsert_addresses_frame _ _ _ _ _ _ Ha) as (_ & _ & _ & Haq & Hasq).
    assert (Hq3 : db_entity_property (delete_old_addresses v (now env) db3)
                  = db_entity_property (w_db w)
                  ∧ seq_entity_property (delete_old_addresses v (now env) db3)
                    = seq_entity_property (w_db w)).
    { assert (db_entity_property (delete_old_people v (now env) db2)
              = db_entity_property db2
              ∧ seq_entity_property (delete_old_people v (now env) db2)
                = seq_entity_property db2) as [E1 E2].
      { unfold delete_old_people. by destruct (_ <? _)%nat. }
      unfold delete_old_addresses.
      destruct (_ <? _)%nat; simpl; rewrite Haq, Hasq, E1, E2, Hpq, Hpsq; done. }
    destruct Hq3 as [Hq3 Hsq3].
    destruct (upsert_properties_succeed parse_date v (now env)
                (delete_kept_properties v (delete_old_addresses v (now env) db3)))
      as [db4 Hq].
    { simpl. rewrite Hq3, Hsq3.
      intros k [r [Hr _]%map_lookup_filter_Some]. apply Hsq. by eexists. }
    { intros p Hp' [Hid Hown]. apply (Hnone p Hp'). split; [done|].
      unfold kept_property_ids in Hown. rewrite Hkq in Hown.
      apply list_elem_of_fmap in Hown as ([k r] & -> & Hin).
      apply include_properties_elem in Hin. by exists r. }
    eexists. apply transaction_stages.
    exists (fe_entity (keptEntity v)), db2, db3, db4. done.
Qed.

(** ** The sample merge, step by step *)

Lemma busy_merge_run :
  applyEntitiesDuplicateMergeController no_dates (λ _, "")
    merge_payload sample_env busy_world
  = (inr sample_success, busy_world_after).
Proof.
  unfold busy_world_after.
  destruct (applyEntitiesDuplicateMergeController no_dates (λ _, "")
              merge_payload sample_env busy_world) as [r w'] eqn:Hrun.
  pose proof (f_equal fst Hrun) as Hfst. vm_compute in Hfst. by subst r.
Qed.

Lemma removed_people_and_addresses_retired_witness :
  db_people (w_db busy_world_after) !! 20
    = Some (soft_delete_person 1000 (plain_person 2 "Ann" "Lee")) ∧
  db_address (w_db busy_world_after) !! 40
    = Some (soft_delete_address 1000 (plain_address 2 "1 Main Street")).
Proof.
  destruct (removed_people_and_addresses_retired no_dates (λ _, "")
              merge_payload sample_env busy_world busy_world_after
              sample_success [2] busy_merge_run eq_refl) as [Hp Ha].
  split.
  - apply (Hp 20 (plain_person 2 "Ann" "Lee")); [vm_compute; reflexivity|left].
  - apply (Ha 40 (plain_address 2 "1 Main Street")); [vm_compute; reflexivity|left].
Defined.

Lemma removed_properties_deleted_witness :
  db_entity_property (w_db busy_world_after) !! 6 = None.
Proof.
  apply (removed_properties_deleted no_dates (λ _, "") merge_payload sample_env
           busy_world busy_world_after sample_success [2] 6
           (plain_property 2 7 "b@x.org" "Yes") busy_merge_run eq_refl).
  - vm_compute. reflexivity.
  - left.
Defined.

Lemma unrelated_records_untouched_witness :
  db_entity (w_db busy_world_after) !! 3 = Some (plain_entity "Zeta") ∧
  db_people (w_db busy_world_after) !! 25 = Some (plain_person 3 "Zoe" "Zed") ∧
  db_address (w_db busy_world_after) !! 45 = Some (plain_address 3 "9 Far Rd") ∧
  db_entity_property (w_db busy_world_after) !! 8
    = Some (plain_property 3 7 "z@x.org" "Yes").
Proof.
  assert (Hout : ∀ x : Z, x = 3 → x ∉ [1; 2]).
  { intros x -> Hin. repeat (apply elem_of_cons in Hin as [Hin|Hin]; [discriminate|]).
    by apply elem_of_nil in Hin. }
  destruct (unrelated_records_untouched no_dates (λ _, "") merge_payload
              sample_env busy_world busy_world_after sample_success 1 [2]
              busy_merge_run eq_refl eq_refl) as (He & Hp & Ha & Hq).
  split_and!.
  - rewrite (He 3); [vm_compute; reflexivity|by apply Hout].
  - apply Hp; [vm_compute; reflexivity|by apply Hout].
  - apply Ha; [vm_compute; reflexivity|by apply Hout].
  - apply Hq; [vm_compute; reflexivity|by apply Hout].
Defined.

Lemma kept_entity_after_merge_witness :
  ∃ e', db_entity (w_db busy_world_after) !! 1 = Some e' ∧
        entity_name e' = Some "Acme Ltd" ∧
        entity_updated_at e' = Some 1000 ∧ entity_is_deleted e' = false.
Proof.
  destruct (kept_entity_after_merge no_dates (λ _, "") merge_payload sample_env
              busy_world busy_world_after sample_success 1 busy_merge_run eq_refl)
    as (e0 & e' & _ & Hl & Hn & _ & Hu & _ & Hd & _).
  exists e'. split_and!; [exact Hl|exact Hn|exact Hu|exact Hd].
Defined.

Lemma merge_audit_record_witness :
  w_logs busy_world_after = [expected_audit 1 1 1 1 1000] ∧
  audit_old_value (expected_audit 1 1 1 1 1000) = "Merged from 1 duplicates".
Proof.
  destruct (merge_audit_record no_dates (λ _, "") merge_payload sample_env
              busy_world busy_world_after (inr sample_success) busy_merge_run)
    as (remove & people & addresses & [= <-] & [= <-] & [= <-] & Hlogs).
  split; [exact Hlogs|vm_compute; reflexivity].
Defined.

Lemma people_updated_in_place_witness :
  db_people (w_db busy_world_after) !! 26 = None.
Proof.
  assert (Hown : ∀ person, person ∈ default [] (merged_people merge_payload) →
            pp_people_id person ≠ 0 ∧
            ∃ p, db_people (w_db busy_world) !! pp_people_id person = Some p ∧
                 people_entity_id p = 1).
  { intros person Hin. apply list_elem_of_singleton in Hin. subst person.
    split; [done|]. eexists. split; [vm_compute; reflexivity|reflexivity]. }
  pose proof (people_updated_in_place no_dates (λ _, "") merge_payload sample_env
                busy_world busy_world_after sample_success 1 _
                busy_merge_run eq_refl eq_refl Hown 26) as Hsame.
  destruct (db_people (w_db busy_world_after) !! 26) as [p|] eqn:Hlook; [|done].
  destruct (proj1 Hsame ltac:(by eexists)) as [q Hq].
  vm_compute in Hq. discriminate Hq.
Defined.

Lemma address_primary_flag_kept_witness :
  ∃ a', db_address (w_db busy_world_after) !! 30 = Some a' ∧
        address_is_primary a' = "Yes".
Proof.
  destruct (address_primary_flag_kept no_dates (λ _, "") merge_payload sample_env
              busy_world busy_world_after sample_success 30
              (plain_address 1 "1 Main St") busy_merge_run
              ltac:(vm_compute; reflexivity)) as (a' & Hl & Hf).
  exists a'. split; [exact Hl|exact Hf].
Defined.

Lemma busy_db_sequences_ok : sequences_ok busy_db.
Proof.
  assert (Hkeys : ∀ {R} (t : gmap Z R) (bound : Z),
    forallb (λ kr, kr.1 <? bound) (map_to_list t) = true →
    ∀ k, is_Some (t !! k) → k < bound).
  { intros R t bound Hall k [r Hr]. apply elem_of_map_to_list in Hr.
    rewrite forallb_forall in Hall. apply list_elem_of_In in Hr.
    apply Hall in Hr. simpl in Hr. lia. }
  split_and!; apply Hkeys; vm_compute; reflexivity.
Qed.

Lemma merge_commits_iff_witness :
  ∃ w', applyEntitiesDuplicateMergeController no_dates (λ _, "")
          merge_payload sample_env busy_world = (inr sample_success, w').
Proof.
  apply (merge_commits_iff no_dates (λ _, "") merge_payload sample_env busy_world
           1 [2] (default [] (merged_properties merge_payload))).
  - unfold well_formed. simpl. split_and!; try done; try by eexists.
    intros Hin. apply list_elem_of_singleton in Hin. discriminate Hin.
  - apply NoDup_singleton.
  - intros id Hin. apply elem_of_cons in Hin as [->|Hin];
      [|apply list_elem_of_singleton in Hin as ->];
      (split; [reflexivity|]; eexists; split; [vm_compute; reflexivity|reflexivity]).
  - reflexivity.
  - exact busy_db_sequences_ok.
  - reflexivity.
  - split; [reflexivity|]. intros p Hin [_ (r & Hl & Ho)].
    repeat (apply elem_of_cons in Hin as [->|Hin];
            [vm_compute in Hl; first [discriminate Hl
                                     |injection Hl as <-; vm_compute in Ho;
                                      discriminate Ho]|]).
    by apply elem_of_nil in Hin.
Defined.

(** The sample merge when the commit fails: the request is refused and
    every row is as before, but the sequences have advanced past the keys
    drawn for the new address and the new property, and the audit file of
    the merge that did not happen has been written. *)
Example failed_commit_is_rolled_back :
  let run := applyEntitiesDuplicateMergeController no_dates (λ _, "commit failed")
               merge_payload failing_commit_env merge_world in
  run.1 = inl (Refused (BadRequest "Failed to apply merge: commit failed")) ∧
  same_rows merge_db (w_db run.2) ∧
  seq_people (w_db run.2) = seq_people merge_db ∧
  seq_address (w_db run.2) = seq_address merge_db + 1 ∧
  seq_entity_property (w_db run.2) = seq_entity_property merge_db + 2 ∧
  w_logs run.2 = [expected_audit 1 1 1 1 1000].
Proof. vm_compute. split_and!; reflexivity. Qed.

(** The request that names property 5 of the kept entity is refused by the
    failing update; nothing had been created before it, so the world is
    as it was, sequences included. *)
Example own_property_abort_is_rolled_back :
  applyEntitiesDuplicateMergeController no_dates (λ _, "P2025")
    merge_payload_own_property sample_env merge_world
  = (inl (Refused (BadRequest "Failed to apply merge: P2025")), merge_world).
Proof. vm_compute. reflexivity. Qed.

(** ** The big-integer middleware *)

(** Induction over query results, with the hypothesis for every member of
    an array or object. *)
Lemma js_value_induction (P : js_value → Prop) :
  P JsUndefined → P JsNull → (∀ b, P (JsBool b)) → (∀ n, P (JsNumber n)) →
  (∀ s, P (JsString s)) → (∀ z, P (JsBigInt z)) → (∀ t, P (JsDate t)) →
  (∀ items, Forall P items → P (JsArray items)) →
  (∀ fields, Forall (λ kv, P kv.2) fields → P (JsObject fields)) →
  ∀ obj, P obj.
Proof.
  intros Hu Hn Hb Hnum Hs Hz Hd Ha Ho.
  fix IH 1. intros [| |b|n|s|z|t|items|fields].
  - exact Hu.
  - exact Hn.
  - apply Hb.
  - apply Hnum.
  - apply Hs.
  - apply Hz.
  - apply Hd.
  - apply Ha. induction items as [|x items IHl]; constructor; [apply IH|exact IHl].
  - apply Ho. induction fields as [|[k x] fields IHl]; constructor;
      [apply IH|exact IHl].
Qed.

(** X20: whatever a query returns, the converted value holds no bigint
    and no [Date] at any depth: every bigint has become a string and every
    [Date] an object without properties. *)
Theorem converted_result_has_no_bigint (obj : js_value) :
  bigint_free (convertBigIntToString obj) ∧
  date_free (convertBigIntToString obj) ∧
  (∀ z, convertBigIntToString (JsBigInt z) = JsString (pretty z)) ∧
  (∀ t, convertBigIntToString (JsDate t) = JsObject []).
Proof.
  split_and!; [| |done..].
  - induction obj as [| | | | | | |items IH|fields IH] using js_value_induction;
      simpl; try done.
    + induction IH as [|x items Hx _ IHl]; simpl; [done|by split].
    + induction IH as [|[k x] fields Hx _ IHl]; simpl; [done|by split].
  - induction obj as [| | | | | | |items IH|fields IH] using js_value_induction;
      simpl; try done.
    + induction IH as [|x items Hx _ IHl]; simpl; [done|by split].
    + induction IH as [|[k x] fields Hx _ IHl]; simpl; [done|by split].
Qed.


(** X22: the conversion keeps the shape of a result: arrays keep their
    length and order, objects keep their keys in order, and only leaves
    change. *)
Theorem conversion_keeps_shape (obj : js_value) :
  shape_of (convertBigIntToString obj) = shape_of obj.
Proof.
  induction obj as [| | | | | | |items IH|fields IH] using js_value_induction;
    simpl; try done.
  - f_equal. induction IH as [|x items Hx _ IHl]; simpl; [done|by f_equal].
  - f_equal. induction IH as [|[k x] fields Hx _ IHl]; simpl; [done|].
    simpl in Hx. by rewrite Hx, IHl.
Qed.


Example conversion_of_a_row :
  bigint_middleware
    (JsArray [JsObject [("id", JsBigInt 9007199254740993);
                        ("created_at", JsDate 1700000000000);
                        ("name", JsString "Acme")]])
  = JsArray [JsObject [("id", JsString "9007199254740993");
                       ("created_at", JsObject []);
                       ("name", JsString "Acme")]].
Proof. vm_compute. reflexivity. Qed.

(** ** Natural-language queries *)

Lemma calls_app {row} (p : call row → bool) (l1 l2 : list (call row)) :
  calls p (l1 ++ l2) = (calls p l1 + calls p l2)%nat.
Proof. unfold calls. by rewrite List.filter_app, length_app. Qed.

Lemma min_100_capped (n : js_number) : capped (min_100 n).
Proof.
  destruct n as [| | |q]; simpl; try done.
  destruct (Qle_bool q 100) eqn:E; simpl; [by apply Qle_bool_iff|done].
Qed.

Lemma first_line_single (s : string) : single_line (first_line s).
Proof.
  induction s as [|c s IH]; simpl; [done|].
  destruct (Ascii.eqb c "010") eqn:E; simpl; [done|].
  split; [|done]. intros ->. by rewrite Ascii.eqb_refl in E.
Qed.

Section nlq_facts.
Context {row : Type}.
Variable routeQuestion : string → js_error + routing_decision.
Variable generateQueryPlan :
  bool → string → option (list feedback) → js_error + query_plan.
Variable queryRawUnsafe : bool → nat → string → js_error + option (list row).
Variable generateSummary : summary_request row → js_error + string.
Variable replace_limit : string → js_number → string.

Abbreviation try_block' := (try_block queryRawUnsafe generateSummary replace_limit).
Abbreviation query_loop' :=
  (query_loop generateQueryPlan queryRawUnsafe generateSummary replace_limit).
Abbreviation controller' :=
  (naturalLanguageQueryController routeQuestion generateQueryPlan
     queryRawUnsafe generateSummary replace_limit).

(** One round of the loop: one execution, at most one summary. *)
Lemma try_block_made e q ds req plan fsql a log res made :
  try_block' e q ds req plan fsql a log = (res, made) →
  ∃ rest, made = Executed e a (sql_to_run replace_limit req plan fsql) :: rest ∧
    calls is_executed rest = 0%nat ∧ calls is_planned made = 0%nat ∧
    (calls is_summarised made ≤ 1)%nat ∧
    (∀ md, res = inr md → ∃ raw,
       queryRawUnsafe e a (sql_to_run replace_limit req plan fsql) = inr raw ∧
       rest = [Summarised
          {| sr_question := q;
             sr_sql := sql_to_run replace_limit req plan fsql;
             sr_results := default [] raw; sr_errorFeedback := log;
             sr_dataSource := ds |}] ∧
       generateSummary
          {| sr_question := q;
             sr_sql := sql_to_run replace_limit req plan fsql;
             sr_results := default [] raw; sr_errorFeedback := log;
             sr_dataSource := ds |} = inr md).
Proof.
  unfold try_block. destruct (queryRawUnsafe _ _ _) as [err|raw] eqn:Eq.
  - intros [= <- <-]. eexists; split; [done|]. split_and!; try done.
    cbv; lia.
  - intros [= <- <-]. eexists; split; [done|]. split_and!; try done.
    intros md Hmd. by exists raw.
Qed.

(** The loop ends, within the rounds its counter leaves. *)
Lemma query_loop_ends fuel e q ds req plan fsql a log :
  (3 ≤ a + fuel)%nat →
  is_Some (query_loop' fuel e q ds req plan fsql a log).
Proof.
  revert plan fsql a log.
  induction fuel as [|fuel IH]; intros plan fsql a log Hf; simpl.
  - destruct (a <=? MAX_CORRECTION_ATTEMPTS)%nat eqn:E; simpl; [|done].
    apply Nat.leb_le in E. unfold MAX_CORRECTION_ATTEMPTS in E. lia.
  - destruct (a <=? MAX_CORRECTION_ATTEMPTS)%nat eqn:E; simpl; [|done].
    destruct (try_block' _ _ _ _ _ _ _ _) as [[err|md] made]; [|done].
    destruct (a =? MAX_CORRECTION_ATTEMPTS)%nat; [done|].
    destruct (generateQueryPlan _ _ _) as [err'|plan']; [done|].
    destruct (negb (successStatus plan')); [done|].
    destruct (IH plan' (sql plan') (S a)
                (log ++ [{| fb_sql := fsql; fb_error := extractDatabaseError err |}])
                ltac:(lia)) as [[r later] ->].
    done.
Qed.

(** More fuel does not change the outcome. *)
Lemma query_loop_fuel fuel fuel' e q ds req plan fsql a log r :
  query_loop' fuel e q ds req plan fsql a log = Some r →
  (fuel ≤ fuel')%nat →
  query_loop' fuel' e q ds req plan fsql a log = Some r.
Proof.
  revert fuel' plan fsql a log r.
  induction fuel as [|fuel IH]; intros fuel' plan fsql a log r; simpl.
  - destruct (a <=? MAX_CORRECTION_ATTEMPTS)%nat eqn:E; simpl; [done|].
    intros Hr _. destruct fuel'; simpl; by rewrite E.
  - destruct (a <=? MAX_CORRECTION_ATTEMPTS)%nat eqn:E; simpl.
    2:{ intros Hr _. destruct fuel'; simpl; by rewrite E. }
    intros Hr Hf. destruct fuel' as [|fuel']; [lia|]. simpl. rewrite E. simpl.
    destruct (try_block' _ _ _ _ _ _ _ _) as [[err|md] made]; [|done].
    destruct (a =? MAX_CORRECTION_ATTEMPTS)%nat; [done|].
    destruct (generateQueryPlan _ _ _) as [err'|plan']; [done|].
    destruct (negb (successStatus plan')); [done|].
    destruct (query_loop' fuel _ _ _ _ _ _ _ _) as [[r0 later]|] eqn:El; [|done].
    by rewrite (IH fuel' _ _ _ _ _ El ltac:(lia)).
Qed.

(** What a run of the loop from [attempts = a] does. *)
Lemma query_loop_run fuel e q ds req plan a log r made :
  query_loop' fuel e q ds req plan (sql plan) a log = Some (r, made) →
  (calls is_executed made ≤ 3 - a)%nat ∧
  (calls is_planned made ≤ 2 - a)%nat ∧
  (calls is_summarised made ≤ 3 - a)%nat ∧
  (∀ e' k s, Executed e' k s ∈ made →
     e' = e ∧ (a ≤ k ≤ 2)%nat ∧
     ∃ plan', (plan' = plan ∧ k = a ∨
               (a < k)%nat ∧ successStatus plan' = true ∧
               ∃ fb, generateQueryPlan e q (Some fb) = inr plan') ∧
              s = sql_to_run replace_limit req plan' (sql plan')) ∧
  match r with
  | LoopReturn response =>
      ∃ pre k s raw fb,
        made = pre ++ [Executed e k s;
                       Summarised {| sr_question := q; sr_sql := s;
                                     sr_results := default [] raw;
                                     sr_errorFeedback := fb;
                                     sr_dataSource := ds |}] ∧
        queryRawUnsafe e k s = inr raw ∧
        generateSummary {| sr_question := q; sr_sql := s;
                           sr_results := default [] raw;
                           sr_errorFeedback := fb;
                           sr_dataSource := ds |} = inr (markdown response) ∧
        length fb = (length log + calls is_executed pre)%nat ∧
        k = (a + calls is_executed pre)%nat ∧
        statusCode response = 200 ∧ success response = true ∧
        message response = "Query executed successfully"
  | LoopBreak _ log' =>
      length log' = (length log + calls is_executed made)%nat ∧
      ((a ≤ 2)%nat → (1 ≤ calls is_executed made)%nat)
  | LoopThrow _ => True
  end.
Proof.
  revert plan a log r made.
  induction fuel as [|fuel IH]; intros plan a log r made; simpl.
  - destruct (a <=? MAX_CORRECTION_ATTEMPTS)%nat eqn:E; simpl; [done|].
    apply Nat.leb_gt in E. unfold MAX_CORRECTION_ATTEMPTS in E.
    intros [= <- <-]. split_and!; try (unfold calls; simpl; lia).
    intros e' k s Hin. by apply elem_of_nil in Hin.
  - destruct (a <=? MAX_CORRECTION_ATTEMPTS)%nat eqn:E; simpl.
    2:{ apply Nat.leb_gt in E. unfold MAX_CORRECTION_ATTEMPTS in E.
        intros [= <- <-]. split_and!; try (unfold calls; simpl; lia).
        intros e' k s Hin. by apply elem_of_nil in Hin. }
    apply Nat.leb_le in E. unfold MAX_CORRECTION_ATTEMPTS in E.
    destruct (try_block' _ _ _ _ _ _ _ _) as [[err|md] made0] eqn:Et;
      destruct (try_block_made _ _ _ _ _ _ _ _ _ _ Et)
        as (rest & Hmade & Hex & Hpl & Hsu & Hok).
    + (* the round failed *)
      assert (Hex0 : calls is_executed made0 = 1%nat).
      { rewrite Hmade. change (S (calls is_executed rest) = 1%nat). by rewrite Hex. }
      assert (Hin0 : ∀ e' k s, Executed e' k s ∈ made0 →
                e' = e ∧ k = a ∧ s = sql_to_run replace_limit req plan (sql plan)).
      { rewrite Hmade.
        intros e' k s [Heq|Hin]%elem_of_cons; [by injection Heq as -> -> ->|].
        exfalso. unfold calls in Hex.
        assert (Hf : Executed e' k s ∈ List.filter is_executed rest).
        { apply list_elem_of_In, List.filter_In. split; [by apply list_elem_of_In|done]. }
        destruct (List.filter is_executed rest); [by apply elem_of_nil in Hf|done]. }
      destruct (a =? MAX_CORRECTION_ATTEMPTS)%nat eqn:Emax.
      { apply Nat.eqb_eq in Emax. unfold MAX_CORRECTION_ATTEMPTS in Emax.
        intros [= <- <-]. rewrite Hex0, Hpl. split_and!; try lia.
        - intros e' k s Hin. destruct (Hin0 _ _ _ Hin) as (-> & -> & ->).
          split_and!; try done; try lia. exists plan. split; [by left|done].
        - rewrite length_app. simpl. lia. }
      apply Nat.eqb_neq in Emax. unfold MAX_CORRECTION_ATTEMPTS in Emax.
      destruct (generateQueryPlan _ _ _) as [err'|plan'] eqn:Ep.
      { intros [= <- <-]. rewrite !calls_app, Hex0, Hpl.
        split_and!; try (cbn; lia); try done.
        intros e' k s [Hin|Hin]%elem_of_app.
        - destruct (Hin0 _ _ _ Hin) as (-> & -> & ->).
          split_and!; try done; try lia. exists plan. split; [by left|done].
        - apply list_elem_of_singleton in Hin. done. }
      destruct (successStatus plan') eqn:Es; simpl.
      2:{ intros [= <- <-]. rewrite !calls_app, Hex0, Hpl.
          split_and!; try (cbn; lia).
          - intros e' k s [Hin|Hin]%elem_of_app.
            + destruct (Hin0 _ _ _ Hin) as (-> & -> & ->).
              split_and!; try done; try lia. exists plan. split; [by left|done].
            + apply list_elem_of_singleton in Hin. done.
          - rewrite length_app. cbn. lia. }
      destruct (query_loop' fuel _ _ _ _ _ _ _ _) as [[r0 later]|] eqn:El; [|done].
      intros [= <- <-].
      destruct (IH _ _ _ _ _ El) as (Hb1 & Hb2 & Hb3 & Hin1 & Hr).
      rewrite !calls_app, Hex0, Hpl.
      split_and!; try (cbn; lia).
      * intros e' k s [[Hin|Hin]%elem_of_app|Hin]%elem_of_app.
        -- destruct (Hin0 _ _ _ Hin) as (-> & -> & ->).
           split_and!; try done; try lia. exists plan. split; [by left|done].
        -- apply list_elem_of_singleton in Hin. done.
        -- destruct (Hin1 _ _ _ Hin) as (-> & Hk & plan'' & Hplan & ->).
           split_and!; try done; try lia. exists plan''. split; [|done].
           right. destruct Hplan as [[-> ->]|(Hlt & Hs & fb & Hfb)].
           ++ split_and!; [lia|done|by eexists].
           ++ split_and!; [lia|done|by eexists].
      * destruct r0 as [resp|err'|fsql' log']; [|done|].
        -- destruct Hr as (pre & k & s & raw & fb & -> & Hq & Hg & Hlen & Hk & Hresp).
           match goal with
           | |- context [?X ++ pre ++ _] => exists (X ++ pre), k, s, raw, fb
           end.
           split; [apply app_assoc|].
           destruct Hresp as (Hc & Hs & Hm).
           split_and!; try done.
           ++ rewrite Hlen, length_app, !calls_app, Hex0. cbn. lia.
           ++ rewrite Hk, !calls_app, Hex0. cbn. lia.
        -- destruct Hr as [Hlen _]. rewrite Hlen, length_app. cbn. lia.
    + (* the round succeeded *)
      destruct (Hok md eq_refl) as (raw & Hq & -> & Hg). subst made0.
      intros [= <- <-]. split_and!; try (unfold calls; simpl; lia).
      * intros e' k s [Heq|Hin]%elem_of_cons.
        -- injection Heq as -> -> ->. split_and!; try done; try lia.
           exists plan. split; [by left|done].
        -- apply list_elem_of_singleton in Hin. done.
      * exists [], a, (sql_to_run replace_limit req plan (sql plan)), raw, log.
        split_and!; try done; unfold calls; simpl; lia.
Qed.

(** The ways a request ends: before any plan is executed, or after a run
    of the loop. *)
Lemma controller_cases fuel req r trace :
  controller' fuel req = Some (r, trace) →
  (calls is_executed trace = 0%nat ∧ calls is_summarised trace = 0%nat ∧
   (calls is_planned trace ≤ 1)%nat ∧
   (∀ e k s, Executed e k s ∉ trace) ∧
   (∀ resp, r = inr resp →
      statusCode resp = 200 ∧ message resp = "General question answered")) ∨
  (∃ question rd plan lr later,
     body_question req = Some question ∧
     routeQuestion (trim question) = inr rd ∧
     target rd ≠ "general" ∧ target rd ≠ "unknown" ∧
     generateQueryPlan (String.eqb (target rd) "entities") (trim question) None
       = inr plan ∧
     query_loop' fuel (String.eqb (target rd) "entities") (trim question)
       (target rd) req plan (sql plan) 0 [] = Some (lr, later) ∧
     match lr with
     | LoopReturn resp =>
         r = inr resp ∧
         trace = [Routed (trim question);
                  Planned (String.eqb (target rd) "entities") (trim question) None]
                 ++ later
     | LoopThrow err =>
         r = inl (External err) ∧
         trace = [Routed (trim question);
                  Planned (String.eqb (target rd) "entities") (trim question) None]
                 ++ later
     | LoopBreak finalSql log =>
         ∃ rq, rq = {| sr_question := trim question; sr_sql := finalSql;
                       sr_results := []; sr_errorFeedback := log;
                       sr_dataSource := target rd |} ∧
         trace = [Routed (trim question);
                  Planned (String.eqb (target rd) "entities") (trim question) None]
                 ++ later ++ [Summarised rq] ∧
         r = match generateSummary rq with
             | inl e => inl (External e)
             | inr fallbackMarkdown =>
                 inr {| statusCode := 400; success := false;
                        message := "Failed to execute query after multiple attempts.";
                        markdown := fallbackMarkdown |}
             end
     end).
Proof.
  assert (Hnone : ∀ (q : string) (l : list (call row)),
            l = [] ∨ l = [Routed q] ∨ (∃ e fb, l = [Routed q; Planned e q fb]) →
            calls is_executed l = 0%nat ∧ calls is_summarised l = 0%nat ∧
            (calls is_planned l ≤ 1)%nat ∧ (∀ e k s, Executed e k s ∉ l)).
  { intros q l [->|[->|(e & fb & ->)]]; split_and!; try (cbv; lia);
      intros e' k s Hin; repeat (apply elem_of_cons in Hin as [Hin|Hin]; [done|]);
      by apply elem_of_nil in Hin. }
  unfold naturalLanguageQueryController, cleaned_question.
  destruct (body_question req) as [question|] eqn:Eq.
  2:{ intros [= <- <-]. left.
      destruct (Hnone "" [] ltac:(by left)) as (? & ? & ? & ?). by split_and!. }
  destruct (truthy question && truthy (trim question)) eqn:Et.
  2:{ intros [= <- <-]. left.
      destruct (Hnone "" [] ltac:(by left)) as (? & ? & ? & ?). by split_and!. }
  destruct (routeQuestion (trim question)) as [err|rd] eqn:Er.
  { intros [= <- <-]. left.
    destruct (Hnone (trim question) [Routed (trim question)] ltac:(by right; left))
      as (? & ? & ? & ?). by split_and!. }
  destruct (String.eqb (target rd) "general") eqn:Eg.
  { destruct (truthy (or_empty (markdownResponse rd))); simpl;
      intros [= <- <-]; left;
      destruct (Hnone (trim question) [Routed (trim question)] ltac:(by right; left))
        as (? & ? & ? & ?); split_and!; try done.
    by intros resp [= <-]. }
  simpl. destruct (String.eqb (target rd) "unknown") eqn:Eu.
  { intros [= <- <-]. left.
    destruct (Hnone (trim question) [Routed (trim question)] ltac:(by right; left))
      as (? & ? & ? & ?). by split_and!. }
  apply String.eqb_neq in Eg, Eu.
  destruct (generateQueryPlan _ _ None) as [err|plan] eqn:Ep.
  { intros [= <- <-]. left.
    destruct (Hnone (trim question)
                [Routed (trim question);
                 Planned (String.eqb (target rd) "entities") (trim question) None]
                ltac:(by right; right; eexists _, _))
      as (? & ? & ? & ?). by split_and!. }
  destruct (query_loop' _ _ _ _ _ _ _ _ _) as [[lr later]|] eqn:El; [|done].
  intros Hr. right. exists question, rd, plan, lr, later.
  split_and!; try done.
  destruct lr as [resp|err|fsql log].
  - by injection Hr as <- <-.
  - by injection Hr as <- <-.
  - unfold fallback in Hr. injection Hr as <- <-. by eexists.
Qed.

(** X23: a request always ends, and whatever the services and the database
    answer it executes SQL at most three times, asks for a plan at most
    three times and for a summary at most four times. *)
Theorem query_rounds_are_bounded (fuel : nat) (req : nlq_request) :
  (3 ≤ fuel)%nat →
  ∃ r trace,
    controller' fuel req = Some (r, trace) ∧
    controller' 3 req = Some (r, trace) ∧
    (calls is_executed trace ≤ 3)%nat ∧
    (calls is_planned trace ≤ 3)%nat ∧
    (calls is_summarised trace ≤ 4)%nat.
Proof.
  intros Hfuel.
  assert (H3 : is_Some (controller' 3 req)).
  { unfold naturalLanguageQueryController.
    destruct (cleaned_question req) as [q|]; [|done].
    destruct (routeQuestion q) as [err|rd]; [done|].
    destruct (_ && _); [done|].
    destruct (String.eqb (target rd) "general"); [done|].
    destruct (String.eqb (target rd) "unknown"); [done|].
    destruct (generateQueryPlan _ _ None) as [err|plan]; [done|].
    destruct (query_loop_ends 3 (String.eqb (target rd) "entities") q (target rd)
                req plan (sql plan) 0 [] ltac:(lia)) as [[lr later] ->].
    destruct lr; try done; try by destruct (fallback _ _ _ _ _). }
  destruct H3 as [[r trace] H3]. exists r, trace.
  assert (Hf : controller' fuel req = Some (r, trace)).
  { revert H3. unfold naturalLanguageQueryController.
    destruct (cleaned_question req) as [q|]; [|done].
    destruct (routeQuestion q) as [err|rd]; [done|].
    destruct (_ && _); [done|].
    destruct (String.eqb (target rd) "general"); [done|].
    destruct (String.eqb (target rd) "unknown"); [done|].
    destruct (generateQueryPlan _ _ None) as [err|plan]; [done|].
    destruct (query_loop' 3 _ _ _ _ _ _ _ _) as [lr|] eqn:El; [|done].
    by rewrite (query_loop_fuel _ _ _ _ _ _ _ _ _ _ _ El Hfuel). }
  split; [done|]. split; [done|].
  destruct (controller_cases _ _ _ _ H3)
    as [(Hex & Hsu & Hpl & _)|
        (question & rd & plan & lr & later & _ & _ & _ & _ & _ & Hl & Hlr)];
    [lia|].
  destruct (query_loop_run _ _ _ _ _ _ _ _ _ _ Hl) as (Hb1 & Hb2 & Hb3 & _).
  simpl in Hb1, Hb2, Hb3.
  assert (Ht : ∃ last, trace = [Routed (trim question);
                 Planned (String.eqb (target rd) "entities") (trim question) None]
                ++ later ++ last ∧
              calls is_executed last = 0%nat ∧ calls is_planned last = 0%nat ∧
              (calls is_summarised last ≤ 1)%nat).
  { destruct lr as [resp|err|fsql log].
    - exists []. destruct Hlr as [_ ->]. rewrite app_nil_r.
      split_and!; [done|done|done|]. unfold calls. simpl. lia.
    - exists []. destruct Hlr as [_ ->]. rewrite app_nil_r.
      split_and!; [done|done|done|]. unfold calls. simpl. lia.
    - destruct Hlr as (rq & _ & -> & _). exists [Summarised rq].
      split_and!; [done|done|done|]. unfold calls. simpl. lia. }
  destruct Ht as (last & -> & Hl1 & Hl2 & Hl3).
  rewrite !calls_app, Hl1, Hl2.
  change (calls is_executed
            [Routed (trim question);
             Planned (String.eqb (target rd) "entities") (trim question) None])
    with 0%nat.
  change (calls is_planned
            [Routed (trim question);
             Planned (String.eqb (target rd) "entities") (trim question) None])
    with 1%nat.
  change (calls is_summarised
            [Routed (trim question);
             Planned (String.eqb (target rd) "entities") (trim question) None])
    with 0%nat.
  lia.
Qed.

(** X24: an answer "Query executed successfully" comes from an execution
    that the database accepted and that was the last one made: its rows,
    or no rows when the result is not an array, went into the summary
    returned as markdown, together with one feedback entry for each
    earlier execution. *)
Theorem answered_query_ran_last (fuel : nat) (req : nlq_request)
    (resp : nlq_response) (trace : list (call row)) :
  controller' fuel req = Some (inr resp, trace) →
  message resp = "Query executed successfully" →
  ∃ pre e k s raw rq,
    trace = pre ++ [Executed e k s; Summarised rq] ∧
    queryRawUnsafe e k s = inr raw ∧
    sr_sql rq = s ∧ sr_results rq = default [] raw ∧
    generateSummary rq = inr (markdown resp) ∧
    length (sr_errorFeedback rq) = calls is_executed pre ∧
    k = calls is_executed pre ∧
    statusCode resp = 200 ∧ success resp = true.
Proof.
  intros Hrun Hmsg.
  destruct (controller_cases _ _ _ _ Hrun)
    as [(_ & _ & _ & _ & Hresp)|
        (question & rd & plan & lr & later & _ & _ & _ & _ & _ & Hl & Hlr)].
  { destruct (Hresp resp eq_refl) as [_ Hm]. by rewrite Hm in Hmsg. }
  pose proof (query_loop_run _ _ _ _ _ _ _ _ _ _ Hl) as (_ & _ & _ & _ & Hr).
  destruct lr as [resp'|err|fsql log].
  - destruct Hlr as [[= <-] ->].
    destruct Hr as (pre & k & s & raw & fb & -> & Hq & Hg & Hlen & Hk & Hs & Hok & _).
    match goal with
    | |- context [?X ++ pre ++ [_; Summarised ?rq]] =>
        exists (X ++ pre), (String.eqb (target rd) "entities"), k, s, raw, rq
    end.
    split; [apply app_assoc|].
    split_and!; try done;
      rewrite calls_app; unfold calls in *; simpl in *; lia.
  - by destruct Hlr as [[=] _].
  - destruct Hlr as (rq & _ & _ & Hresp).
    destruct (generateSummary rq); [done|]. injection Hresp as ->.
    by simpl in Hmsg.
Qed.

(** The handler throws a [RouteError] of its own only before it asks for
    a plan: for a blank question, or right after the routing. *)
Lemma route_error_is_early fuel req e trace :
  controller' fuel req = Some (inl (Route e), trace) →
  trace = [] ∨ ∃ question, trace = [Routed question].
Proof.
  unfold naturalLanguageQueryController.
  destruct (cleaned_question req) as [q|]; [|intros [= <- <-]; by left].
  destruct (routeQuestion q) as [err|rd]; [done|].
  destruct (_ && _); [done|].
  destruct (String.eqb (target rd) "general");
    [intros [= <- <-]; right; by eexists|].
  destruct (String.eqb (target rd) "unknown");
    [intros [= <- <-]; right; by eexists|].
  destruct (generateQueryPlan _ _ None) as [err|plan]; [done|].
  destruct (query_loop' _ _ _ _ _ _ _ _ _) as [[[resp|err|fsql log] later]|];
    [done|done| |done].
  unfold fallback. by destruct (generateSummary _).
Qed.

(** X25: the handler's own refusals. When it throws [BadRequest], which
    the error handler answers with status 400, no plan, SQL or summary has
    been asked for. When it writes the answer with status 400 itself, it
    reports no success and does so after one to three executions: the
    final summary was asked for with no rows and with exactly one
    feedback entry for each execution, and its text is the markdown
    returned. *)
Theorem failed_query_reports_every_attempt (fuel : nat) (req : nlq_request)
    (r : thrown + nlq_response) (trace : list (call row)) :
  controller' fuel req = Some (r, trace) →
  (∀ e, r = inl (Route e) →
     (trace = [] ∨ ∃ question, trace = [Routed question]) ∧
     calls is_planned trace = 0%nat ∧ calls is_executed trace = 0%nat ∧
     calls is_summarised trace = 0%nat) ∧
  (∀ resp, r = inr resp → statusCode resp = 400 →
     success resp = false ∧
     ∃ pre rq,
       trace = pre ++ [Summarised rq] ∧
       sr_results rq = [] ∧
       generateSummary rq = inr (markdown resp) ∧
       length (sr_errorFeedback rq) = calls is_executed trace ∧
       (1 ≤ calls is_executed trace ≤ 3)%nat).
Proof.
  intros Hrun. split.
  { intros e ->. pose proof (route_error_is_early _ _ _ _ Hrun) as Htrace.
    split; [done|]. by destruct Htrace as [->|[q ->]]. }
  intros resp -> Hcode.
  destruct (controller_cases _ _ _ _ Hrun)
    as [(_ & _ & _ & _ & Hresp)|
        (question & rd & plan & lr & later & _ & _ & _ & _ & _ & Hl & Hlr)].
  { destruct (Hresp resp eq_refl) as [Hc _]. by rewrite Hc in Hcode. }
  pose proof (query_loop_run _ _ _ _ _ _ _ _ _ _ Hl) as (Hb & _ & _ & _ & Hr).
  destruct lr as [resp'|err|fsql log].
  - destruct Hlr as [[= <-] _].
    destruct Hr as (? & ? & ? & ? & ? & _ & _ & _ & _ & _ & Hc & _).
    by rewrite Hc in Hcode.
  - by destruct Hlr as [[=] _].
  - destruct Hlr as (rq & Hrq & -> & Hresp). destruct Hr as [Hlen Hone].
    destruct (generateSummary rq) as [err|md] eqn:Eg; [done|].
    injection Hresp as ->. split; [done|].
    match goal with
    | |- context [?X ++ later ++ _] => exists (X ++ later), rq
    end.
    split; [apply app_assoc|].
    assert (Hc : calls is_executed
              ([Routed (trim question);
                Planned (String.eqb (target rd) "entities") (trim question) None]
               ++ later ++ [Summarised rq]) = calls is_executed later).
    { rewrite !calls_app. unfold calls at 1 3. simpl. lia. }
    rewrite Hc. subst rq. simpl in *. split_and!; try done; lia.
Qed.

(** X26: SQL is executed only for a non-blank question that the router
    sent to a data source: never for a "general" or "unknown" target,
    always on the client chosen by the target, with [attempts] at most 2,
    and always the SQL of a plan the planning service returned, with
    [LIMIT ?] replaced, if at all, by a limit that is never above 100
    (NaN and negative limits pass). A corrected plan is executed only if
    it reports success. *)
Theorem sql_comes_from_a_plan (fuel : nat) (req : nlq_request)
    (r : thrown + nlq_response) (trace : list (call row))
    (e : bool) (k : nat) (s : string) :
  controller' fuel req = Some (r, trace) →
  Executed e k s ∈ trace →
  ∃ question rd plan fb,
    body_question req = Some question ∧ trim question ≠ "" ∧
    routeQuestion (trim question) = inr rd ∧
    target rd ≠ "general" ∧ target rd ≠ "unknown" ∧
    e = String.eqb (target rd) "entities" ∧ (k ≤ 2)%nat ∧
    generateQueryPlan e (trim question) fb = inr plan ∧
    (fb = None ↔ k = 0%nat) ∧
    ((0 < k)%nat → successStatus plan = true) ∧
    (s = sql plan ∨ ∃ n, s = replace_limit (sql plan) n ∧ capped n).
Proof.
  intros Hrun Hin.
  destruct (controller_cases _ _ _ _ Hrun)
    as [(_ & _ & _ & Hno & _)|
        (question & rd & plan & lr & later & Hq & Hrd & Hg & Hu & Hp & Hl & Hlr)].
  { by destruct (Hno e k s). }
  assert (Hne : trim question ≠ "").
  { revert Hrun. unfold naturalLanguageQueryController, cleaned_question.
    rewrite Hq. destruct (truthy question && truthy (trim question)) eqn:Et.
    - apply andb_true_iff in Et as [_ Et]. intros _ Hempty.
      by rewrite Hempty in Et.
    - intros [= <- <-]. by apply elem_of_nil in Hin. }
  pose proof (query_loop_run _ _ _ _ _ _ _ _ _ _ Hl) as (_ & _ & _ & Hex & _).
  assert (Hlater : Executed e k s ∈ later).
  { destruct lr as [resp|err|fsql log];
      [destruct Hlr as [_ ->]|destruct Hlr as [_ ->]|
       destruct Hlr as (rq & _ & -> & _)];
      repeat (apply elem_of_cons in Hin as [Hin|Hin]; [done|]); try done.
    apply elem_of_app in Hin as [Hin|Hin]; [done|].
    apply list_elem_of_singleton in Hin. done. }
  destruct (Hex _ _ _ Hlater) as (-> & Hk & plan' & Hplan & ->).
  assert (Hsql : ∀ p, sql_to_run replace_limit req p (sql p) = sql p ∨
                      ∃ n, sql_to_run replace_limit req p (sql p)
                           = replace_limit (sql p) n ∧ capped n).
  { intros p. unfold sql_to_run. destruct (allowsLimit p); [|by left].
    destruct (body_limit req) as [n|]; [|by left].
    right. exists (min_100 n). split; [done|apply min_100_capped]. }
  destruct Hplan as [[-> ->]|(Hlt & Hs & fb & Hfb)].
  - exists question, rd, plan, None.
    split_and!; try done; try lia; try apply Hsql.
  - exists question, rd, plan', (Some fb).
    split_and!; try done; try lia; try apply Hsql.
    split; [done|lia].
Qed.

End nlq_facts.

(** X27: unless the error carries a [meta.message], which is passed on as
    it is, the text recorded as database error is a single line: the first
    line of the error's message, or "Unknown database error". *)
Theorem database_error_is_one_line (error : js_error) :
  truthy (or_empty (meta_message error)) = false →
  single_line (extractDatabaseError error) ∧
  (extractDatabaseError error = first_line (or_empty (error_message error)) ∨
   extractDatabaseError error = "Unknown database error").
Proof.
  intros Hmeta. unfold extractDatabaseError. rewrite Hmeta.
  destruct (truthy (or_empty (error_message error))).
  - split; [apply first_line_single|by left].
  - split; [|by right]. cbv. repeat split; done.
Qed.

(** ** Sample runs of the natural-language query handler *)

Example sample_run_retries_once :
  sample_run = Some (inr sample_answer, sample_trace) ∧
  sample_answer = {| statusCode := 200; success := true;
                     message := "Query executed successfully";
                     markdown := "2" |} ∧
  List.map (λ c, match c with
                 | Executed _ k s => Some (k, s)
                 | _ => None
                 end) sample_trace
  = [None; None; Some (0%nat, "SELECT id FROM entity LIMIT 100"); None;
     Some (1%nat, "SELECT id FROM entity LIMIT 100"); None].
Proof. by vm_compute. Qed.

Example failed_run_gives_up :
  failed_run = Some (inr failed_answer, failed_trace) ∧
  statusCode failed_answer = 400 ∧
  calls is_executed failed_trace = 3%nat ∧
  calls is_planned failed_trace = 3%nat ∧
  calls is_summarised failed_trace = 1%nat.
Proof. by vm_compute. Qed.

Lemma query_rounds_are_bounded_witness :
  ∃ r trace,
    naturalLanguageQueryController route_to_entities plan_with_limit
      (failing_database 3) summary_of_count limit_100 5 sample_question
    = Some (r, trace) ∧
    naturalLanguageQueryController route_to_entities plan_with_limit
      (failing_database 3) summary_of_count limit_100 3 sample_question
    = Some (r, trace) ∧
    (calls is_executed trace ≤ 3)%nat ∧
    (calls is_planned trace ≤ 3)%nat ∧
    (calls is_summarised trace ≤ 4)%nat.
Proof.
  apply (query_rounds_are_bounded route_to_entities plan_with_limit
           (failing_database 3) summary_of_count limit_100 5 sample_question).
  lia.
Defined.

Lemma answered_query_ran_last_witness :
  ∃ pre e k s raw rq,
    sample_trace = pre ++ [Executed e k s; Summarised rq] ∧
    failing_database 1 e k s = inr raw ∧
    sr_sql rq = s ∧ sr_results rq = default [] raw ∧
    summary_of_count rq = inr (markdown sample_answer) ∧
    length (sr_errorFeedback rq) = calls is_executed pre ∧
    k = calls is_executed pre ∧
    statusCode sample_answer = 200 ∧ success sample_answer = true.
Proof.
  apply (answered_query_ran_last route_to_entities plan_with_limit
           (failing_database 1) summary_of_count limit_100 3 sample_question
           sample_answer sample_trace).
  - vm_compute. reflexivity.
  - reflexivity.
Defined.

Lemma failed_query_reports_every_attempt_witness :
  success failed_answer = false ∧
  ∃ pre rq,
    failed_trace = pre ++ [Summarised rq] ∧
    sr_results rq = [] ∧
    summary_of_count rq = inr (markdown failed_answer) ∧
    length (sr_errorFeedback rq) = calls is_executed failed_trace ∧
    (1 ≤ calls is_executed failed_trace ≤ 3)%nat.
Proof.
  refine (proj2 (failed_query_reports_every_attempt route_to_entities
            plan_with_limit (failing_database 3) summary_of_count limit_100 3
            sample_question (inr failed_answer) failed_trace _)
            failed_answer eq_refl eq_refl).
  vm_compute. reflexivity.
Defined.

(** A blank question and an unroutable one are refused before any plan is
    asked for. *)
Example refused_before_any_plan :
  naturalLanguageQueryController route_to_entities plan_with_limit
    (failing_database 3) summary_of_count limit_100 3
    {| body_question := Some "   "; body_limit := None |}
  = Some (inl (Route (BadRequest "A valid 'question' string is required")), []) ∧
  naturalLanguageQueryController
    (λ _, inr {| target := "unknown"; markdownResponse := None;
                 reason := Some "no such data" |})
    plan_with_limit (failing_database 3) summary_of_count limit_100 3
    sample_question
  = Some (inl (Route (BadRequest "no such data")),
          [Routed "how many entities?"]).
Proof. vm_compute. done. Qed.

Lemma sql_comes_from_a_plan_witness :
  ∃ question rd plan fb,
    body_question sample_question = Some question ∧ trim question ≠ "" ∧
    route_to_entities (trim question) = inr rd ∧
    target rd ≠ "general" ∧ target rd ≠ "unknown" ∧
    true = String.eqb (target rd) "entities" ∧ (1 ≤ 2)%nat ∧
    plan_with_limit true (trim question) fb = inr plan ∧
    (fb = None ↔ 1%nat = 0%nat) ∧
    ((0 < 1)%nat → successStatus plan = true) ∧
    ("SELECT id FROM entity LIMIT 100" = sql plan ∨
     ∃ n, "SELECT id FROM entity LIMIT 100" = limit_100 (sql plan) n ∧ capped n).
Proof.
  apply (sql_comes_from_a_plan route_to_entities plan_with_limit
           (failing_database 1) summary_of_count limit_100 3 sample_question
           (inr sample_answer) sample_trace).
  - vm_compute. reflexivity.
  - unfold sample_trace. apply list_elem_of_In. simpl. tauto.
Defined.

Lemma database_error_is_one_line_witness :
  single_line (extractDatabaseError syntax_error) ∧
  (extractDatabaseError syntax_error
     = first_line (or_empty (error_message syntax_error)) ∨
   extractDatabaseError syntax_error = "Unknown database error").
Proof. apply (database_error_is_one_line syntax_error). reflexivity. Defined.

Example database_error_of_syntax_error :
  extractDatabaseError syntax_error = "syntax error at or near FROM".
Proof. reflexivity. Qed.
